(** * Parallax XHash Stratum-to-Getwork proxy: job tracking and miner sessions

    A shallow embedding of [xhash_stratum_proxy.py]: the [JobManager]
    (work polling, the bounded job cache, solution forwarding) and the
    [MinerSession] dispatch engine with its two dialects, followed by the
    properties that the specification states about them.

    Conventions of the embedding.
    - Python exceptions are values of [exn]; a call that can raise returns an
      [outcome].
    - JSON data coming from a miner is a [value].  A [string] holds one
      code point per character, so it stands for a Python [str] whose code
      points are below 256.  On these [int(_, 16)] is modelled in full,
      the white space U+0085 and U+00A0 included; [str.lower] is
      modelled on the ASCII letters.
    - The Python [dict] is an insertion-ordered association list with unique
      keys ([PyDict]).
    - The upstream node and the socket are the environment: what
      [eth_getWork] and [eth_submitWork] answer, and whether a socket write
      succeeds, are inputs of the model.  The job manager and the
      sessions take the answers of the node as such inputs; [get_work] is
      typed as the source types it, [None] or a list, here of strings.
      [NodeRPC] itself is embedded further down, over the HTTP exchange
      as its input. *)

From Stdlib Require Import List String Ascii ZArith NArith Lia Bool.
From Stdlib Require HexString.
Import ListNotations.
Local Open Scope string_scope.

Set Implicit Arguments.
Set Warnings "-register-all".

(* ------------------------------------------------------------------ *)
(** ** Python values, exceptions and the builtins the proxy uses *)
(* ------------------------------------------------------------------ *)

Inductive exn : Type :=
| AttributeError
| TypeError
| IndexError
| KeyError
| ValueError.

Inductive outcome (A : Type) : Type :=
| Return (a : A)
| Raise (e : exn).

Arguments Return {A} a.
Arguments Raise {A} e.

(** A deserialised JSON value ([json.loads]).  [VFloat n d] stands for the
    double nearest to the rational [n/d]; only its being zero or not is
    ever inspected. *)
Inductive value : Type :=
| VNone
| VBool (b : bool)
| VInt (z : Z)
| VFloat (num : Z) (den : positive)
| VStr (s : string)
| VList (l : list value)
| VDict (d : list (string * value)).

(** Python truth value of a JSON value. *)
Definition truthy (v : value) : bool :=
  match v with
  | VNone => false
  | VBool b => b
  | VInt z => negb (Z.eqb z 0)
  | VFloat n _ => negb (Z.eqb n 0)
  | VStr s => negb (String.eqb s "")
  | VList l => match l with [] => false | _ => true end
  | VDict d => match d with [] => false | _ => true end
  end.

(** [len(v)] *)
Definition py_len (v : value) : outcome nat :=
  match v with
  | VStr s => Return (String.length s)
  | VList l => Return (List.length l)
  | VDict d => Return (List.length d)
  | _ => Raise TypeError
  end.

(** [v[i]] for a non-negative literal index [i]. *)
Definition py_getitem (v : value) (i : nat) : outcome value :=
  match v with
  | VList l =>
      match nth_error l i with
      | Some x => Return x
      | None => Raise IndexError
      end
  | VStr s =>
      match String.get i s with
      | Some c => Return (VStr (String c ""))
      | None => Raise IndexError
      end
  | VDict _ => Raise KeyError
  | _ => Raise TypeError
  end.

(** [v[:a]] and [v[-b:]]: only whether the slice can be taken matters
    (it is a logging argument).  On a dict the exception is [TypeError]
    before Python 3.12 and [KeyError] from 3.12 on; the model says
    [TypeError]. *)
Definition py_sliceable (v : value) : outcome unit :=
  match v with
  | VStr _ | VList _ => Return tt
  | _ => Raise TypeError
  end.

(** [c.lower()] on one ASCII character. *)
Definition lower_ascii (c : ascii) : ascii :=
  let n := nat_of_ascii c in
  if andb (Nat.leb 65 n) (Nat.leb n 90) then ascii_of_nat (n + 32) else c.

(** [s.lower()] *)
Fixpoint lower (s : string) : string :=
  match s with
  | EmptyString => EmptyString
  | String c r => String (lower_ascii c) (lower r)
  end.

(** [s.startswith(p)] *)
Fixpoint startswith (s p : string) {struct p} : bool :=
  match p with
  | EmptyString => true
  | String c p' =>
      match s with
      | EmptyString => false
      | String d s' => if Ascii.eqb c d then startswith s' p' else false
      end
  end.

(** [hex(n)] for a non-negative integer: ["0x"] and lowercase digits. *)
Definition hex (n : N) : string := HexString.of_N n.

(** *** [int(s, 16)] *)

(** The white space that [int] skips: the ASCII blanks (space, and tab to
    carriage return) and, in a string that is not pure ASCII, every
    Unicode white space, which [int] turns into a space before it reads
    the digits; below 256 these are U+0085 and U+00A0.  No code point
    from 128 to 255 is a decimal digit. *)
Definition is_space (c : ascii) : bool :=
  let n := nat_of_ascii c in
  orb (orb (Nat.eqb n 32) (andb (Nat.leb 9 n) (Nat.leb n 13)))
      (orb (Nat.eqb n 133) (Nat.eqb n 160)).

(** [c.isascii()] and [s.isascii()] *)
Definition isascii_char (c : ascii) : bool := Nat.ltb (nat_of_ascii c) 128.

Fixpoint isascii (s : string) : bool :=
  match s with
  | String c r => andb (isascii_char c) (isascii r)
  | EmptyString => true
  end.

Fixpoint lstrip (s : string) : string :=
  match s with
  | String c r => if is_space c then lstrip r else s
  | EmptyString => EmptyString
  end.

Fixpoint all_space (s : string) : bool :=
  match s with
  | String c r => andb (is_space c) (all_space r)
  | EmptyString => true
  end.

Definition digit16 (c : ascii) : option N := HexString.ascii_to_digit c.

Definition is_underscore (c : ascii) : bool := Ascii.eqb c "_".

(** The digit loop of [int]: digits with single underscores between them,
    then optional trailing white space.  [prev_us] tells whether the
    character read just before was an underscore. *)
Fixpoint digits16 (s : string) (prev_us : bool) (acc : N) : option N :=
  match s with
  | EmptyString => if prev_us then None else Some acc
  | String c r =>
      match digit16 c with
      | Some d => digits16 r false (N.add d (N.mul 16 acc))
      | None =>
          if is_underscore c then
            if prev_us then None else digits16 r true acc
          else if prev_us then None
          else if all_space s then Some acc else None
      end
  end.

(** [int(s, 16)]; [None] is [ValueError].  Leading white space, a sign,
    the [0x] or [0X] prefix with one underscore after it, then the digit
    loop, which must start on a digit.  Any other character, a code
    point from 127 to 255 that is not white space among them, makes the
    literal invalid. *)
Definition int16 (s : string) : option Z :=
  let s1 := lstrip s in
  let '(neg, s2) :=
    match s1 with
    | String c r =>
        if Ascii.eqb c "+" then (false, r)
        else if Ascii.eqb c "-" then (true, r)
        else (false, s1)
    | EmptyString => (false, s1)
    end in
  let s3 :=
    match s2 with
    | String c0 (String c1 r) =>
        if andb (Ascii.eqb c0 "0") (orb (Ascii.eqb c1 "x") (Ascii.eqb c1 "X")) then
          match r with
          | String c2 r' => if is_underscore c2 then r' else r
          | EmptyString => r
          end
        else s2
    | _ => s2
    end in
  match s3 with
  | String c _ =>
      match digit16 c with
      | Some _ =>
          match digits16 s3 false 0%N with
          | Some n => Some (if neg then Z.opp (Z.of_N n) else Z.of_N n)
          | None => None
          end
      | None => None
      end
  | EmptyString => None
  end.

(** *** [sorted(keys, key=lambda x: int(x, 16))] *)

(** Stable insertion: [x] goes after every element whose key is not
    greater. *)
Fixpoint insert_by_key (x : Z * string) (l : list (Z * string)) : list (Z * string) :=
  match l with
  | [] => [x]
  | y :: r =>
      if Z.ltb (fst x) (fst y) then x :: l else y :: insert_by_key x r
  end.

Definition sort_by_key (l : list (Z * string)) : list (Z * string) :=
  fold_left (fun acc x => insert_by_key x acc) l [].

(** The key function is applied to every element first; one failure is a
    [ValueError] for the whole call. *)
Fixpoint keyed (ks : list string) : option (list (Z * string)) :=
  match ks with
  | [] => Some []
  | k :: r =>
      match int16 k, keyed r with
      | Some z, Some l => Some ((z, k) :: l)
      | _, _ => None
      end
  end.

Definition sorted_by_int16 (ks : list string) : option (list string) :=
  match keyed ks with
  | Some l => Some (map snd (sort_by_key l))
  | None => None
  end.

(** [l[:-n]] *)
Definition drop_last (A : Type) (n : nat) (l : list A) : list A :=
  firstn (List.length l - n) l.

(* ------------------------------------------------------------------ *)
(** ** The insertion-ordered dictionary *)
(* ------------------------------------------------------------------ *)

Module PyDict.
Section Dict.
Variable V : Type.

Definition t := list (string * V).

Definition empty : t := [].

(** [d.get(k)] *)
Fixpoint get (k : string) (d : t) : option V :=
  match d with
  | [] => None
  | (k', v) :: r => if String.eqb k k' then Some v else get k r
  end.

(** [k in d] *)
Definition mem (k : string) (d : t) : bool :=
  match get k d with Some _ => true | None => false end.

(** [d[k] = v]: an existing key keeps its place. *)
Fixpoint set (k : string) (v : V) (d : t) : t :=
  match d with
  | [] => [(k, v)]
  | (k', v') :: r =>
      if String.eqb k k' then (k, v) :: r else (k', v') :: set k v r
  end.

(** [d.pop(k, None)], the dictionary after the call. *)
Fixpoint pop (k : string) (d : t) : t :=
  match d with
  | [] => []
  | (k', v') :: r =>
      if String.eqb k k' then r else (k', v') :: pop k r
  end.

(** [d.keys()] in insertion order. *)
Definition keys (d : t) : list string := map fst d.

Definition values (d : t) : list V := map snd d.
End Dict.
End PyDict.

(* ------------------------------------------------------------------ *)
(** ** Job tracking *)
(* ------------------------------------------------------------------ *)

(** [class Job].  The [created] time stamp is written once and never
    read; it is left out. *)
Record Job : Type := mkJob {
  job_id : string;
  header_hash : string;
  seed_hash : string;
  boundary : string
}.

(** [class JobManager]; [rpc] is the environment. *)
Record JobManager : Type := mkJobManager {
  jobs : PyDict.t Job;
  current_job : option Job;
  _counter : N;
  _by_header : PyDict.t Job
}.

(** [JobManager.__init__] *)
Definition JobManager_init : JobManager :=
  {| jobs := PyDict.empty Job;
     current_job := None;
     _counter := 0;
     _by_header := PyDict.empty Job |}.

(** One round of the pruning loop: [j = self.jobs.pop(oid, None)] and, when
    a job came out, [self._by_header.pop(j.header_hash.lower(), None)]. *)
Definition evict (st : PyDict.t Job * PyDict.t Job) (oid : string)
  : PyDict.t Job * PyDict.t Job :=
  let '(js, bh) := st in
  match PyDict.get oid js with
  | Some j => (PyDict.pop oid js, PyDict.pop (lower (header_hash j)) bh)
  | None => (js, bh)
  end.

(** Lines 138 to 144 of [poll_work]: the counter is incremented, the job
    is built and stored under its id and under its lowercased header, and
    it becomes the current job. *)
Definition new_job (h sd b : string) (self : JobManager) : Job * JobManager :=
  let c := (_counter self + 1)%N in
  let jid := hex c in
  let job := mkJob jid h sd b in
  (job,
   {| jobs := PyDict.set jid job (jobs self);
      current_job := Some job;
      _counter := c;
      _by_header := PyDict.set (lower h) job (_by_header self) |}).

(** The ids that the pruning loop walks:
    [sorted(self.jobs.keys(), key=lambda x: int(x, 16))[:-20]]. *)
Definition old_ids (self : JobManager) : option (list string) :=
  match sorted_by_int16 (PyDict.keys (jobs self)) with
  | Some ks => Some (drop_last 20 ks)
  | None => None
  end.

(** Lines 147 to 152 of [poll_work]: prune old jobs (keep last 20). *)
Definition prune (self : JobManager) : outcome unit * JobManager :=
  if Nat.ltb 20 (List.length (jobs self)) then
    match old_ids self with
    | Some ids =>
        let '(jobs2, byh2) := fold_left evict ids (jobs self, _by_header self) in
        (Return tt,
         {| jobs := jobs2; current_job := current_job self;
            _counter := _counter self; _by_header := byh2 |})
    | None => (Raise ValueError, self)
    end
  else (Return tt, self).

(** [JobManager.poll_work]; [result] is what [self.rpc.get_work()]
    returned, [None] or the list of strings of the upstream reply.  The
    first pattern is [result] being non-empty with [len(result) >= 3]. *)
Definition poll_work (result : option (list string)) (self : JobManager)
  : outcome (option Job) * JobManager :=
  match result with
  | Some (h :: sd :: b :: _) =>
      if match current_job self with
         | Some c => String.eqb (header_hash c) h
         | None => false
         end
      then (Return None, self)
      else
        let '(job, self1) := new_job h sd b self in
        match prune self1 with
        | (Return _, self2) => (Return (Some job), self2)
        | (Raise e, self2) => (Raise e, self2)
        end
  | _ => (Return None, self)
  end.

(** The poll loop as the job manager sees it: one [poll_work] per upstream
    answer, whatever each call returned or raised. *)
Definition poll_all (results : list (option (list string))) (self : JobManager)
  : JobManager :=
  fold_left (fun s r => snd (poll_work r s)) results self.

(** The states of a job manager that the proxy can be in. *)
Inductive reachable : JobManager -> Prop :=
| reach_init : reachable JobManager_init
| reach_poll : forall s r, reachable s -> reachable (snd (poll_work r s)).

(** [JobManager.find_job(job_id, header_hash)]; an argument left out is
    [VNone]. *)
Definition find_job (jid hh : value) (self : JobManager) : outcome (option Job) :=
  let by_hash :=
    if truthy hh then
      match hh with
      | VStr h => Return (PyDict.get (lower h) (_by_header self))
      | _ => Raise AttributeError
      end
    else Return None in
  if truthy jid then
    match jid with
    | VStr k =>
        match PyDict.get k (jobs self) with
        | Some j => Return (Some j)
        | None => by_hash
        end
    | VList _ | VDict _ => Raise TypeError
    | _ => by_hash
    end
  else by_hash.

(** What [self.rpc.submit_work] does: it returns the node's JSON result or
    raises an exception whose text is [detail]. *)
Inductive rpc_reply : Type :=
| RpcResult (v : value)
| RpcRaise (detail : string).

(** The [0x] normalisation of one argument of [submit_solution];
    [startswith] exists on strings only. *)
Definition with_0x (v : value) : outcome string :=
  match v with
  | VStr s => Return (if startswith s "0x" then s else "0x" ++ s)
  | _ => Raise AttributeError
  end.

(** [JobManager.submit_solution]; [submit_work] is the upstream node as
    seen through [self.rpc.submit_work]. *)
Definition submit_solution (submit_work : string -> string -> string -> rpc_reply)
    (nonce header_hash mix_digest : value) : outcome string :=
  match with_0x nonce with
  | Raise e => Raise e
  | Return nonce =>
      match with_0x header_hash with
      | Raise e => Raise e
      | Return header_hash =>
          match with_0x mix_digest with
          | Raise e => Raise e
          | Return mix_digest =>
              match submit_work nonce header_hash mix_digest with
              | RpcResult ok =>
                  if truthy ok then Return "accepted" else Return "rejected"
              | RpcRaise e => Return ("error: " ++ e)
              end
          end
      end
  end.

(* ------------------------------------------------------------------ *)
(** ** Miner session (one TCP connection) *)
(* ------------------------------------------------------------------ *)

(** The three values the [protocol] attribute takes. *)
Inductive Protocol : Type := unknown | ethproxy | stratum.

(** A JSON object handed to [_send_json]. *)
Inductive Frame : Type :=
| Result (msg_id : value) (result : value)
| Error (msg_id : value) (code : Z) (message : string)
| Notification (method : string) (params : list value).

(** [class MinerSession].  The stream writer is the pair [sent] (the
    frames written so far, oldest first) and [link] (the outcome of the
    coming socket writes, [false] for a broken pipe or reset; a write
    after the end of the list succeeds).  The job manager is passed to the
    handlers ([Env]); [reader] is the list of events of [run_loop]; [peer]
    and [on_disconnect] only serve logging and the registry. *)
Record MinerSession : Type := mkSession {
  authorized : bool;
  worker_name : value;
  protocol : Protocol;
  _closed : bool;
  shares_accepted : nat;
  shares_rejected : nat;
  sent : list Frame;
  link : list bool
}.

(** [MinerSession.__init__] on a connection whose writes will go as
    [wire] says. *)
Definition MinerSession_init (wire : list bool) : MinerSession :=
  {| authorized := false;
     worker_name := VStr "unknown";
     protocol := unknown;
     _closed := false;
     shares_accepted := 0;
     shares_rejected := 0;
     sent := [];
     link := wire |}.

Definition set_protocol (p : Protocol) (s : MinerSession) : MinerSession :=
  mkSession (authorized s) (worker_name s) p (_closed s)
            (shares_accepted s) (shares_rejected s) (sent s) (link s).

Definition set_worker_name (w : value) (s : MinerSession) : MinerSession :=
  mkSession (authorized s) w (protocol s) (_closed s)
            (shares_accepted s) (shares_rejected s) (sent s) (link s).

Definition set_authorized (b : bool) (s : MinerSession) : MinerSession :=
  mkSession b (worker_name s) (protocol s) (_closed s)
            (shares_accepted s) (shares_rejected s) (sent s) (link s).

Definition incr_accepted (s : MinerSession) : MinerSession :=
  mkSession (authorized s) (worker_name s) (protocol s) (_closed s)
            (S (shares_accepted s)) (shares_rejected s) (sent s) (link s).

Definition incr_rejected (s : MinerSession) : MinerSession :=
  mkSession (authorized s) (worker_name s) (protocol s) (_closed s)
            (shares_accepted s) (S (shares_rejected s)) (sent s) (link s).

Definition set_writer (c : bool) (out : list Frame) (l : list bool)
    (s : MinerSession) : MinerSession :=
  mkSession (authorized s) (worker_name s) (protocol s) c
            (shares_accepted s) (shares_rejected s) out l.

(** Session code: it reads and writes the session and may raise. *)
Definition M (A : Type) : Type := MinerSession -> outcome A * MinerSession.

Definition ret (A : Type) (a : A) : M A := fun s => (Return a, s).

Definition bind (A B : Type) (m : M A) (k : A -> M B) : M B :=
  fun s =>
    match m s with
    | (Return a, s') => k a s'
    | (Raise e, s') => (Raise e, s')
    end.

Definition lift (A : Type) (o : outcome A) : M A := fun s => (o, s).

Definition get_session : M MinerSession := fun s => (Return s, s).

Definition modify (f : MinerSession -> MinerSession) : M unit :=
  fun s => (Return tt, f s).

Declare Scope session_scope.
Delimit Scope session_scope with session.
Notation "x <- m ;; k" := (bind m (fun x => k))
  (at level 61, m at next level, right associativity) : session_scope.
Notation "m ;; k" := (bind m (fun _ => k))
  (at level 61, right associativity) : session_scope.
Local Open Scope session_scope.

(** [MinerSession._send_json] *)
Definition _send_json (obj : Frame) : M unit :=
  fun s =>
    if _closed s then (Return tt, s)
    else
      match link s with
      | false :: l => (Return tt, set_writer true (sent s) l s)
      | true :: l => (Return tt, set_writer false (sent s ++ [obj]) l s)
      | [] => (Return tt, set_writer false (sent s ++ [obj]) [] s)
      end.

Definition _send_result (msg_id result : value) : M unit :=
  _send_json (Result msg_id result).

Definition _send_error (msg_id : value) (code : Z) (message : string) : M unit :=
  _send_json (Error msg_id code message).

Definition _send_notification (method : string) (params : list value) : M unit :=
  _send_json (Notification method params).

(** [MinerSession.close] *)
Definition close : M unit :=
  fun s =>
    if _closed s then (Return tt, s)
    else (Return tt, set_writer true (sent s) (link s) s).

(** [(2**256 - 1) / boundary_int if boundary_int > 0 else 1.0] *)
Definition difficulty (boundary_int : Z) : value :=
  if Z.ltb 0 boundary_int
  then VFloat (2 ^ 256 - 1) (Z.to_pos boundary_int)
  else VFloat 1 1.

(** [int(job.boundary, 16) if job.boundary else 1] *)
Definition boundary_int (job : Job) : outcome Z :=
  if String.eqb (boundary job) "" then Return 1%Z
  else match int16 (boundary job) with
       | Some z => Return z
       | None => Raise ValueError
       end.

(** [MinerSession.send_stratum_job] *)
Definition send_stratum_job (job : Job) (clean : bool) : M unit :=
  boundary_int <- lift (boundary_int job) ;;
  _send_notification "mining.set_difficulty" [difficulty boundary_int] ;;
  _send_notification "mining.notify"
    [VStr (job_id job); VStr (seed_hash job); VStr (header_hash job); VBool clean].

(** [MinerSession.send_ethproxy_job] *)
Definition send_ethproxy_job (job : Job) : M unit :=
  _send_notification "mining.notify"
    [VStr (header_hash job); VStr (seed_hash job); VStr (boundary job)].

(** [MinerSession.send_new_work] *)
Definition send_new_work (job : Job) (clean : bool) : M unit :=
  fun s =>
    match protocol s with
    | ethproxy => send_ethproxy_job job s
    | _ => send_stratum_job job clean s
    end.

(** [params[0] if params else "unknown"] *)
Definition first_or_unknown (params : value) : outcome value :=
  if truthy params then py_getitem params 0 else Return (VStr "unknown").

(** What a session sees of the rest of the proxy while it handles one
    message: the job manager as it is then, and the upstream node behind
    [submit_solution]. *)
Record Env : Type := mkEnv {
  job_manager : JobManager;
  submit_work : string -> string -> string -> rpc_reply
}.

Section Handlers.
Variable env : Env.

(** [MinerSession._ethproxy_login] *)
Definition _ethproxy_login (msg_id params : value) : M unit :=
  modify (set_protocol ethproxy) ;;
  w <- lift (first_or_unknown params) ;;
  modify (set_worker_name w) ;;
  modify (set_authorized true) ;;
  _send_result msg_id (VBool true).

(** [MinerSession._ethproxy_getwork] *)
Definition _ethproxy_getwork (msg_id : value) : M unit :=
  match current_job (job_manager env) with
  | Some job =>
      _send_result msg_id
        (VList [VStr (header_hash job); VStr (seed_hash job); VStr (boundary job)])
  | None => _send_error msg_id (-1) "No work available yet"
  end.

(** [MinerSession._ethproxy_submitwork] *)
Definition _ethproxy_submitwork (msg_id params : value) : M unit :=
  n <- lift (py_len params) ;;
  if Nat.ltb n 3 then
    _send_error msg_id (-1) "Need [nonce, headerHash, mixDigest]"
  else
    nonce <- lift (py_getitem params 0) ;;
    header_hash <- lift (py_getitem params 1) ;;
    mix_digest <- lift (py_getitem params 2) ;;
    lift (py_sliceable header_hash) ;;
    result <- lift (submit_solution (submit_work env) nonce header_hash mix_digest) ;;
    if String.eqb result "accepted" then
      modify incr_accepted ;;
      _send_result msg_id (VBool true)
    else
      modify incr_rejected ;;
      _send_error msg_id (-1) ("Rejected: " ++ result).

(** [MinerSession._ethproxy_hashrate]; whatever the guarded
    [submit_hashrate] call does is swallowed. *)
Definition _ethproxy_hashrate (msg_id params : value) : M unit :=
  _ <- lift (py_len params) ;;
  _send_result msg_id (VBool true).

(** [MinerSession._stratum_subscribe] *)
Definition _stratum_subscribe (msg_id params : value) : M unit :=
  modify (set_protocol stratum) ;;
  _ <- lift (first_or_unknown params) ;;
  _send_result msg_id
    (VList [VList [VList [VStr "mining.notify"; VStr "xhash_proxy"]];
            VStr ""; VStr "0"]) ;;
  match current_job (job_manager env) with
  | Some job => send_stratum_job job true
  | None => ret tt
  end.

(** [MinerSession._stratum_authorize] *)
Definition _stratum_authorize (msg_id params : value) : M unit :=
  w <- lift (first_or_unknown params) ;;
  modify (set_worker_name w) ;;
  modify (set_authorized true) ;;
  _send_result msg_id (VBool true) ;;
  match current_job (job_manager env) with
  | Some job => send_stratum_job job true
  | None => ret tt
  end.

(** [job.header_hash if job else None] *)
Definition header_of (job : option Job) : value :=
  match job with
  | Some j => VStr (header_hash j)
  | None => VNone
  end.

(** [MinerSession._stratum_submit] *)
Definition _stratum_submit (msg_id params : value) : M unit :=
  s <- get_session ;;
  if negb (authorized s) then _send_error msg_id 24 "Not authorized"
  else
    n <- lift (py_len params) ;;
    if Nat.ltb n 3 then _send_error msg_id 21 "Not enough parameters"
    else
      _ <- lift (py_getitem params 0) ;;
      job_id <- lift (py_getitem params 1) ;;
      nonce <- lift (py_getitem params 2) ;;
      job <- lift (find_job job_id VNone (job_manager env)) ;;
      hm <- (if Nat.leb 5 n then
               h <- lift (py_getitem params 3) ;;
               m <- lift (py_getitem params 4) ;;
               ret (h, m)
             else if Nat.leb 4 n then
               m <- lift (py_getitem params 3) ;;
               ret (header_of job, m)
             else ret (header_of job, VNone)) ;;
      let '(header_hash, mix_digest) := hm in
      if andb (orb (negb (truthy header_hash)) (negb (truthy mix_digest)))
              (match job with None => true | Some _ => false end)
      then _send_error msg_id 21 "Job not found, can't reconstruct submission"
      else
        result <- lift (submit_solution (submit_work env) nonce header_hash mix_digest) ;;
        if String.eqb result "accepted" then
          modify incr_accepted ;;
          _send_result msg_id (VBool true)
        else if String.eqb result "job-not-found" then
          modify incr_rejected ;;
          _send_error msg_id 21 "Job not found (stale)"
        else
          modify incr_rejected ;;
          _send_error msg_id 20 ("Rejected: " ++ result).

(** [msg.get(key, default)] on the decoded line; only a JSON object has
    [get]. *)
Definition msg_get (msg : value) (key : string) (default : value) : outcome value :=
  match msg with
  | VDict d =>
      match PyDict.get key d with
      | Some v => Return v
      | None => Return default
      end
  | _ => Raise AttributeError
  end.

(** [method == name] *)
Definition is_method (method : value) (name : string) : bool :=
  match method with
  | VStr m => String.eqb m name
  | _ => false
  end.

(** [MinerSession._dispatch] *)
Definition _dispatch (msg : value) : M unit :=
  method <- lift (msg_get msg "method" (VStr "")) ;;
  msg_id <- lift (msg_get msg "id" VNone) ;;
  params <- lift (msg_get msg "params" (VList [])) ;;
  if is_method method "eth_submitLogin" then _ethproxy_login msg_id params
  else if is_method method "eth_getWork" then _ethproxy_getwork msg_id
  else if is_method method "eth_submitWork" then _ethproxy_submitwork msg_id params
  else if is_method method "eth_submitHashrate" then _ethproxy_hashrate msg_id params
  else if is_method method "mining.subscribe" then _stratum_subscribe msg_id params
  else if is_method method "mining.authorize" then _stratum_authorize msg_id params
  else if is_method method "mining.submit" then _stratum_submit msg_id params
  else if is_method method "mining.extranonce.subscribe" then _send_result msg_id (VBool true)
  else _send_result msg_id (VBool true).
End Handlers.

(** What happens to a session between its creation and its end: a line
    arrives on the socket, or the poll loop pushes a new job to it
    ([StratumProxy._broadcast]). *)
Inductive Line : Type :=
| Blank
| BadJson
| Json (msg : value).

Inductive Event : Type :=
| Recv (l : Line) (env : Env)
| Push (job : Job).

(** The body of [_broadcast] for one session: closed sessions are skipped
    and whatever [send_new_work] raises is swallowed. *)
Definition broadcast_to (job : Job) (s : MinerSession) : MinerSession :=
  if _closed s then s else snd (send_new_work job true s).

(** The [while not self._closed] loop of [MinerSession.run], with the
    pushes that arrive while it waits for a line.  The end of the list is
    the end of the stream. *)
Fixpoint run_loop (events : list Event) : M unit :=
  match events with
  | [] => ret tt
  | Push job :: rest => fun s => run_loop rest (broadcast_to job s)
  | Recv l env :: rest =>
      fun s =>
        if _closed s then (Return tt, s)
        else
          match l with
          | Blank | BadJson => run_loop rest s
          | Json msg => (_dispatch env msg ;; run_loop rest) s
          end
  end.

(** [MinerSession.run]: the loop, then [close] whatever happened. *)
Definition run (events : list Event) (s : MinerSession) : MinerSession :=
  snd (close (snd (run_loop events s))).

(* ------------------------------------------------------------------ *)
(** ** Notions used to state the properties *)
(* ------------------------------------------------------------------ *)

(** The id that the [i]-th job issued by a job manager gets. *)
Definition nth_id (i : nat) : string := hex (N.of_nat i).

(** An id with its sort key, as [sorted] pairs them. *)
Definition keyed_id (i : nat) : Z * string := (Z.of_N (N.of_nat i), nth_id i).

(** How a job sits in the [jobs] dictionary. *)
Definition entry (j : Job) : string * Job := (job_id j, j).

(** [tracks created s]: the manager [s] has issued exactly the jobs
    [created], oldest first, numbered from 1, and holds the last 20 of
    them. *)
Definition tracks (created : list Job) (s : JobManager) : Prop :=
  _counter s = N.of_nat (List.length created) /\
  jobs s = map entry (skipn (List.length created - 20) created) /\
  map job_id created = map nth_id (seq 1 (List.length created)) /\
  current_job s = hd_error (rev created).

(** When [poll_work] reports no change: [get_work] returned [None] or
    fewer than three items, or the header it returned is the current
    job's. *)
Definition no_change (r : option (list string)) (s : JobManager) : Prop :=
  match r with
  | None => True
  | Some l =>
      List.length l < 3 \/
      exists c, current_job s = Some c /\ hd_error l = Some (header_hash c)
  end.

(** The header of an upstream answer. *)
Definition header_of_work (l : list string) : string := nth 0 l "".

(** The jobs that a manager issues for the answers [ws] when each one
    brings a new header, the first of them being job number [i]. *)
Fixpoint issue (i : nat) (ws : list (list string)) : list Job :=
  match ws with
  | [] => []
  | l :: r => mkJob (nth_id i) (nth 0 l "") (nth 1 l "") (nth 2 l "") :: issue (S i) r
  end.

(** A boolean test that the strings of a list are pairwise different. *)
Fixpoint distinctb (l : list string) : bool :=
  match l with
  | [] => true
  | x :: r => andb (negb (existsb (String.eqb x) r)) (distinctb r)
  end.

(** [pruned s1 s']: [s'] is [s1], or [s1] without its oldest job, whose
    lowercased header was taken out of the header index. *)
Definition pruned (s1 s' : JobManager) : Prop :=
  s' = s1 \/
  exists j0, jobs s1 = entry j0 :: jobs s'
             /\ _by_header s' = PyDict.pop (lower (header_hash j0)) (_by_header s1).

(** The header index has no duplicate key and every key is the lowercased
    header of a job held in [jobs]. *)
Definition header_index_ok (s : JobManager) : Prop :=
  NoDup (PyDict.keys (_by_header s)) /\
  forall k, In k (PyDict.keys (_by_header s)) ->
            exists j, In j (PyDict.values (jobs s)) /\ lower (header_hash j) = k.

(** Twenty-one upstream answers of which the first and the last carry the
    same header and the nineteen between them carry other ones. *)
Definition repeated_header_polls : list (option (list string)) :=
  Some ["0xaa"; "0x5eed"; "0xffff"]
  :: map (fun i => Some [nth_id i; "0x5eed"; "0xffff"]) (seq 1 19)
  ++ [Some ["0xaa"; "0x5eed"; "0xffff"]].

(** Twenty-five upstream answers with twenty-five different headers. *)
Definition distinct_polls : list (list string) :=
  map (fun i => [("0xh" ++ nth_id i)%string; "0x5eed"; "0xffff"]) (seq 1 25).

(** The method of a decoded line, [VNone] when the line is not a JSON
    object. *)
Definition method_of (msg : value) : value :=
  match msg with
  | VDict d =>
      match PyDict.get "method" d with
      | Some m => m
      | None => VStr ""
      end
  | _ => VNone
  end.

(** A submit request of either dialect. *)
Definition is_submit (msg : value) : bool :=
  orb (is_method (method_of msg) "eth_submitWork")
      (is_method (method_of msg) "mining.submit").

(** The frames that the session wrote while it handled submit requests,
    along the run of [run_loop]. *)
Fixpoint submit_responses (events : list Event) (s : MinerSession) : list Frame :=
  match events with
  | [] => []
  | Push job :: rest => submit_responses rest (broadcast_to job s)
  | Recv l env :: rest =>
      if _closed s then []
      else
        match l with
        | Blank | BadJson => submit_responses rest s
        | Json msg =>
            let '(r, s') := _dispatch env msg s in
            (if is_submit msg then skipn (List.length (sent s)) (sent s') else [])
            ++ match r with
               | Return _ => submit_responses rest s'
               | Raise _ => []
               end
        end
  end.

(** A reply that reports the verdict on a forwarded solution. *)
Definition is_accept (f : Frame) : bool :=
  match f with
  | Result _ (VBool true) => true
  | _ => false
  end.

Definition is_reject (f : Frame) : bool :=
  match f with
  | Error _ _ m => startswith m "Rejected: "
  | _ => false
  end.

(** A reply that turns a submit request down before anything is
    forwarded. *)
Definition is_refusal (f : Frame) : bool :=
  match f with
  | Error _ code m =>
      orb (andb (Z.eqb code 24) (String.eqb m "Not authorized"))
     (orb (andb (Z.eqb code 21) (String.eqb m "Not enough parameters"))
     (orb (andb (Z.eqb code 21)
                (String.eqb m "Job not found, can't reconstruct submission"))
          (andb (Z.eqb code (-1))
                (String.eqb m "Need [nonce, headerHash, mixDigest]"))))
  | _ => false
  end.

(** The reply of the branch of [_stratum_submit] that tests for
    ["job-not-found"]. *)
Definition is_stale_reply (f : Frame) : bool :=
  match f with
  | Error _ _ m => String.eqb m "Job not found (stale)"
  | _ => false
  end.

(** What a message does to the [protocol] attribute. *)
Definition next_protocol (method : value) (p : Protocol) : Protocol :=
  if is_method method "eth_submitLogin" then ethproxy
  else if is_method method "mining.subscribe" then stratum
  else p.

(** A connection on which every coming write succeeds. *)
Definition reliable (s : MinerSession) : Prop :=
  _closed s = false /\ Forall (fun ok => ok = true) (link s).

(** The JSON object of a request. *)
Definition request (msg_id : value) (method : string) (params : value) : value :=
  VDict [("id", msg_id); ("method", VStr method); ("params", params)].

(** The ways a submit handler can end, seen from the session [s] it
    started in: it raised before touching the session, it refused the
    request, or it counted the verdict and replied. *)
Definition submit_shape (msg_id : value) (s : MinerSession)
    (r : outcome unit) (s' : MinerSession) : Prop :=
  (exists e, r = Raise e /\ s' = s) \/
  (exists f, is_refusal f = true /\ (r, s') = _send_json f s) \/
  (r, s') = _send_json (Result msg_id (VBool true)) (incr_accepted s) \/
  (exists code m, startswith m "Rejected: " = true
                  /\ (r, s') = _send_json (Error msg_id code m) (incr_rejected s)).

(** [preserves Q m]: whatever [m] returns or raises, the session it
    leaves is related by [Q] to the one it found. *)
Definition preserves (Q : MinerSession -> MinerSession -> Prop)
    (A : Type) (m : M A) : Prop :=
  forall s, Q s (snd (m s)).

(** The counters stay, the written frames only grow by frames other than
    the stale reply, and a reliable connection stays reliable. *)
Definition quiet (s s' : MinerSession) : Prop :=
  shares_accepted s' = shares_accepted s /\
  shares_rejected s' = shares_rejected s /\
  (reliable s -> reliable s').

(** The frames written grow by frames that are not the stale reply. *)
Definition no_stale (s s' : MinerSession) : Prop :=
  exists fs, sent s' = (sent s ++ fs)%list
             /\ Forall (fun f => is_stale_reply f = false) fs.

Definition same_protocol (s s' : MinerSession) : Prop :=
  protocol s' = protocol s.

(** The [if]/[elif] chain of [_dispatch] on the three fields of a
    request. *)
Definition route (env : Env) (method msg_id params : value) : M unit :=
  if is_method method "eth_submitLogin" then _ethproxy_login msg_id params
  else if is_method method "eth_getWork" then _ethproxy_getwork env msg_id
  else if is_method method "eth_submitWork" then _ethproxy_submitwork env msg_id params
  else if is_method method "eth_submitHashrate" then _ethproxy_hashrate msg_id params
  else if is_method method "mining.subscribe" then _stratum_subscribe env msg_id params
  else if is_method method "mining.authorize" then _stratum_authorize env msg_id params
  else if is_method method "mining.submit" then _stratum_submit env msg_id params
  else if is_method method "mining.extranonce.subscribe" then _send_result msg_id (VBool true)
  else _send_result msg_id (VBool true).

(** A reply to a submit request: a verdict or a refusal. *)
Definition is_submit_reply (f : Frame) : bool :=
  orb (is_accept f) (orb (is_reject f) (is_refusal f)).

(** On a reliable connection the handler wrote replies to the submit
    request and moved each counter by the number of its verdicts. *)
Definition accounted (s s' : MinerSession) : Prop :=
  reliable s ->
  reliable s' /\
  exists fs, sent s' = (sent s ++ fs)%list
             /\ Forall (fun f => is_submit_reply f = true) fs
             /\ shares_accepted s' = shares_accepted s + List.length (filter is_accept fs)
             /\ shares_rejected s' = shares_rejected s + List.length (filter is_reject fs).

(** The events that [run_loop] gets through: it stops short when it finds
    the session closed, and right after a request whose handler raised. *)
Fixpoint handled (events : list Event) (s : MinerSession) : list Event :=
  match events with
  | [] => []
  | Push job :: rest => Push job :: handled rest (broadcast_to job s)
  | Recv l env :: rest =>
      if _closed s then []
      else
        match l with
        | Blank | BadJson => Recv l env :: handled rest s
        | Json msg =>
            Recv l env
            :: match _dispatch env msg s with
               | (Return _, s') => handled rest s'
               | (Raise _, _) => []
               end
        end
  end.

(** The [protocol] attribute after the requests among [events] have been
    handled, starting from [p]. *)
Definition protocol_after (events : list Event) (p : Protocol) : Protocol :=
  fold_left
    (fun p ev =>
       match ev with
       | Recv (Json msg) _ => next_protocol (method_of msg) p
       | _ => p
       end)
    events p.

(* ------------------------------------------------------------------ *)
(** ** Concrete sessions used in examples *)
(* ------------------------------------------------------------------ *)

(** An upstream node that accepts every solution. *)
Definition node_accepts : string -> string -> string -> rpc_reply :=
  fun _ _ _ => RpcResult (VBool true).

(** A job manager after one poll: it holds job [0x1]. *)
Definition one_job_manager : JobManager :=
  snd (poll_work (Some ["0xaa"; "0x5eed"; "0x00ff"]) JobManager_init).

Definition empty_env : Env := mkEnv JobManager_init node_accepts.

Definition one_job_env : Env := mkEnv one_job_manager node_accepts.

Definition authorize_request : value :=
  request (VInt 1) "mining.authorize" (VList [VStr "worker1"; VStr "x"]).

(** A three-parameter [mining.submit] for job [jid]. *)
Definition short_submit (jid : string) : value :=
  request (VInt 2) "mining.submit" (VList [VStr "worker1"; VStr jid; VStr "0xabc"]).

Definition login_request : value :=
  request (VInt 1) "eth_submitLogin" (VList [VStr "worker1"]).

Definition subscribe_request : value :=
  request (VInt 2) "mining.subscribe" (VList [VStr "miner/1.0"]).

(** The [mining.notify] frame of a stratum push. *)
Definition notify_frame (job : Job) (clean : bool) : Frame :=
  Notification "mining.notify"
    [VStr (job_id job); VStr (seed_hash job); VStr (header_hash job); VBool clean].

(** The [mining.set_difficulty] frame carrying [d]. *)
Definition difficulty_frame (d : value) : Frame :=
  Notification "mining.set_difficulty" [d].

(* ------------------------------------------------------------------ *)
(** ** Node RPC client *)
(* ------------------------------------------------------------------ *)

(** The JSON-RPC request that [NodeRPC.call] posts. *)
Record Request : Type := mkRequest {
  req_id : N;
  req_method : string;
  req_params : list value
}.

(** What the HTTP exchange of one call does: [urlopen], [read] or
    [json.loads] raises, or the body decodes to [data]. *)
Inductive http_reply : Type :=
| HttpRaise (detail : string)
| HttpJson (data : value).

(** The exceptions that leave [NodeRPC.call]: the one of the exchange,
    the [AttributeError] of [data.get] on a body that is not an object,
    and the [RuntimeError] raised for an [error] member. *)
Inductive call_exn : Type :=
| TransportError (detail : string)
| BodyNotObject
| RuntimeError (method : string) (error : value).

Inductive call_result : Type :=
| CallReturn (result : value)
| CallRaise (e : call_exn).

(** What a method that decodes the result of a call ends in. *)
Inductive attempt (A : Type) : Type :=
| Done (a : A)
| CallFailed (e : call_exn)
| DecodeFailed (e : exn).

Arguments Done {A} a.
Arguments CallFailed {A} e.
Arguments DecodeFailed {A} e.

Module NodeRPC.

(** [class NodeRPC] *)
Record t : Type := mk {
  url : string;
  _id : N
}.

(** [NodeRPC.__init__] *)
Definition init (u : string) : t := mk u 0.

(** [NodeRPC.call]; [net] is the node behind the URL. *)
Definition call (net : Request -> http_reply) (method : string)
    (params : option (list value)) (self : t) : call_result * t :=
  let id := (_id self + 1)%N in
  let self1 := mk (url self) id in
  match net (mkRequest id method (match params with Some l => l | None => [] end)) with
  | HttpRaise detail => (CallRaise (TransportError detail), self1)
  | HttpJson (VDict data) =>
      match PyDict.get "error" data with
      | Some e =>
          if truthy e then (CallRaise (RuntimeError method e), self1)
          else
            match PyDict.get "result" data with
            | Some r => (CallReturn r, self1)
            | None => (CallReturn VNone, self1)
            end
      | None =>
          match PyDict.get "result" data with
          | Some r => (CallReturn r, self1)
          | None => (CallReturn VNone, self1)
          end
      end
  | HttpJson _ => (CallRaise BodyNotObject, self1)
  end.

(** [NodeRPC.get_work]: the result, [None] on any failure. *)
Definition get_work (net : Request -> http_reply) (self : t) : value * t :=
  match call net "eth_getWork" None self with
  | (CallReturn r, self1) => (r, self1)
  | (CallRaise _, self1) => (VNone, self1)
  end.

(** [NodeRPC.submit_work] *)
Definition submit_work (net : Request -> http_reply)
    (nonce header_hash mix_digest : string) (self : t) : call_result * t :=
  call net "eth_submitWork"
       (Some [VStr nonce; VStr header_hash; VStr mix_digest]) self.

(** [NodeRPC.submit_hashrate] *)
Definition submit_hashrate (net : Request -> http_reply)
    (rate_hex client_id : value) (self : t) : call_result * t :=
  call net "eth_submitHashrate" (Some [rate_hex; client_id]) self.

(** [NodeRPC.block_number]:
    [int(result, 16) if isinstance(result, str) else int(result)];
    [int] of a float truncates towards zero. *)
Definition block_number (net : Request -> http_reply) (self : t) : attempt Z * t :=
  match call net "eth_blockNumber" None self with
  | (CallRaise e, self1) => (CallFailed e, self1)
  | (CallReturn r, self1) =>
      (match r with
       | VStr s =>
           match int16 s with
           | Some z => Done z
           | None => DecodeFailed ValueError
           end
       | VInt z => Done z
       | VBool b => Done (if b then 1 else 0)%Z
       | VFloat n d => Done (Z.quot n (Zpos d))
       | VNone | VList _ | VDict _ => DecodeFailed TypeError
       end, self1)
  end.

(** [NodeRPC.mining_active] *)
Definition mining_active (net : Request -> http_reply) (self : t) : call_result * t :=
  call net "eth_mining" None self.

End NodeRPC.

(** The connectivity check of [main] (lines 517 to 529): the exit code
    when it gives up, [None] when the proxy goes on to start. *)
Definition startup (net : Request -> http_reply) (rpc : NodeRPC.t)
  : option nat * NodeRPC.t :=
  match NodeRPC.block_number net rpc with
  | (Done _, rpc1) =>
      match NodeRPC.mining_active net rpc1 with
      | (CallReturn _, rpc2) =>
          let '(_, rpc3) := NodeRPC.get_work net rpc2 in (None, rpc3)
      | (CallRaise _, rpc2) => (Some 1, rpc2)
      end
  | (_, rpc1) => (Some 1, rpc1)
  end.

(** The node as [JobManager.submit_solution] sees it through
    [self.rpc.submit_work]; [str_exn] is Python's [str(e)]. *)
Definition node_via (str_exn : call_exn -> string) (net : Request -> http_reply)
    (rpc : NodeRPC.t) : string -> string -> string -> rpc_reply :=
  fun nonce header_hash mix_digest =>
    match fst (NodeRPC.submit_work net nonce header_hash mix_digest rpc) with
    | CallReturn r => RpcResult r
    | CallRaise e => RpcRaise (str_exn e)
    end.

(* ------------------------------------------------------------------ *)
(** ** Stratum server *)
(* ------------------------------------------------------------------ *)

(** The session registry [StratumProxy.sessions]: the sessions in the
    order they connected, each with the identity of its object and its
    state as the poll loop finds it. *)
Definition Registry : Type := list (nat * MinerSession).

(** [StratumProxy._on_connect], up to [session.run()]: the new session is
    appended. *)
Definition _on_connect (h : nat) (wire : list bool) (registry : Registry) : Registry :=
  (registry ++ [(h, MinerSession_init wire)])%list.

(** [self.sessions.remove(session)]: the first entry of that identity
    goes. *)
Fixpoint remove_session (h : nat) (registry : Registry) : Registry :=
  match registry with
  | [] => []
  | (h', s) :: rest =>
      if Nat.eqb h h' then rest else (h', s) :: remove_session h rest
  end.

(** [StratumProxy._on_disconnect] *)
Definition _on_disconnect (h : nat) (registry : Registry) : Registry :=
  if existsb (fun e => Nat.eqb h (fst e)) registry
  then remove_session h registry
  else registry.

(** [StratumProxy._broadcast] *)
Definition _broadcast (job : Job) (registry : Registry) : Registry :=
  map (fun e => (fst e, broadcast_to job (snd e))) registry.

(** [consecutive_errors <= 3 or consecutive_errors % 30 == 0] *)
Definition logs_poll_error (consecutive_errors : nat) : bool :=
  orb (Nat.leb consecutive_errors 3) (Nat.eqb (consecutive_errors mod 30) 0).

(** What the poll loop owns. *)
Record PollState : Type := mkPollState {
  manager : JobManager;
  sessions : Registry;
  consecutive_errors : nat
}.

(** One turn of the [while True] of [StratumProxy._poll_loop] on the
    answer [result] of [get_work]; the boolean tells whether the turn
    logged a poll error. *)
Definition poll_turn (result : option (list string)) (st : PollState)
  : PollState * bool :=
  match poll_work result (manager st) with
  | (Return (Some job), jm) =>
      (mkPollState jm (_broadcast job (sessions st)) 0, false)
  | (Return None, jm) => (mkPollState jm (sessions st) 0, false)
  | (Raise _, jm) =>
      (mkPollState jm (sessions st) (S (consecutive_errors st)),
       logs_poll_error (S (consecutive_errors st)))
  end.

(** The poll loop over the answers [results]. *)
Definition poll_turns (results : list (option (list string))) (st : PollState)
  : PollState :=
  fold_left (fun st r => fst (poll_turn r st)) results st.

(* ------------------------------------------------------------------ *)
(** ** Further notions used to state properties *)
(* ------------------------------------------------------------------ *)

(** The jobs that the polls of [results] return, oldest first. *)
Fixpoint issued (results : list (option (list string))) (s : JobManager) : list Job :=
  match results with
  | [] => []
  | r :: rest =>
      match poll_work r s with
      | (Return (Some j), s') => j :: issued rest s'
      | (_, s') => issued rest s'
      end
  end.

(** What [submit_solution] makes of a string argument. *)
Definition add_0x (s : string) : string :=
  if startswith s "0x" then s else ("0x" ++ s)%string.

(** The string that [submit_solution] returns for an answer of the
    node. *)
Definition verdict (v : rpc_reply) : string :=
  match v with
  | RpcResult ok => if truthy ok then "accepted" else "rejected"
  | RpcRaise e => ("error: " ++ e)%string
  end.

(** [settled id code result s s']: from [s] to [s'] the share was counted
    and answered as the submit handlers do for [result], with error code
    [code] for a rejection. *)
Definition settled (msg_id : value) (code : Z) (result : string)
    (s s' : MinerSession) : Prop :=
  if String.eqb result "accepted" then
    sent s' = (sent s ++ [Result msg_id (VBool true)])%list /\
    shares_accepted s' = S (shares_accepted s) /\
    shares_rejected s' = shares_rejected s
  else
    sent s' = (sent s ++ [Error msg_id code ("Rejected: " ++ result)])%list /\
    shares_accepted s' = shares_accepted s /\
    shares_rejected s' = S (shares_rejected s).

(** A member of a JSON object, or a default. *)
Definition field (d : list (string * value)) (key : string) (default : value) : value :=
  match PyDict.get key d with
  | Some v => v
  | None => default
  end.

(** The [id] of a decoded line. *)
Definition id_of (msg : value) : value :=
  match msg with
  | VDict d => field d "id" VNone
  | _ => VNone
  end.

Definition is_notification (f : Frame) : bool :=
  match f with
  | Notification _ _ => true
  | _ => false
  end.

(** A response (result or error) that carries [msg_id]. *)
Definition is_reply_to (msg_id : value) (f : Frame) : Prop :=
  match f with
  | Result i _ => i = msg_id
  | Error i _ _ => i = msg_id
  | Notification _ _ => False
  end.

(** The session after a write of [f] that succeeded. *)
Definition pushed (f : Frame) (s : MinerSession) : MinerSession :=
  set_writer false (sent s ++ [f])%list (tl (link s)) s.

(** A closed session stays closed and nothing more is written to it. *)
Definition stays_closed (s s' : MinerSession) : Prop :=
  _closed s = true -> _closed s' = true /\ sent s' = sent s.

(** An authorized session stays authorized. *)
Definition stays_authorized (s s' : MinerSession) : Prop :=
  authorized s = true -> authorized s' = true.

Definition same_authorized (s s' : MinerSession) : Prop :=
  authorized s' = authorized s.

(** The frames of the two pushes. *)
Definition ethproxy_frame (job : Job) : Frame :=
  Notification "mining.notify"
    [VStr (header_hash job); VStr (seed_hash job); VStr (boundary job)].

(** The reply to [mining.subscribe]. *)
Definition subscription : value :=
  VList [VList [VList [VStr "mining.notify"; VStr "xhash_proxy"]]; VStr ""; VStr "0"].

(** Every entry of the header index is filed under the lowercased header
    of its job, and that job is held in [jobs]. *)
Definition index_sound (s : JobManager) : Prop :=
  forall k j, PyDict.get k (_by_header s) = Some j ->
              lower (header_hash j) = k /\ In (entry j) (jobs s).

(** A node that is only ever asked with [0x]-prefixed arguments: it
    answers as [up] on those and raises on anything else. *)
Definition only_prefixed (up : string -> string -> string -> rpc_reply)
  : string -> string -> string -> rpc_reply :=
  fun n h m =>
    if andb (startswith n "0x") (andb (startswith h "0x") (startswith m "0x"))
    then up n h m
    else RpcRaise "unprefixed argument".

(** [answered id s r s']: on the way from [s] to [s'] the connection
    stayed reliable and the frames written are a response carrying [id]
    followed by notifications only; nothing was written only when the
    handler raised. *)
Definition answered (msg_id : value) (s : MinerSession) (r : outcome unit)
    (s' : MinerSession) : Prop :=
  reliable s' /\
  exists fs, sent s' = (sent s ++ fs)%list /\
    match fs with
    | [] => exists e, r = Raise e
    | reply :: notes =>
        is_reply_to msg_id reply
        /\ Forall (fun f => is_notification f = true) notes
    end.

(** The frames of a stratum push of [job] with [clean = True]; none when
    the boundary does not parse. *)
Definition stratum_frames (job : Job) : list Frame :=
  match boundary_int job with
  | Return b => [difficulty_frame (difficulty b); notify_frame job true]
  | Raise _ => []
  end.

(** The stratum push of the current job that follows the reply to
    [mining.subscribe] and [mining.authorize]. *)
Definition current_work_frames (jm : JobManager) : list Frame :=
  match current_job jm with
  | Some job => stratum_frames job
  | None => []
  end.

(** Whether the boundary of the current job, when there is one, is made of
    ASCII characters, as the hexadecimal literal of a node is. *)
Definition current_boundary_isascii (jm : JobManager) : bool :=
  match current_job jm with
  | Some job => isascii (boundary job)
  | None => true
  end.

(** A [params] member that has no length: [null], a boolean or a
    number. *)
Definition unsized (params : value) : bool :=
  match params with
  | VNone | VBool _ | VInt _ | VFloat _ _ => true
  | _ => false
  end.

(** A decoded line that is a JSON object. *)
Definition is_object (msg : value) : bool :=
  match msg with
  | VDict _ => true
  | _ => false
  end.

(** What [submit_solution] returns for the exchange [reply] of an
    [eth_submitWork] call. *)
Definition result_of_exchange (str_exn : call_exn -> string) (reply : http_reply)
  : string :=
  match reply with
  | HttpRaise detail => ("error: " ++ str_exn (TransportError detail))%string
  | HttpJson (VDict data) =>
      if truthy (field data "error" VNone) then
        ("error: " ++ str_exn (RuntimeError "eth_submitWork" (field data "error" VNone)))%string
      else if truthy (field data "result" VNone) then "accepted"
      else "rejected"
  | HttpJson _ => ("error: " ++ str_exn BodyNotObject)%string
  end.

(** A node that answers every call with [body]. *)
Definition node_replies (body : value) : Request -> http_reply :=
  fun _ => HttpJson body.

(** A node on which only [eth_getWork] fails. *)
Definition node_without_work : Request -> http_reply :=
  fun req =>
    if String.eqb (req_method req) "eth_getWork" then HttpRaise "timed out"
    else if String.eqb (req_method req) "eth_blockNumber"
         then HttpJson (VDict [("result", VStr "0x1b4")])
         else HttpJson (VDict [("result", VBool true)]).

(* ------------------------------------------------------------------ *)
(** ** Facts about the builtins *)
(* ------------------------------------------------------------------ *)

Local Open Scope list_scope.

Example int16_plain : int16 "ff" = Some 255%Z.
Proof. reflexivity. Qed.

Example int16_prefixed : int16 " -0X_1f_0 " = Some (-496)%Z.
Proof. reflexivity. Qed.

Example int16_bad : int16 "0x" = None /\ int16 "zz" = None /\ int16 "1__0" = None.
Proof. repeat split. Qed.

(** A no-break space (U+00A0) or a next-line character (U+0085) around
    the digits is skipped like a blank; another character beyond ASCII
    is refused. *)
Example int16_blank :
  int16 (String (ascii_of_nat 160) "ff") = Some 255%Z
  /\ int16 ("0x1f" ++ String (ascii_of_nat 133) "")%string = Some 31%Z
  /\ int16 (String (ascii_of_nat 233) "ff") = None.
Proof. repeat split. Qed.

Example hex_26 : hex 26 = "0x1a".
Proof. reflexivity. Qed.

Lemma hex_inj (a b : N) : hex a = hex b -> a = b.
Proof.
  unfold hex; intros E.
  rewrite <- (HexString.to_N_of_N a), <- (HexString.to_N_of_N b).
  now rewrite E.
Qed.

(** The digit loop reads back what [hex] wrote. *)
Lemma digits16_of_pos :
  forall (p : positive) (rest : string) (b : bool) (acc : N),
    digits16 (HexString.Raw.of_pos p rest) b acc
    = digits16 rest false
        match acc with
        | N0 => N.pos p
        | Npos v => Npos (HexString.pos_hex_app v p)
        end.
Proof.
  fix IH 1. intros p rest b acc.
  do 4 try destruct p as [p|p|]; destruct acc; try reflexivity;
    cbn; rewrite IH; reflexivity.
Qed.

Lemma of_pos_head :
  forall (p : positive) (rest : string),
  exists c r, HexString.Raw.of_pos p rest = String c r
              /\ digit16 c <> None /\ is_underscore c = false.
Proof.
  fix IH 1. intros p rest.
  do 4 try destruct p as [p|p|]; cbn;
    try (apply IH);
    do 2 eexists; (split; [reflexivity|split; [discriminate|reflexivity]]).
Qed.

Lemma int16_0x (c : ascii) (r : string) :
  is_underscore c = false -> digit16 c <> None ->
  int16 (String "0" (String "x" (String c r)))
  = match digits16 (String c r) false 0%N with
    | Some n => Some (Z.of_N n)
    | None => None
    end.
Proof.
  intros Hu Hd. unfold int16.
  change (lstrip (String "0" (String "x" (String c r))))
    with (String "0" (String "x" (String c r))).
  cbv beta iota zeta.
  change (Ascii.eqb "0" "+") with false.
  change (Ascii.eqb "0" "-") with false.
  cbv beta iota zeta.
  change (andb (Ascii.eqb "0" "0") (orb (Ascii.eqb "x" "x") (Ascii.eqb "x" "X")))
    with true.
  cbv beta iota. rewrite Hu.
  destruct (digit16 c) eqn:E; [reflexivity|congruence].
Qed.

Lemma int16_hex (n : N) : int16 (hex n) = Some (Z.of_N n).
Proof.
  destruct n as [|p]; [reflexivity|].
  unfold hex, HexString.of_N, HexString.of_pos.
  destruct (of_pos_head p "") as (c & r & E & Hd & Hu).
  rewrite E, int16_0x by assumption.
  rewrite <- E, digits16_of_pos. reflexivity.
Qed.

(** *** Sorting keys that are already in increasing order *)

Lemma keyed_ids (n a : nat) :
  keyed (map nth_id (seq a n)) = Some (map keyed_id (seq a n)).
Proof.
  revert a; induction n as [|n IH]; intros a; [reflexivity|].
  cbn [seq map keyed]. unfold nth_id at 1. rewrite int16_hex, IH. reflexivity.
Qed.

Lemma insert_by_key_last (x : Z * string) (l : list (Z * string)) :
  Forall (fun y => (fst y <= fst x)%Z) l -> insert_by_key x l = l ++ [x].
Proof.
  induction 1 as [|y l Hy _ IH]; [reflexivity|].
  cbn [insert_by_key app].
  destruct (Z.ltb_spec (fst x) (fst y)); [lia|now rewrite IH].
Qed.

Lemma sort_ids_from (n a : nat) (acc : list (Z * string)) :
  Forall (fun y => (fst y < Z.of_nat a)%Z) acc ->
  fold_left (fun acc x => insert_by_key x acc) (map keyed_id (seq a n)) acc
  = acc ++ map keyed_id (seq a n).
Proof.
  revert a acc; induction n as [|n IH]; intros a acc Hacc.
  - now rewrite app_nil_r.
  - cbn [seq map fold_left].
    rewrite insert_by_key_last.
    + rewrite IH.
      * now rewrite <- app_assoc.
      * apply Forall_app; split.
        -- eapply Forall_impl; [|exact Hacc]. cbv beta; intros; lia.
        -- repeat constructor. unfold keyed_id; cbn [fst]. lia.
    + eapply Forall_impl; [|exact Hacc].
      unfold keyed_id; cbn [fst]; intros; lia.
Qed.

Lemma sorted_ids (n a : nat) :
  sorted_by_int16 (map nth_id (seq a n)) = Some (map nth_id (seq a n)).
Proof.
  unfold sorted_by_int16, sort_by_key.
  rewrite keyed_ids, sort_ids_from by constructor.
  cbn [app]. rewrite map_map. reflexivity.
Qed.

Lemma nth_id_inj (i j : nat) : nth_id i = nth_id j -> i = j.
Proof. intros E. apply hex_inj in E. lia. Qed.

Lemma nth_id_not_in (i a n : nat) :
  a + n <= i -> ~ In (nth_id i) (map nth_id (seq a n)).
Proof.
  intros H Hin. apply in_map_iff in Hin as (j & E & Hj).
  apply nth_id_inj in E. apply in_seq in Hj. lia.
Qed.

(** *** The dictionary *)

Lemma get_none_iff (V : Type) (k : string) (d : PyDict.t V) :
  PyDict.get k d = None <-> ~ In k (PyDict.keys d).
Proof.
  induction d as [|[k' v] d IH]; cbn; [tauto|].
  destruct (String.eqb_spec k k') as [->|N]; [intuition congruence|].
  rewrite IH. intuition congruence.
Qed.

Lemma get_in (V : Type) (k : string) (v : V) (d : PyDict.t V) :
  PyDict.get k d = Some v -> In (k, v) d.
Proof.
  induction d as [|[k' v'] d IH]; cbn; [discriminate|].
  destruct (String.eqb_spec k k') as [->|N]; [intros [= ->]; now left|auto].
Qed.

Lemma set_fresh (V : Type) (k : string) (v : V) (d : PyDict.t V) :
  PyDict.get k d = None -> PyDict.set k v d = d ++ [(k, v)].
Proof.
  induction d as [|[k' v'] d IH]; cbn; [reflexivity|].
  destruct (String.eqb k k'); [discriminate|]. intros H; now rewrite IH.
Qed.

Lemma get_set_same (V : Type) (k : string) (v : V) (d : PyDict.t V) :
  PyDict.get k (PyDict.set k v d) = Some v.
Proof.
  induction d as [|[k' v'] d IH]; cbn.
  - now rewrite String.eqb_refl.
  - destruct (String.eqb k k') eqn:E; cbn; [now rewrite String.eqb_refl|].
    now rewrite E.
Qed.

Lemma get_set_other (V : Type) (k k' : string) (v : V) (d : PyDict.t V) :
  k <> k' -> PyDict.get k (PyDict.set k' v d) = PyDict.get k d.
Proof.
  intros N. induction d as [|[k0 v0] d IH]; cbn.
  - destruct (String.eqb_spec k k'); [contradiction|reflexivity].
  - destruct (String.eqb_spec k' k0) as [->|N0]; cbn.
    + destruct (String.eqb_spec k k0); [contradiction|reflexivity].
    + destruct (String.eqb k k0); [reflexivity|exact IH].
Qed.

Lemma get_app_last (V : Type) (k : string) (v : V) (d : PyDict.t V) :
  PyDict.get k d = None -> PyDict.get k (d ++ [(k, v)]) = Some v.
Proof.
  intros H. rewrite <- set_fresh by assumption. apply get_set_same.
Qed.

Lemma length_pop_le (V : Type) (k : string) (d : PyDict.t V) :
  List.length (PyDict.pop k d) <= List.length d.
Proof.
  induction d as [|[k' v'] d IH]; cbn; [lia|].
  destruct (String.eqb k k'); cbn; lia.
Qed.

(* ------------------------------------------------------------------ *)
(** ** The job manager keeps the last 20 jobs it issued *)
(* ------------------------------------------------------------------ *)

Lemma tracks_init : tracks [] JobManager_init.
Proof. repeat split. Qed.

Lemma tracks_keys (created : list Job) (s : JobManager) :
  tracks created s ->
  let n := List.length created in
  PyDict.keys (jobs s) = map nth_id (seq (S (n - 20)) (n - (n - 20))).
Proof.
  intros (_ & Hj & Hid & _) n. unfold PyDict.keys. rewrite Hj, map_map.
  change (fun x => fst (entry x)) with job_id.
  rewrite <- skipn_map, Hid, skipn_map, skipn_seq. reflexivity.
Qed.

Lemma tracks_length (created : list Job) (s : JobManager) :
  tracks created s -> List.length (jobs s) = Nat.min (List.length created) 20.
Proof.
  intros (_ & Hj & _). rewrite Hj, length_map, length_skipn. lia.
Qed.

Lemma tracks_fresh_id (created : list Job) (s : JobManager) :
  tracks created s ->
  hex (_counter s + 1) = nth_id (S (List.length created))
  /\ PyDict.get (nth_id (S (List.length created))) (jobs s) = None.
Proof.
  intros T. split.
  - destruct T as (Hc & _). unfold nth_id. rewrite Hc. f_equal. lia.
  - apply get_none_iff. rewrite (tracks_keys T). apply nth_id_not_in. lia.
Qed.

(** Pruning a manager that holds 21 consecutively numbered jobs removes
    the oldest one from [jobs]. *)
Lemma prune_oldest (j0 : Job) (rest : PyDict.t Job) (a : nat)
    (cur : option Job) (c : N) (bh : PyDict.t Job) :
  PyDict.keys (entry j0 :: rest) = map nth_id (seq a 21) ->
  prune (mkJobManager (entry j0 :: rest) cur c bh)
  = (Return tt, mkJobManager rest cur c (PyDict.pop (lower (header_hash j0)) bh)).
Proof.
  intros Hk. unfold prune, old_ids. cbn [jobs _by_header current_job _counter].
  assert (Hlen : List.length (entry j0 :: rest) = 21).
  { rewrite <- (length_map fst). fold (PyDict.keys (entry j0 :: rest)).
    rewrite Hk, length_map, length_seq. reflexivity. }
  rewrite Hlen. cbn [Nat.ltb Nat.leb].
  rewrite Hk, sorted_ids. unfold drop_last.
  rewrite length_map, length_seq.
  change (21 - 20) with 1.
  cbn [seq map firstn fold_left evict].
  cbn [PyDict.keys map entry fst] in Hk. injection Hk as Hk _.
  rewrite <- Hk. unfold entry at 1 2. cbn [PyDict.get PyDict.pop].
  rewrite String.eqb_refl. reflexivity.
Qed.

Lemma prune_small (s : JobManager) :
  List.length (jobs s) <= 20 -> prune s = (Return tt, s).
Proof.
  intros H. unfold prune.
  destruct (Nat.ltb_spec 20 (List.length (jobs s))); [lia|reflexivity].
Qed.

(** A poll that sees a new header issues the next job, and the manager
    tracks the longer history. *)
Lemma new_job_prune_tracks (created : list Job) (s : JobManager) (h sd b : string) :
  tracks created s ->
  let job := mkJob (nth_id (S (List.length created))) h sd b in
  fst (new_job h sd b s) = job /\
  exists s', prune (snd (new_job h sd b s)) = (Return tt, s')
             /\ tracks (created ++ [job]) s'
             /\ pruned (snd (new_job h sd b s)) s'.
Proof.
  intros T job.
  destruct (tracks_fresh_id T) as (Hhex & Hfresh).
  pose proof (tracks_keys T) as Hkeys. cbv zeta in Hkeys.
  pose proof (tracks_length T) as Hlen.
  destruct T as (Hc & Hj & Hid & Hcur).
  unfold new_job. rewrite Hhex. fold job. cbn [fst snd]. split; [reflexivity|].
  rewrite set_fresh by assumption.
  assert (Hid' : map job_id (created ++ [job])
                 = map nth_id (seq 1 (List.length (created ++ [job])))).
  { rewrite length_app, Nat.add_comm. cbn [List.length Nat.add].
    rewrite seq_S, !map_app, Hid. reflexivity. }
  assert (Hcur' : Some job = hd_error (rev (created ++ [job]))).
  { now rewrite rev_app_distr. }
  assert (Hc' : (_counter s + 1)%N = N.of_nat (List.length (created ++ [job]))).
  { rewrite length_app, Hc. cbn [List.length]. lia. }
  destruct (Nat.lt_ge_cases (List.length created) 20) as [Hlt|Hge].
  - eexists; split.
    + apply prune_small. cbn [jobs]. rewrite length_app, Hlen. cbn [List.length]. lia.
    + split; [|now left].
      repeat split; cbn [_counter jobs current_job]; try assumption.
      rewrite Hj, length_app. cbn [List.length].
      replace (List.length created - 20) with 0 by lia.
      replace (List.length created + 1 - 20) with 0 by lia.
      cbn [skipn]. rewrite map_app. reflexivity.
  - set (k := List.length created - 20) in *.
    destruct (skipn k created) as [|j0 W] eqn:EW.
    { apply (f_equal (@List.length _)) in EW. rewrite length_skipn in EW.
      cbn in EW. lia. }
    assert (HW : skipn (S k) created = W).
    { replace (S k) with (1 + k) by lia. now rewrite <- skipn_skipn, EW. }
    rewrite Hj. cbn [map app].
    eexists; split.
    + apply prune_oldest with (a := S k).
      unfold PyDict.keys in *. rewrite Hj in Hkeys.
      transitivity (map fst (map entry (j0 :: W)) ++ [nth_id (S (List.length created))]).
      { cbn [map app]. rewrite map_app. reflexivity. }
      rewrite Hkeys.
      replace 21 with (S (List.length created - k)) by lia.
      rewrite seq_S, map_app. cbn [map]. do 3 f_equal. lia.
    + split; [|right; exists j0; split; reflexivity].
      repeat split; cbn [_counter jobs current_job]; try assumption.
      rewrite length_app. cbn [List.length].
      replace (List.length created + 1 - 20) with (S k) by lia.
      rewrite skipn_app, HW, map_app.
      replace (S k - List.length created) with 0 by lia. reflexivity.
Qed.

Lemma poll_work_new (created : list Job) (s : JobManager) (h sd b : string)
    (rest : list string) :
  tracks created s ->
  (forall c, current_job s = Some c -> header_hash c <> h) ->
  let job := mkJob (nth_id (S (List.length created))) h sd b in
  exists s', poll_work (Some (h :: sd :: b :: rest)) s = (Return (Some job), s')
             /\ prune (snd (new_job h sd b s)) = (Return tt, s')
             /\ tracks (created ++ [job]) s'
             /\ pruned (snd (new_job h sd b s)) s'.
Proof.
  intros T Hdiff job.
  destruct (new_job_prune_tracks h sd b T) as (Hjob & s' & Hprune & T' & P).
  fold job in Hjob, T'.
  exists s'. split; [|split; [assumption|split; assumption]].
  unfold poll_work.
  destruct (current_job s) as [c|] eqn:Ec.
  - destruct (String.eqb_spec (header_hash c) h) as [E|_].
    + now destruct (Hdiff c eq_refl).
    + destruct (new_job h sd b s) as [j s1]. cbn [fst snd] in *. subst j.
      now rewrite Hprune.
  - destruct (new_job h sd b s) as [j s1]. cbn [fst snd] in *. subst j.
    now rewrite Hprune.
Qed.

Lemma poll_work_no_change (r : option (list string)) (s : JobManager) :
  no_change r s -> poll_work r s = (Return None, s).
Proof.
  destruct r as [[|h [|sd [|b rest]]]|]; try reflexivity.
  cbn [no_change List.length hd_error].
  intros [H|(c & Ec & [= E])]; [lia|].
  unfold poll_work. rewrite Ec, E, String.eqb_refl. reflexivity.
Qed.

Lemma no_change_dec (r : option (list string)) (s : JobManager) :
  no_change r s \/
  exists h sd b rest, r = Some (h :: sd :: b :: rest)
                      /\ forall c, current_job s = Some c -> header_hash c <> h.
Proof.
  destruct r as [[|h [|sd [|b rest]]]|]; cbn; try (left; auto; left; lia).
  destruct (current_job s) as [c|] eqn:Ec.
  - destruct (String.eqb_spec (header_hash c) h) as [E|N].
    + left; right. exists c. now rewrite E.
    + right. exists h, sd, b, rest. split; [reflexivity|]. now intros c' [= <-].
  - right. exists h, sd, b, rest. split; [reflexivity|]. discriminate.
Qed.

Lemma poll_work_tracks (created : list Job) (s : JobManager) (r : option (list string)) :
  tracks created s ->
  exists more, tracks (created ++ more) (snd (poll_work r s)).
Proof.
  intros T. destruct (no_change_dec r s) as [H|(h & sd & b & rest & -> & Hd)].
  - exists []. now rewrite app_nil_r, poll_work_no_change.
  - destruct (poll_work_new sd b rest T Hd) as (s' & E & _ & T' & _).
    rewrite E. eexists; exact T'.
Qed.

Lemma poll_all_tracks (rs : list (option (list string))) :
  forall (created : list Job) (s : JobManager),
  tracks created s ->
  exists more, tracks (created ++ more) (poll_all rs s).
Proof.
  induction rs as [|r rs IH]; intros created s T.
  - exists []. now rewrite app_nil_r.
  - destruct (poll_work_tracks r T) as (m1 & T1).
    destruct (IH _ _ T1) as (m2 & T2).
    exists (m1 ++ m2). now rewrite app_assoc.
Qed.

Lemma reachable_tracks (s : JobManager) :
  reachable s -> exists created, tracks created s.
Proof.
  induction 1 as [|s r _ (created & T)].
  - exists []. exact tracks_init.
  - destruct (poll_work_tracks r T) as (more & T'). eauto.
Qed.

Lemma reachable_poll_all (rs : list (option (list string))) (s : JobManager) :
  reachable s -> reachable (poll_all rs s).
Proof.
  revert s; induction rs as [|r rs IH]; intros s R; [exact R|].
  apply IH. now constructor.
Qed.

Lemma tracks_get_absent (created : list Job) (s : JobManager) (i : nat) :
  tracks created s -> i <= List.length created - 20 ->
  PyDict.get (nth_id i) (jobs s) = None.
Proof.
  intros T Hi. apply get_none_iff. rewrite (tracks_keys T).
  intros Hin. apply in_map_iff in Hin as (j & E & Hj).
  apply nth_id_inj in E. apply in_seq in Hj. lia.
Qed.

Lemma distinctb_NoDup (l : list string) : distinctb l = true -> NoDup l.
Proof.
  induction l as [|x l IH]; cbn; [constructor|].
  intros H. apply andb_prop in H as (H1 & H2). constructor; [|auto].
  intros Hin. apply negb_true_iff in H1.
  assert (existsb (String.eqb x) l = true); [|congruence].
  apply existsb_exists. exists x. now rewrite String.eqb_refl.
Qed.

(** Answers with pairwise different headers each issue a job. *)
Lemma poll_all_issue (ws : list (list string)) :
  forall (created : list Job) (s : JobManager),
  tracks created s ->
  Forall (fun l => 3 <= List.length l) ws ->
  NoDup (map header_of_work ws) ->
  (forall c, current_job s = Some c -> ~ In (header_hash c) (map header_of_work ws)) ->
  tracks (created ++ issue (S (List.length created)) ws) (poll_all (map Some ws) s).
Proof.
  induction ws as [|l ws IH]; intros created s T Hlen Hnd Hcur.
  - cbn. now rewrite app_nil_r.
  - inversion Hlen as [|? ? Hl Hlen']; subst.
    inversion Hnd as [|? ? Hnotin Hnd']; subst.
    destruct l as [|h [|sd [|b rest]]]; cbn in Hl; try lia.
    cbn [map poll_all fold_left issue nth].
    destruct (@poll_work_new created s h sd b rest T) as (s' & E & _ & T' & _).
    { intros c Ec Eh. apply (Hcur c Ec). left. now rewrite Eh. }
    rewrite E. cbn [snd].
    specialize (IH _ _ T' Hlen' Hnd').
    rewrite length_app, Nat.add_comm in IH. cbn [List.length Nat.add] in IH.
    rewrite <- app_assoc in IH. apply IH.
    destruct T' as (_ & _ & _ & Hc). rewrite rev_app_distr in Hc. cbn in Hc.
    intros c Ec. rewrite Hc in Ec. injection Ec as <-. exact Hnotin.
Qed.

(** *** The header index never outgrows the job dictionary *)

Lemma keys_set (V : Type) (k : string) (v : V) (d : PyDict.t V) :
  PyDict.keys (PyDict.set k v d) = PyDict.keys d
  \/ (~ In k (PyDict.keys d)
      /\ PyDict.keys (PyDict.set k v d) = PyDict.keys d ++ [k]).
Proof.
  unfold PyDict.keys.
  induction d as [|[k' v'] d IH]; cbn [PyDict.set map fst app]; [right; auto|].
  destruct (String.eqb_spec k k') as [->|N]; cbn [map fst]; [now left|].
  destruct IH as [E|(Hn & E)]; rewrite E; [now left|right].
  split; [cbn; intuition congruence|reflexivity].
Qed.

Lemma NoDup_keys_set (V : Type) (k : string) (v : V) (d : PyDict.t V) :
  NoDup (PyDict.keys d) -> NoDup (PyDict.keys (PyDict.set k v d)).
Proof.
  intros H. destruct (keys_set k v d) as [E|(Hn & E)]; rewrite E; [assumption|].
  apply NoDup_app; [assumption|repeat constructor; intros []|].
  intros x Hx [<-|[]]. contradiction.
Qed.

Lemma in_keys_set (V : Type) (k k' : string) (v : V) (d : PyDict.t V) :
  In k' (PyDict.keys (PyDict.set k v d)) -> k' = k \/ In k' (PyDict.keys d).
Proof.
  destruct (keys_set k v d) as [E|(_ & E)]; rewrite E; [auto|].
  intros H. apply in_app_or in H as [H|[<-|[]]]; auto.
Qed.

Lemma in_keys_pop (V : Type) (k k' : string) (d : PyDict.t V) :
  NoDup (PyDict.keys d) ->
  In k' (PyDict.keys (PyDict.pop k d)) -> k' <> k /\ In k' (PyDict.keys d).
Proof.
  induction d as [|[k0 v0] d IH]; cbn; [tauto|].
  intros Hnd. inversion Hnd as [|? ? Hnotin Hnd']; subst.
  destruct (String.eqb_spec k k0) as [->|N]; cbn.
  - intros Hin. split; [|now right]. intros ->. contradiction.
  - intros [<-|Hin]; [split; [congruence|now left]|].
    destruct (IH Hnd' Hin). split; [assumption|now right].
Qed.

Lemma NoDup_keys_pop (V : Type) (k : string) (d : PyDict.t V) :
  NoDup (PyDict.keys d) -> NoDup (PyDict.keys (PyDict.pop k d)).
Proof.
  induction d as [|[k0 v0] d IH]; cbn; [auto|].
  intros Hnd. inversion Hnd as [|? ? Hnotin Hnd']; subst.
  destruct (String.eqb k k0); cbn; [assumption|].
  constructor; [|auto].
  intros Hin. apply (@in_keys_pop _ _ _ _ Hnd') in Hin. tauto.
Qed.

Lemma index_ok_init : header_index_ok JobManager_init.
Proof. split; [constructor|intros k []]. Qed.

Lemma index_ok_new_job (s : JobManager) (h sd b : string) :
  PyDict.get (hex (_counter s + 1)) (jobs s) = None ->
  header_index_ok s -> header_index_ok (snd (new_job h sd b s)).
Proof.
  intros Hfresh (Hnd & Hw). unfold new_job, header_index_ok.
  cbn [snd jobs _by_header]. split; [now apply NoDup_keys_set|].
  intros k Hin. rewrite set_fresh by assumption.
  unfold PyDict.values. rewrite map_app. cbn [map snd].
  apply in_keys_set in Hin as [->|Hin].
  - eexists; split; [apply in_or_app; right; left; reflexivity|reflexivity].
  - destruct (Hw k Hin) as (j & Hj & E).
    exists j; split; [apply in_or_app; now left|assumption].
Qed.

Lemma index_ok_pruned (s1 s' : JobManager) :
  pruned s1 s' -> header_index_ok s1 -> header_index_ok s'.
Proof.
  intros [->|(j0 & Hj & Hb)] (Hnd & Hw); [now split|].
  unfold header_index_ok. rewrite Hb. split; [now apply NoDup_keys_pop|].
  intros k Hin. apply (@in_keys_pop _ _ _ _ Hnd) in Hin as (Hneq & Hin).
  destruct (Hw k Hin) as (j & Hjin & E).
  rewrite Hj in Hjin. cbn in Hjin. destruct Hjin as [<-|Hjin]; [congruence|].
  now exists j.
Qed.

Lemma index_ok_poll (created : list Job) (s : JobManager) (r : option (list string)) :
  tracks created s -> header_index_ok s -> header_index_ok (snd (poll_work r s)).
Proof.
  intros T I. destruct (no_change_dec r s) as [H|(h & sd & b & rest & -> & Hd)].
  - now rewrite poll_work_no_change.
  - destruct (poll_work_new sd b rest T Hd) as (s' & E & _ & _ & P).
    rewrite E. cbn [snd]. apply (index_ok_pruned P).
    apply index_ok_new_job; [|assumption].
    destruct (tracks_fresh_id T) as (-> & ?). assumption.
Qed.

Lemma reachable_invariants (s : JobManager) :
  reachable s -> (exists created, tracks created s) /\ header_index_ok s.
Proof.
  induction 1 as [|s r _ ((created & T) & I)].
  - split; [exists []; exact tracks_init|exact index_ok_init].
  - split; [|exact (index_ok_poll r T I)].
    destruct (poll_work_tracks r T) as (more & T'). eauto.
Qed.

Lemma index_size (s : JobManager) :
  header_index_ok s -> List.length (_by_header s) <= List.length (jobs s).
Proof.
  intros (Hnd & Hw).
  rewrite <- (length_map fst (_by_header s)).
  rewrite <- (length_map (fun e => lower (header_hash (snd e))) (jobs s)).
  apply NoDup_incl_length; [exact Hnd|].
  intros k Hin. destruct (Hw k Hin) as (j & Hj & <-).
  unfold PyDict.values in Hj. apply in_map_iff in Hj as (e & <- & He).
  apply in_map_iff. now exists e.
Qed.

Lemma lower_of_pos :
  forall (p : positive) (rest : string),
    lower rest = rest ->
    lower (HexString.Raw.of_pos p rest) = HexString.Raw.of_pos p rest.
Proof.
  fix IH 1. intros p rest H.
  do 4 try destruct p as [p|p|];
    cbn [HexString.Raw.of_pos];
    try (apply IH);
    cbn [lower]; rewrite H; reflexivity.
Qed.

(** [hex] writes lowercase digits. *)
Lemma hex_lower (n : N) : lower (hex n) = hex n.
Proof.
  destruct n as [|p]; [reflexivity|].
  unfold hex, HexString.of_N, HexString.of_pos. cbn [lower].
  rewrite lower_of_pos; reflexivity.
Qed.

Lemma nth_id_NoDup (a n : nat) : NoDup (map nth_id (seq a n)).
Proof.
  revert a; induction n as [|n IH]; intros a; cbn [seq map]; constructor.
  - intros Hin. apply in_map_iff in Hin as (j & E & Hj).
    apply nth_id_inj in E. apply in_seq in Hj. lia.
  - apply IH.
Qed.

Lemma get_of_in (V : Type) (k : string) (v : V) (d : PyDict.t V) :
  NoDup (PyDict.keys d) -> In (k, v) d -> PyDict.get k d = Some v.
Proof.
  induction d as [|[k' v'] d IH]; cbn; [tauto|].
  intros Hnd. inversion Hnd as [|? ? Hnotin Hnd']; subst.
  intros [[= -> ->]|Hin]; [now rewrite String.eqb_refl|].
  destruct (String.eqb_spec k k') as [->|_]; [|auto].
  destruct Hnotin. apply in_map_iff. now exists (k', v).
Qed.

Lemma tracks_get_last (created : list Job) (job : Job) (s : JobManager) :
  tracks (created ++ [job]) s -> PyDict.get (job_id job) (jobs s) = Some job.
Proof.
  intros T. apply get_of_in.
  - rewrite (tracks_keys T). apply nth_id_NoDup.
  - destruct T as (_ & Hj & _). rewrite Hj.
    apply in_map_iff. exists job. split; [reflexivity|].
    rewrite length_app. cbn [List.length].
    rewrite skipn_app. apply in_or_app. right.
    replace (List.length created + 1 - 20 - List.length created) with 0 by lia.
    now left.
Qed.

(* ------------------------------------------------------------------ *)
(** ** Properties of [poll_work] and of the job cache *)
(* ------------------------------------------------------------------ *)

Lemma get_pop_same (V : Type) (k : string) (d : PyDict.t V) :
  NoDup (PyDict.keys d) -> PyDict.get k (PyDict.pop k d) = None.
Proof.
  intros Hnd. apply get_none_iff. intros Hin.
  apply (@in_keys_pop _ _ _ _ Hnd) in Hin as (Hneq & _). now destruct Hneq.
Qed.

Lemma get_pop_other (V : Type) (k k' : string) (d : PyDict.t V) :
  k <> k' -> PyDict.get k (PyDict.pop k' d) = PyDict.get k d.
Proof.
  intros Hneq. induction d as [|[k0 v0] d IH]; cbn; [reflexivity|].
  destruct (String.eqb_spec k' k0) as [->|N0]; cbn.
  - destruct (String.eqb_spec k k0); [contradiction|reflexivity].
  - destruct (String.eqb k k0); [reflexivity|exact IH].
Qed.

(** What a call of [poll_work] does, on every job manager the proxy can be
    in.  When [get_work] returned [None] or fewer than three items, or
    the header it returned equals the current job's, the call returns
    [None] and leaves the manager as it was.  Otherwise the counter goes
    up by one, the new job carries the lowercase hexadecimal rendering of
    the counter as its id, it is stored under that id and under its
    lowercased header (lines 138 to 144, state [s1]), it becomes the
    current job and it is returned.  The state [s'] that the call leaves
    is [s1] when fewer than 20 jobs were held; when 20 were held, it is
    [s1] without the oldest job [j0] and without the header entry under
    the lowercased header of [j0], whoever that entry belongs to.  So the
    new job is always under its id, at most 20 jobs are held, and the new
    job is under its lowercased header exactly when no job was evicted or
    the evicted job had another lowercased header.  Polling the same
    answer a second and a third time returns [None] both times. *)
Lemma poll_work_spec (s : JobManager) (r : option (list string)) :
  reachable s ->
  (no_change r s -> poll_work r s = (Return None, s)) /\
  (~ no_change r s ->
   exists h sd b rest s',
     r = Some (h :: sd :: b :: rest) /\
     let job := mkJob (hex (_counter s + 1)) h sd b in
     let s1 := snd (new_job h sd b s) in
     poll_work r s = (Return (Some job), s') /\
     fst (new_job h sd b s) = job /\
     lower (job_id job) = job_id job /\
     _counter s1 = (_counter s + 1)%N /\
     PyDict.get (job_id job) (jobs s1) = Some job /\
     PyDict.get (lower h) (_by_header s1) = Some job /\
     current_job s1 = Some job /\
     prune s1 = (Return tt, s') /\
     _counter s' = (_counter s + 1)%N /\
     current_job s' = Some job /\
     PyDict.get (job_id job) (jobs s') = Some job /\
     List.length (jobs s') <= 20 /\
     List.length (_by_header s') <= 20 /\
     List.length (jobs s) <= 20 /\
     (List.length (jobs s) < 20 -> s' = s1) /\
     (List.length (jobs s) = 20 ->
      exists j0 older,
        jobs s = entry j0 :: older /\
        s' = mkJobManager (older ++ [entry job]) (Some job) (_counter s + 1)
               (PyDict.pop (lower (header_hash j0))
                  (PyDict.set (lower h) job (_by_header s)))) /\
     (PyDict.get (lower h) (_by_header s') = Some job <->
      (List.length (jobs s) < 20
       \/ exists j0, hd_error (jobs s) = Some (entry j0)
                     /\ lower (header_hash j0) <> lower h)) /\
     poll_work r s' = (Return None, s') /\
     poll_work r (snd (poll_work r s')) = (Return None, s')).
Proof.
  intros R. split; [apply poll_work_no_change|].
  intros Hchange.
  destruct (no_change_dec r s) as [H|(h & sd & b & rest & -> & Hd)]; [contradiction|].
  destruct (reachable_invariants R) as ((created & T) & I).
  destruct (poll_work_new sd b rest T Hd) as (s' & E & Hprune & T' & P).
  destruct (tracks_fresh_id T) as (Hhex & Hfresh).
  rewrite <- Hhex in E, T', Hfresh.
  exists h, sd, b, rest, s'. split; [reflexivity|]. cbv zeta.
  set (job := mkJob (hex (_counter s + 1)) h sd b) in *.
  assert (Hcur : current_job s' = Some job).
  { destruct T' as (_ & _ & _ & Hc). rewrite Hc, rev_app_distr. reflexivity. }
  assert (Hagain : poll_work (Some (h :: sd :: b :: rest)) s' = (Return None, s')).
  { apply poll_work_no_change. right. eexists; split; [exact Hcur|reflexivity]. }
  assert (Hlen : List.length (jobs s') <= 20).
  { rewrite (tracks_length T'). lia. }
  assert (Hlen0 : List.length (jobs s) <= 20).
  { rewrite (tracks_length T). lia. }
  assert (Hcnt : _counter s' = (_counter s + 1)%N).
  { destruct T' as (Hc & _). rewrite Hc, length_app.
    destruct T as (Hc0 & _). rewrite Hc0. cbn [List.length]. lia. }
  assert (Hjobs1 : jobs (snd (new_job h sd b s)) = jobs s ++ [entry job]).
  { unfold new_job. cbn [snd jobs]. fold job.
    now rewrite (@set_fresh _ _ job _ Hfresh). }
  assert (Hbh1 : _by_header (snd (new_job h sd b s))
                 = PyDict.set (lower h) job (_by_header s)) by reflexivity.
  assert (Hnd1 : NoDup (PyDict.keys (PyDict.set (lower h) job (_by_header s)))).
  { apply NoDup_keys_set. exact (proj1 I). }
  assert (Hsmall : List.length (jobs s) < 20 -> s' = snd (new_job h sd b s)).
  { intros Hlt. rewrite prune_small in Hprune; [now injection Hprune|].
    rewrite Hjobs1, length_app. cbn [List.length]. lia. }
  assert (Hfull : List.length (jobs s) = 20 ->
                  exists j0 older,
                    jobs s = entry j0 :: older /\
                    s' = mkJobManager (older ++ [entry job]) (Some job) (_counter s + 1)
                           (PyDict.pop (lower (header_hash j0))
                              (PyDict.set (lower h) job (_by_header s)))).
  { intros Hfull. destruct P as [->|(j0 & Hj & Hb)].
    - rewrite Hjobs1, length_app in Hlen. cbn [List.length] in Hlen. lia.
    - rewrite Hjobs1 in Hj. rewrite Hbh1 in Hb.
      destruct (jobs s) as [|e0 older] eqn:Ej; [discriminate Hfull|].
      cbn [app] in Hj. injection Hj as -> Hj.
      exists j0, older. split; [reflexivity|].
      destruct s' as [js cur cnt bh]. cbn [jobs current_job _counter _by_header] in *.
      now subst. }
  repeat split.
  - exact E.
  - apply hex_lower.
  - unfold new_job; cbn. apply get_set_same.
  - unfold new_job; cbn. apply get_set_same.
  - exact Hprune.
  - exact Hcnt.
  - exact Hcur.
  - exact (@tracks_get_last _ _ _ T').
  - exact Hlen.
  - apply Nat.le_trans with (List.length (jobs s')); [|exact Hlen].
    apply index_size.
    pose proof (index_ok_poll (Some (h :: sd :: b :: rest)) T I) as I'.
    now rewrite E in I'.
  - exact Hlen0.
  - exact Hsmall.
  - exact Hfull.
  - intros Hget.
    destruct (Nat.eq_dec (List.length (jobs s)) 20) as [E20|N20]; [|left; lia].
    right. destruct (Hfull E20) as (j0 & older & Ej & Es').
    exists j0. rewrite Ej. split; [reflexivity|].
    intros Eh. rewrite Es' in Hget. cbn [_by_header] in Hget.
    rewrite Eh, (@get_pop_same _ _ _ Hnd1) in Hget. discriminate.
  - intros [Hlt|(j0 & Hhd & Hneq)].
    + rewrite (Hsmall Hlt), Hbh1. apply get_set_same.
    + destruct (Nat.eq_dec (List.length (jobs s)) 20) as [E20|N20].
      * destruct (Hfull E20) as (j1 & older & Ej & Es').
        rewrite Ej in Hhd. cbn [hd_error] in Hhd.
        assert (j1 = j0) by (unfold entry in Hhd; congruence).
        subst j1. rewrite Es'. cbn [_by_header].
        rewrite get_pop_other by congruence. apply get_set_same.
      * rewrite (Hsmall ltac:(lia)), Hbh1. apply get_set_same.
  - exact Hagain.
  - rewrite Hagain. exact Hagain.
Qed.

(** The first poll of a fresh job manager. *)
Lemma poll_work_spec_witness :
  reachable JobManager_init /\
  poll_work (Some ["0xaa"; "0xbb"; "0xcc"]) JobManager_init
  = (Return (Some (mkJob "0x1" "0xaa" "0xbb" "0xcc")),
     snd (poll_work (Some ["0xaa"; "0xbb"; "0xcc"]) JobManager_init)).
Proof.
  split; [exact reach_init|].
  destruct (poll_work_spec (Some ["0xaa"; "0xbb"; "0xcc"]) reach_init) as (_ & H).
  destruct H as (h & sd & b & rest & s' & E & H).
  - cbn. intros [Hl|(c & Hc & _)]; [lia|discriminate].
  - injection E as <- <- <- <-. cbv zeta in H.
    destruct H as (-> & _). reflexivity.
Defined.

(** New-work detection on a fresh manager: three polls that see the same
    upstream triple give one job and then [None] twice. *)
Example three_identical_polls :
  let r := Some ["0xaa"; "0xbb"; "0xcc"] in
  let s1 := snd (poll_work r JobManager_init) in
  let s2 := snd (poll_work r s1) in
  fst (poll_work r JobManager_init) = Return (Some (mkJob "0x1" "0xaa" "0xbb" "0xcc"))
  /\ fst (poll_work r s1) = Return None
  /\ fst (poll_work r s2) = Return None.
Proof. repeat split. Qed.

(** C1 (the code departs from it).  A manager that has polled twenty
    headers, the first of them [0xaa], polls [0xaa] again.  The call
    increments the counter to 21, creates job [0x15] and stores it under
    its id and under its lowercased header, makes it the current job and
    returns it; pruning then evicts job [0x1], whose header was [0xaa]
    too, and pops that header entry.  In the state the call leaves, the
    job returned is the current job and is in the job dictionary, which
    holds 20 jobs, but the header index does not hold it: the key [0xaa]
    is gone and no other entry carries the job. *)
Theorem poll_work_loses_header_entry :
  let s := poll_all (firstn 20 repeated_header_polls) JobManager_init in
  let r := Some ["0xaa"; "0x5eed"; "0xffff"]%string in
  let job := mkJob "0x15" "0xaa" "0x5eed" "0xffff" in
  let s' := snd (poll_work r s) in
  reachable s /\
  fst (poll_work r s) = Return (Some job) /\
  _counter s = 20%N /\ _counter s' = 21%N /\
  job_id job = hex (_counter s') /\
  PyDict.get (lower "0xaa") (_by_header (snd (new_job "0xaa" "0x5eed" "0xffff" s)))
  = Some job /\
  current_job s' = Some job /\
  PyDict.get "0x15" (jobs s') = Some job /\
  List.length (jobs s') = 20 /\
  PyDict.get (lower "0xaa") (_by_header s') = None /\
  existsb (fun e => String.eqb (job_id (snd e)) "0x15") (_by_header s') = false.
Proof.
  cbv zeta. split; [apply reachable_poll_all; exact reach_init|].
  vm_compute. repeat split.
Qed.

(** C10. Whenever [poll_work] returns [None] the job manager is entirely
    unchanged: the job dictionary, the header index, the current job and
    the id counter all keep their values. *)
Theorem poll_work_none_frame (r : option (list string)) (s s' : JobManager) :
  poll_work r s = (Return None, s') ->
  s' = s /\ jobs s' = jobs s /\ _by_header s' = _by_header s
  /\ current_job s' = current_job s /\ _counter s' = _counter s.
Proof.
  intros H. assert (E : s' = s); [|now subst].
  unfold poll_work in H.
  destruct r as [[|h [|sd [|b rest]]]|]; try (now injection H).
  destruct (match current_job s with
            | Some c => String.eqb (header_hash c) h
            | None => false
            end); [now injection H|].
  destruct (new_job h sd b s) as [job s1].
  destruct (prune s1) as [[u|e] s2]; discriminate.
Qed.

(** C10 on a poll that sees the header of the current job again. *)
Lemma poll_work_none_frame_witness :
  let s := snd (poll_work (Some ["0xaa"; "0xbb"; "0xcc"]) JobManager_init) in
  poll_work (Some ["0xaa"; "0x5eed"; "0xffff"]) s = (Return None, s)
  /\ _counter s = 1%N.
Proof.
  cbv zeta. split; [|reflexivity].
  assert (H : poll_work (Some ["0xaa"; "0x5eed"; "0xffff"])
                (snd (poll_work (Some ["0xaa"; "0xbb"; "0xcc"]) JobManager_init))
              = (Return None,
                 snd (poll_work (Some ["0xaa"; "0x5eed"; "0xffff"])
                        (snd (poll_work (Some ["0xaa"; "0xbb"; "0xcc"]) JobManager_init)))))
    by reflexivity.
  destruct (poll_work_none_frame _ _ H) as (E & _).
  rewrite E in H. exact H.
Defined.

(** C5. After every [poll_work] call the job dictionary holds at most 20
    jobs.  After 25 polls that returned 25 different headers exactly the
    20 jobs with the largest ids (numbers 6 to 25) remain, and [find_job]
    by id on each of the 5 oldest ids returns [None], also after any
    further polls. *)
Theorem cache_keeps_last_20 :
  (forall rs, List.length (jobs (poll_all rs JobManager_init)) <= 20) /\
  (forall ws : list (list string),
     List.length ws = 25 ->
     Forall (fun l => 3 <= List.length l) ws ->
     NoDup (map header_of_work ws) ->
     let s := poll_all (map Some ws) JobManager_init in
     jobs s = map entry (skipn 5 (issue 1 ws)) /\
     PyDict.keys (jobs s) = map nth_id (seq 6 20) /\
     forall i later,
       1 <= i <= 5 ->
       find_job (VStr (nth_id i)) VNone (poll_all later s) = Return None).
Proof.
  split.
  - intros rs. destruct (poll_all_tracks rs tracks_init) as (more & T).
    rewrite (tracks_length T). lia.
  - intros ws Hlen H3 Hnd s.
    assert (T : tracks (issue 1 ws) s).
    { apply (poll_all_issue (created := []) tracks_init H3 Hnd). discriminate. }
    assert (Hn : List.length (issue 1 ws) = 25).
    { clear - Hlen. revert Hlen. generalize 1 as a, 25 as n.
      induction ws as [|l ws IH]; intros a n; cbn; [auto|].
      destruct n; [discriminate|]. intros [= H]. now rewrite (IH (S a) n). }
    split; [|split].
    + destruct T as (_ & Hj & _). now rewrite Hj, Hn.
    + rewrite (tracks_keys T), Hn. reflexivity.
    + intros i later Hi.
      destruct (poll_all_tracks later T) as (more & T').
      assert (Hget : PyDict.get (nth_id i) (jobs (poll_all later s)) = None).
      { apply (tracks_get_absent T'). rewrite length_app, Hn. lia. }
      unfold find_job. cbn [truthy]. rewrite Hget.
      now destruct (negb (String.eqb (nth_id i) "")).
Qed.

(** C5 on twenty-five concrete answers. *)
Lemma cache_keeps_last_20_witness :
  List.length distinct_polls = 25 /\
  Forall (fun l => 3 <= List.length l) distinct_polls /\
  NoDup (map header_of_work distinct_polls) /\
  PyDict.keys (jobs (poll_all (map Some distinct_polls) JobManager_init))
  = map nth_id (seq 6 20).
Proof.
  assert (H3 : Forall (fun l => 3 <= List.length l) distinct_polls).
  { unfold distinct_polls. apply Forall_forall. intros l Hl.
    apply in_map_iff in Hl as (i & <- & _). cbn. lia. }
  assert (Hnd : NoDup (map header_of_work distinct_polls)).
  { apply distinctb_NoDup. vm_compute. reflexivity. }
  split; [reflexivity|split; [exact H3|split; [exact Hnd|]]].
  destruct cache_keeps_last_20 as (_ & H).
  exact (proj1 (proj2 (H distinct_polls eq_refl H3 Hnd))).
Defined.

(** C6 (the code departs from it).  Twenty-one polls of which the first
    and the last carry the same header: pruning job [0x1] pops the header
    entry that by then belongs to job [0x15], the current job, which stays
    in the job dictionary but can no longer be found by its header. *)
Theorem prune_drops_header_of_current_job :
  let s := poll_all repeated_header_polls JobManager_init in
  current_job s = Some (mkJob "0x15" "0xaa" "0x5eed" "0xffff") /\
  PyDict.get "0x15" (jobs s) = Some (mkJob "0x15" "0xaa" "0x5eed" "0xffff") /\
  find_job VNone (VStr "0xaa") s = Return None /\
  List.length (jobs s) = 20 /\ List.length (_by_header s) = 19.
Proof. vm_compute. repeat split. Qed.

(* ------------------------------------------------------------------ *)
(** ** The solution path *)
(* ------------------------------------------------------------------ *)

Lemma submit_solution_results (up : string -> string -> string -> rpc_reply)
    (nonce hh md : value) (r : string) :
  submit_solution up nonce hh md = Return r ->
  r = "accepted" \/ r = "rejected" \/ startswith r "error: " = true.
Proof.
  unfold submit_solution.
  destruct (with_0x nonce) as [n|]; [|discriminate].
  destruct (with_0x hh) as [h|]; [|discriminate].
  destruct (with_0x md) as [m|]; [|discriminate].
  destruct (up n h m) as [ok|e].
  - destruct (truthy ok); intros [= <-]; auto.
  - intros [= <-]. right; right. reflexivity.
Qed.

Lemma submit_solution_not_stale (up : string -> string -> string -> rpc_reply)
    (nonce hh md : value) :
  submit_solution up nonce hh md <> Return "job-not-found".
Proof.
  intros H. apply submit_solution_results in H as [H|[H|H]]; discriminate.
Qed.

Ltac destruct_head :=
  match goal with
  | |- context [match ?x with _ => _ end] =>
      lazymatch type of x with
      | prod _ _ => fail
      | _ => destruct x eqn:?
      end
  end.

Ltac run_handler := repeat (cbv beta iota; try destruct_head).

Ltac shape_done :=
  first
    [ left; eexists; split; reflexivity
    | right; left; eexists; split;
      [|symmetry; apply surjective_pairing]; reflexivity
    | right; right; left; symmetry; apply surjective_pairing
    | right; right; right; do 2 eexists; split;
      [|symmetry; apply surjective_pairing]; reflexivity
    | exfalso;
      match goal with
      | H : submit_solution _ _ _ _ = Return ?r, E : String.eqb ?r _ = true |- _ =>
          apply String.eqb_eq in E; subst r;
          exact (submit_solution_not_stale _ _ _ _ H)
      end ].

(** Every way through [_stratum_submit]; the ["job-not-found"] branch is
    not among them. *)
Lemma stratum_submit_shape (env : Env) (id params : value) (s : MinerSession) :
  submit_shape id s (fst (_stratum_submit env id params s))
                    (snd (_stratum_submit env id params s)).
Proof.
  unfold _stratum_submit, bind, lift, ret, modify, get_session, _send_result, _send_error.
  run_handler.
  all: cbn [fst snd]; shape_done.
Qed.

Lemma ethproxy_submitwork_shape (env : Env) (id params : value) (s : MinerSession) :
  submit_shape id s (fst (_ethproxy_submitwork env id params s))
                    (snd (_ethproxy_submitwork env id params s)).
Proof.
  unfold _ethproxy_submitwork, bind, lift, ret, modify, _send_result, _send_error.
  run_handler.
  all: cbn [fst snd]; shape_done.
Qed.

(* ------------------------------------------------------------------ *)
(** ** What the handlers leave untouched *)
(* ------------------------------------------------------------------ *)

Section Preserve.
Variable Q : MinerSession -> MinerSession -> Prop.
Hypothesis Q_refl : forall s, Q s s.
Hypothesis Q_trans : forall a b c, Q a b -> Q b c -> Q a c.

Lemma preserves_ret (A : Type) (a : A) : preserves Q (ret a).
Proof. intros s. apply Q_refl. Qed.

Lemma preserves_lift (A : Type) (o : outcome A) : preserves Q (lift o).
Proof. intros s. apply Q_refl. Qed.

Lemma preserves_get : preserves Q get_session.
Proof. intros s. apply Q_refl. Qed.

Lemma preserves_bind (A B : Type) (m : M A) (k : A -> M B) :
  preserves Q m -> (forall a, preserves Q (k a)) -> preserves Q (bind m k).
Proof.
  intros Hm Hk s. unfold bind.
  specialize (Hm s). destruct (m s) as [[a|e] s1]; cbn [snd] in *.
  - eapply Q_trans; [exact Hm|apply Hk].
  - exact Hm.
Qed.
End Preserve.

Lemma send_json_cases (f : Frame) (s : MinerSession) :
  fst (_send_json f s) = Return tt /\
  authorized (snd (_send_json f s)) = authorized s /\
  worker_name (snd (_send_json f s)) = worker_name s /\
  protocol (snd (_send_json f s)) = protocol s /\
  shares_accepted (snd (_send_json f s)) = shares_accepted s /\
  shares_rejected (snd (_send_json f s)) = shares_rejected s /\
  (sent (snd (_send_json f s)) = sent s
   \/ sent (snd (_send_json f s)) = sent s ++ [f]) /\
  (reliable s -> reliable (snd (_send_json f s))
                 /\ sent (snd (_send_json f s)) = sent s ++ [f]).
Proof.
  unfold _send_json, reliable.
  destruct (_closed s) eqn:Ec; cbn.
  { repeat split; auto;
      match goal with H : _ /\ _ |- _ => destruct H as [Hc _]; discriminate end. }
  destruct (link s) as [|[|] l] eqn:El; cbn; repeat split; auto;
    match goal with H : _ /\ _ |- _ => destruct H as [_ Hl] end;
    inversion Hl; subst; auto; discriminate.
Qed.

Lemma quiet_refl (s : MinerSession) : quiet s s.
Proof. split; [|split]; auto. Qed.

Lemma quiet_trans (a b c : MinerSession) : quiet a b -> quiet b c -> quiet a c.
Proof.
  intros (A1 & R1 & H1) (A2 & R2 & H2).
  split; [|split]; [congruence|congruence|auto].
Qed.

Lemma no_stale_refl (s : MinerSession) : no_stale s s.
Proof. exists []. now rewrite app_nil_r. Qed.

Lemma no_stale_trans (a b c : MinerSession) :
  no_stale a b -> no_stale b c -> no_stale a c.
Proof.
  intros (f1 & E1 & H1) (f2 & E2 & H2). exists (f1 ++ f2). split.
  - now rewrite E2, E1, app_assoc.
  - now apply Forall_app.
Qed.

Lemma same_protocol_refl (s : MinerSession) : same_protocol s s.
Proof. reflexivity. Qed.

Lemma same_protocol_trans (a b c : MinerSession) :
  same_protocol a b -> same_protocol b c -> same_protocol a c.
Proof. unfold same_protocol; congruence. Qed.

Lemma send_quiet (f : Frame) : preserves quiet (_send_json f).
Proof.
  intros s. destruct (send_json_cases f s) as (_ & _ & _ & _ & A & R & _ & H).
  split; [|split]; [assumption|assumption|].
  intros Hr. now apply H.
Qed.

Lemma send_no_stale (f : Frame) :
  is_stale_reply f = false -> preserves no_stale (_send_json f).
Proof.
  intros Hf s. destruct (send_json_cases f s) as (_ & _ & _ & _ & _ & _ & [E|E] & _).
  - exists []. now rewrite app_nil_r.
  - exists [f]. split; [assumption|now constructor].
Qed.

Lemma send_same_protocol (f : Frame) : preserves same_protocol (_send_json f).
Proof. intros s. apply (send_json_cases f s). Qed.

(** One step of a proof that a handler preserves a relation: split a
    sequence, settle a leaf, or look at which way a branch goes. *)
Ltac preserve_with refl trans send :=
  repeat first
    [ apply (@preserves_bind _ trans); [|intros ?]
    | apply (@preserves_ret _ refl)
    | apply (@preserves_lift _ refl)
    | apply (@preserves_get _ refl)
    | apply send; reflexivity
    | apply send
    | match goal with
      | |- preserves _ (modify _) =>
          let s := fresh "s" in
          intros s; unfold modify; cbn [snd];
          first [ reflexivity
                | exists []; now rewrite app_nil_r
                | split; [|split]; auto ]
      | |- preserves _ (match ?x with _ => _ end) => destruct x
      end ].

Ltac unfold_handlers :=
  unfold route, _ethproxy_login, _ethproxy_getwork, _ethproxy_submitwork,
    _ethproxy_hashrate, _stratum_subscribe, _stratum_authorize, _stratum_submit,
    send_stratum_job, send_ethproxy_job, _send_result, _send_error, _send_notification.

Lemma send_stratum_job_quiet (job : Job) (clean : bool) :
  preserves quiet (send_stratum_job job clean).
Proof. unfold_handlers. preserve_with quiet_refl quiet_trans send_quiet. Qed.

Lemma send_stratum_job_no_stale (job : Job) (clean : bool) :
  preserves no_stale (send_stratum_job job clean).
Proof. unfold_handlers. preserve_with no_stale_refl no_stale_trans send_no_stale. Qed.

Lemma send_stratum_job_same_protocol (job : Job) (clean : bool) :
  preserves same_protocol (send_stratum_job job clean).
Proof.
  unfold_handlers.
  preserve_with same_protocol_refl same_protocol_trans send_same_protocol.
Qed.

Lemma is_method_eq (m : value) (name : string) :
  is_method m name = true -> m = VStr name.
Proof.
  destruct m; cbn; try discriminate.
  intros H. apply String.eqb_eq in H. now subst.
Qed.

Lemma refusal_exclusive (f : Frame) :
  is_refusal f = true ->
  is_accept f = false /\ is_reject f = false /\ is_stale_reply f = false.
Proof.
  destruct f as [i v|i c m|m p];
    cbn [is_refusal is_accept is_reject is_stale_reply]; try discriminate.
  intros H.
  repeat (apply orb_prop in H as [H|H]);
    apply andb_prop in H as (_ & H); apply String.eqb_eq in H; subst m;
    repeat split.
Qed.

Lemma reject_not_stale (m : string) :
  startswith m "Rejected: " = true -> String.eqb m "Job not found (stale)" = false.
Proof.
  intros H. destruct (String.eqb_spec m "Job not found (stale)") as [->|]; [|reflexivity].
  discriminate.
Qed.

Lemma shape_no_stale (id : value) (s : MinerSession) (r : outcome unit) (s' : MinerSession) :
  submit_shape id s r s' -> no_stale s s'.
Proof.
  intros [(e & _ & ->)|[(f & Hf & E)|[E|(code & m & Hm & E)]]].
  - apply no_stale_refl.
  - apply (f_equal snd) in E. cbn [snd] in E. subst s'.
    apply send_no_stale. now apply refusal_exclusive.
  - apply (f_equal snd) in E. cbn [snd] in E. subst s'.
    exact (send_no_stale (Result id (VBool true)) eq_refl (incr_accepted s)).
  - apply (f_equal snd) in E. cbn [snd] in E. subst s'.
    exact (send_no_stale (Error id code m) (reject_not_stale m Hm) (incr_rejected s)).
Qed.

Lemma shape_same_protocol (id : value) (s : MinerSession) (r : outcome unit)
    (s' : MinerSession) :
  submit_shape id s r s' -> same_protocol s s'.
Proof.
  intros [(e & _ & ->)|[(f & Hf & E)|[E|(code & m & Hm & E)]]];
    [reflexivity|..];
    apply (f_equal snd) in E; cbn [snd] in E; subst s'; unfold same_protocol.
  - apply send_json_cases.
  - now rewrite (proj1 (proj2 (proj2 (proj2 (send_json_cases _ _))))).
  - now rewrite (proj1 (proj2 (proj2 (proj2 (send_json_cases _ _))))).
Qed.

Lemma shape_accounted (id : value) (s : MinerSession) (r : outcome unit)
    (s' : MinerSession) :
  submit_shape id s r s' -> accounted s s'.
Proof.
  intros [(e & _ & ->)|[(f & Hf & E)|[E|(code & m & Hm & E)]]] Hr.
  - split; [assumption|]. exists []. cbn. rewrite app_nil_r, !Nat.add_0_r. auto.
  - apply (f_equal snd) in E. cbn [snd] in E. subst s'.
    destruct (send_json_cases f s) as (_ & _ & _ & _ & A & R & _ & H).
    destruct (H Hr) as (Hr' & Hs). split; [assumption|].
    destruct (refusal_exclusive f Hf) as (Ha & Hj & _).
    exists [f]. cbn [filter]. rewrite Ha, Hj. cbn [List.length].
    rewrite !Nat.add_0_r. repeat split; auto.
    constructor; [|constructor]. unfold is_submit_reply. now rewrite Hf, !orb_true_r.
  - apply (f_equal snd) in E. cbn [snd] in E. subst s'.
    destruct (send_json_cases (Result id (VBool true)) (incr_accepted s))
      as (_ & _ & _ & _ & A & R & _ & H).
    destruct (H Hr) as (Hr' & Hs). split; [assumption|].
    exists [Result id (VBool true)]. cbn [filter is_accept is_reject List.length].
    rewrite A, R, Hs. cbn. rewrite Nat.add_0_r, Nat.add_1_r. repeat split; auto.
  - apply (f_equal snd) in E. cbn [snd] in E. subst s'.
    destruct (send_json_cases (Error id code m) (incr_rejected s))
      as (_ & _ & _ & _ & A & R & _ & H).
    destruct (H Hr) as (Hr' & Hs). split; [assumption|].
    assert (Hj : is_reject (Error id code m) = true) by exact Hm.
    exists [Error id code m]. cbn [filter]. rewrite Hj.
    change (is_accept (Error id code m)) with false. cbv iota.
    rewrite A, R, Hs. cbn. rewrite Nat.add_0_r, Nat.add_1_r. repeat split; auto.
    constructor; [|constructor]. unfold is_submit_reply. now rewrite Hj, orb_true_r.
Qed.

(** [_dispatch] is the chain [route] on the fields of a JSON object and
    raises on anything else. *)
Lemma dispatch_route (env : Env) (msg : value) (s : MinerSession) :
  (method_of msg = VNone /\ exists e, _dispatch env msg s = (Raise e, s))
  \/ exists id params,
       _dispatch env msg s = route env (method_of msg) id params s.
Proof.
  destruct msg as [| | | | |l|d];
    try (left; split; [reflexivity|eexists; reflexivity]).
  right. unfold _dispatch, route, method_of, bind, lift, msg_get.
  destruct (PyDict.get "method" d), (PyDict.get "id" d), (PyDict.get "params" d);
    do 2 eexists; reflexivity.
Qed.

Ltac split_route :=
  unfold route;
  repeat match goal with
         | |- preserves _ (if ?b then _ else _) => destruct b eqn:?
         end.

Lemma route_no_stale (env : Env) (m id params : value) :
  preserves no_stale (route env m id params).
Proof.
  split_route;
    first [ intros s; eapply shape_no_stale; apply ethproxy_submitwork_shape
          | intros s; eapply shape_no_stale; apply stratum_submit_shape
          | unfold_handlers;
            preserve_with no_stale_refl no_stale_trans send_no_stale ].
Qed.

Lemma route_quiet (env : Env) (m id params : value) :
  is_method m "eth_submitWork" = false ->
  is_method m "mining.submit" = false ->
  preserves quiet (route env m id params).
Proof.
  intros H1 H2. split_route; try congruence;
    unfold_handlers; preserve_with quiet_refl quiet_trans send_quiet.
Qed.

Lemma route_accounted (env : Env) (m id params : value) (s : MinerSession) :
  orb (is_method m "eth_submitWork") (is_method m "mining.submit") = true ->
  accounted s (snd (route env m id params s)).
Proof.
  intros H. apply orb_prop in H as [H|H]; apply is_method_eq in H; subst m;
    unfold route; cbn [is_method String.eqb Ascii.eqb Bool.eqb];
    eapply shape_accounted;
    [apply ethproxy_submitwork_shape|apply stratum_submit_shape].
Qed.

Lemma bind_modify (A : Type) (f : MinerSession -> MinerSession)
    (k : unit -> M A) (s : MinerSession) :
  bind (modify f) k s = k tt (f s).
Proof. reflexivity. Qed.

Lemma route_protocol (env : Env) (m id params : value) (s : MinerSession) :
  protocol (snd (route env m id params s)) = next_protocol m (protocol s).
Proof.
  unfold next_protocol.
  destruct (is_method m "eth_submitLogin") eqn:E1;
    [|destruct (is_method m "mining.subscribe") eqn:E5].
  - unfold route. rewrite E1. unfold _ethproxy_login. rewrite bind_modify.
    match goal with
    | |- protocol (snd (?k ?s0)) = _ =>
        assert (P : preserves same_protocol k)
          by (unfold_handlers;
              preserve_with same_protocol_refl same_protocol_trans send_same_protocol);
        exact (P s0)
    end.
  - apply is_method_eq in E5. subst m. unfold route.
    cbn [is_method String.eqb Ascii.eqb Bool.eqb].
    unfold _stratum_subscribe. rewrite bind_modify.
    match goal with
    | |- protocol (snd (?k ?s0)) = _ =>
        assert (P : preserves same_protocol k)
          by (unfold_handlers;
              preserve_with same_protocol_refl same_protocol_trans send_same_protocol);
        exact (P s0)
    end.
  - assert (P : preserves same_protocol (route env m id params)); [|exact (P s)].
    split_route; try congruence;
      first [ intros s0; eapply shape_same_protocol; apply ethproxy_submitwork_shape
            | intros s0; eapply shape_same_protocol; apply stratum_submit_shape
            | unfold_handlers;
              preserve_with same_protocol_refl same_protocol_trans send_same_protocol ].
Qed.

(* ------------------------------------------------------------------ *)
(** ** Whole runs of a session *)
(* ------------------------------------------------------------------ *)

Lemma send_new_work_preserves (Q : MinerSession -> MinerSession -> Prop)
    (job : Job) (clean : bool) :
  preserves Q (send_stratum_job job clean) ->
  preserves Q (send_ethproxy_job job) ->
  preserves Q (send_new_work job clean).
Proof.
  intros H1 H2 s. unfold send_new_work. destruct (protocol s); auto.
Qed.

Lemma broadcast_quiet (job : Job) (s : MinerSession) : quiet s (broadcast_to job s).
Proof.
  unfold broadcast_to. destruct (_closed s); [apply quiet_refl|].
  apply send_new_work_preserves.
  - apply send_stratum_job_quiet.
  - unfold_handlers. apply send_quiet.
Qed.

Lemma broadcast_no_stale (job : Job) (s : MinerSession) : no_stale s (broadcast_to job s).
Proof.
  unfold broadcast_to. destruct (_closed s); [apply no_stale_refl|].
  apply send_new_work_preserves.
  - apply send_stratum_job_no_stale.
  - unfold_handlers. now apply send_no_stale.
Qed.

Lemma broadcast_same_protocol (job : Job) (s : MinerSession) :
  protocol (broadcast_to job s) = protocol s.
Proof.
  unfold broadcast_to. destruct (_closed s); [reflexivity|].
  apply (@send_new_work_preserves same_protocol).
  - apply send_stratum_job_same_protocol.
  - unfold_handlers. apply send_same_protocol.
Qed.

Lemma close_keeps (s : MinerSession) :
  protocol (snd (close s)) = protocol s /\
  sent (snd (close s)) = sent s /\
  shares_accepted (snd (close s)) = shares_accepted s /\
  shares_rejected (snd (close s)) = shares_rejected s /\
  authorized (snd (close s)) = authorized s /\
  _closed (snd (close s)) = true.
Proof. unfold close. destruct (_closed s) eqn:E; cbn; auto 10. Qed.

Lemma dispatch_protocol (env : Env) (msg : value) (s : MinerSession) :
  protocol (snd (_dispatch env msg s)) = next_protocol (method_of msg) (protocol s).
Proof.
  destruct (dispatch_route env msg s) as [(Hm & e & ->)|(id & params & ->)].
  - now rewrite Hm.
  - apply route_protocol.
Qed.

Lemma dispatch_no_stale (env : Env) (msg : value) (s : MinerSession) :
  no_stale s (snd (_dispatch env msg s)).
Proof.
  destruct (dispatch_route env msg s) as [(Hm & e & ->)|(id & params & ->)].
  - apply no_stale_refl.
  - apply route_no_stale.
Qed.

Lemma run_loop_no_stale (events : list Event) :
  forall s, no_stale s (snd (run_loop events s)).
Proof.
  induction events as [|[l env|job] rest IH]; intros s; cbn [run_loop].
  - apply no_stale_refl.
  - destruct (_closed s); [apply no_stale_refl|].
    destruct l as [| |msg]; try apply IH.
    unfold bind. pose proof (dispatch_no_stale env msg s) as H.
    destruct (_dispatch env msg s) as [[u|e] s1]; cbn [snd] in *.
    + eapply no_stale_trans; [exact H|apply IH].
    + exact H.
  - eapply no_stale_trans; [apply broadcast_no_stale|apply IH].
Qed.

Lemma run_loop_protocol (events : list Event) :
  forall s,
    protocol (snd (run_loop events s))
    = protocol_after (handled events s) (protocol s).
Proof.
  induction events as [|[l env|job] rest IH]; intros s;
    cbn [run_loop handled]; [reflexivity| |].
  - destruct (_closed s); [reflexivity|].
    destruct l as [| |msg]; try (rewrite IH; reflexivity).
    unfold bind. pose proof (dispatch_protocol env msg s) as H.
    destruct (_dispatch env msg s) as [[u|e] s1]; cbn [snd] in *.
    + rewrite IH, H. reflexivity.
    + rewrite H. reflexivity.
  - rewrite IH, broadcast_same_protocol. reflexivity.
Qed.

Lemma skipn_sent (A : Type) (l fs : list A) : skipn (List.length l) (l ++ fs) = fs.
Proof. induction l; cbn; auto. Qed.

Lemma is_submit_route (msg : value) :
  is_submit msg = false ->
  is_method (method_of msg) "eth_submitWork" = false
  /\ is_method (method_of msg) "mining.submit" = false.
Proof. unfold is_submit. intros H. now apply orb_false_elim in H. Qed.

(** Along a run on a reliable connection the counters move by the verdicts
    among the replies to submit requests, and by nothing else. *)
Lemma run_loop_accounted (events : list Event) :
  forall s, reliable s ->
  let s' := snd (run_loop events s) in
  let fs := submit_responses events s in
  Forall (fun f => is_submit_reply f = true) fs /\
  shares_accepted s' = shares_accepted s + List.length (filter is_accept fs) /\
  shares_rejected s' = shares_rejected s + List.length (filter is_reject fs).
Proof.
  induction events as [|[l env|job] rest IH]; intros s Hr;
    cbn [run_loop submit_responses].
  - cbn. auto.
  - destruct Hr as (Hc & Hl). rewrite Hc.
    assert (Hr : reliable s) by (split; assumption).
    destruct l as [| |msg]; try (apply IH; assumption).
    unfold bind.
    destruct (dispatch_route env msg s) as [(Hm & e & E)|(id & params & E)].
    + rewrite E. cbn [snd]. unfold is_submit. rewrite Hm. cbn. auto.
    + destruct (is_submit msg) eqn:Es.
      * pose proof (@route_accounted env (method_of msg) id params s Es Hr) as (Hr1 & fs & Hs & Hf & Ha & Hj).
        rewrite <- E in Hr1, Hs, Ha, Hj.
        destruct (_dispatch env msg s) as [[u|e] s1]; cbn [snd] in *;
          rewrite Hs, skipn_sent.
        -- destruct (IH s1 Hr1) as (Hf' & Ha' & Hj'). cbv zeta.
           rewrite !filter_app, !length_app, Ha', Hj', Ha, Hj.
           split; [now apply Forall_app|lia].
        -- rewrite app_nil_r. auto.
      * destruct (is_submit_route msg Es) as (H1 & H2).
        pose proof (@route_quiet env (method_of msg) id params H1 H2 s) as (Ha & Hj & Hr1).
        rewrite <- E in Ha, Hj, Hr1. specialize (Hr1 Hr).
        destruct (_dispatch env msg s) as [[u|e] s1]; cbn [snd app] in *.
        -- destruct (IH s1 Hr1) as (Hf' & Ha' & Hj'). cbv zeta.
           rewrite Ha', Hj', Ha, Hj. auto.
        -- cbn. split; [constructor|lia].
  - destruct (broadcast_quiet job s) as (Ha & Hj & Hr1).
    destruct (IH _ (Hr1 Hr)) as (Hf' & Ha' & Hj'). cbv zeta.
    rewrite Ha', Hj', Ha, Hj. auto.
Qed.

Lemma filter_partition_length (fs : list Frame) :
  Forall (fun f => is_submit_reply f = true) fs ->
  List.length (filter is_accept fs) + List.length (filter is_reject fs)
  = List.length (filter (fun f => negb (is_refusal f)) fs).
Proof.
  induction 1 as [|f fs Hf _ IH]; [reflexivity|]. cbn [filter].
  destruct (is_refusal f) eqn:Er.
  - destruct (refusal_exclusive f Er) as (-> & -> & _). exact IH.
  - unfold is_submit_reply in Hf. rewrite Er, orb_false_r in Hf.
    destruct (is_accept f) eqn:Ea; destruct (is_reject f) eqn:Ej;
      cbn [negb List.length]; try discriminate; try lia.
    destruct f; discriminate.
Qed.

Lemma dispatch_request (env : Env) (id : value) (method : string) (params : value) :
  _dispatch env (request id method params) = route env (VStr method) id params.
Proof. reflexivity. Qed.

Lemma reliable_init (wire : list bool) :
  Forall (fun ok => ok = true) wire -> reliable (MinerSession_init wire).
Proof. now split. Qed.

(* ------------------------------------------------------------------ *)
(** ** Share accounting *)
(* ------------------------------------------------------------------ *)

(** C2, as stated, fails: a [mining.submit] on a session that has not
    authorized is answered with error 24 and no counter moves, so one reply
    to a submit request has been written while the counters add up to 0. *)
Lemma refusal_is_not_counted :
  let events := [Recv (Json (short_submit "0x1")) one_job_env] in
  let s := run events (MinerSession_init []) in
  submit_responses events (MinerSession_init []) = [Error (VInt 2) 24 "Not authorized"]
  /\ sent s = [Error (VInt 2) 24 "Not authorized"]
  /\ shares_accepted s + shares_rejected s = 0
  /\ shares_accepted s + shares_rejected s
     <> List.length (submit_responses events (MinerSession_init [])).
Proof. vm_compute. repeat split. discriminate. Qed.

(** The other way round: when the write of the reply fails, the share has
    been counted and no reply was written.  Here the login reply goes out
    and the reply to the accepted solution meets a broken pipe. *)
Example lost_reply_is_counted :
  let events :=
    [Recv (Json login_request) one_job_env;
     Recv (Json (request (VInt 2) "eth_submitWork"
                   (VList [VStr "0xabc"; VStr "0xaa"; VStr "0xd1d1"]))) one_job_env] in
  let s := run events (MinerSession_init [true; false]) in
  submit_responses events (MinerSession_init [true; false]) = []
  /\ shares_accepted s = 1.
Proof. vm_compute. repeat split. Qed.

(** C2, amended.  On a connection whose writes succeed, after any sequence
    of received lines and work pushes, [shares_accepted] is the number of
    [true] results and [shares_rejected] the number of ["Rejected: ..."]
    errors among the replies written to submit requests; every other reply
    to a submit request is one of the four refusals (not authorized, not
    enough parameters, need nonce/header/mix, job not found), which move no
    counter.  So the two counters add up to the number of replies to
    submit requests that are not refusals. *)
Theorem counters_count_verdicts (events : list Event) (wire : list bool) :
  Forall (fun ok => ok = true) wire ->
  let s := run events (MinerSession_init wire) in
  let fs := submit_responses events (MinerSession_init wire) in
  shares_accepted s = List.length (filter is_accept fs) /\
  shares_rejected s = List.length (filter is_reject fs) /\
  Forall (fun f => is_accept f = true \/ is_reject f = true \/ is_refusal f = true) fs /\
  shares_accepted s + shares_rejected s
  = List.length (filter (fun f => negb (is_refusal f)) fs).
Proof.
  intros Hw s fs.
  destruct (run_loop_accounted events (reliable_init Hw)) as (Hf & Ha & Hj).
  fold fs in Hf, Ha, Hj. cbn [MinerSession_init shares_accepted shares_rejected] in Ha, Hj.
  destruct (close_keeps (snd (run_loop events (MinerSession_init wire))))
    as (_ & _ & Ca & Cj & _).
  unfold s, run. rewrite Ca, Cj, Ha, Hj. cbn [Nat.add].
  repeat split.
  - eapply Forall_impl; [|exact Hf]. cbv beta. unfold is_submit_reply. intros f H.
    apply orb_prop in H as [H|H]; [auto|]. apply orb_prop in H as [H|H]; auto.
  - now apply filter_partition_length.
Qed.

(** C2 amended, on a session that authorizes, submits a full solution
    that the node accepts, and then submits for an unknown job. *)
Lemma counters_count_verdicts_witness :
  let events :=
    [Recv (Json authorize_request) one_job_env;
     Recv (Json (request (VInt 3) "mining.submit"
                   (VList [VStr "worker1"; VStr "0x1"; VStr "0xabc";
                           VStr "0xaa"; VStr "0xd1d1"]))) one_job_env;
     Recv (Json (short_submit "0x99")) one_job_env] in
  Forall (fun ok => ok = true) [true; true; true; true; true] /\
  shares_accepted (run events (MinerSession_init [true; true; true; true; true])) = 1 /\
  shares_rejected (run events (MinerSession_init [true; true; true; true; true])) = 0 /\
  List.length (submit_responses events (MinerSession_init [true; true; true; true; true])) = 2.
Proof.
  cbv zeta.
  assert (Hw : Forall (fun ok => ok = true) [true; true; true; true; true])
    by (repeat constructor).
  split; [exact Hw|].
  destruct (counters_count_verdicts
              [Recv (Json authorize_request) one_job_env;
               Recv (Json (request (VInt 3) "mining.submit"
                             (VList [VStr "worker1"; VStr "0x1"; VStr "0xabc";
                                     VStr "0xaa"; VStr "0xd1d1"]))) one_job_env;
               Recv (Json (short_submit "0x99")) one_job_env] Hw)
    as (Ha & Hj & _ & _).
  split; [exact Ha|]. split; [exact Hj|]. reflexivity.
Defined.

(* ------------------------------------------------------------------ *)
(** ** Stratum submissions *)
(* ------------------------------------------------------------------ *)

(** C3, as stated, fails: a fresh session authorizes and submits three
    parameters for a job id that is not cached; error 21 is replied, but
    [shares_rejected] stays 0. *)
Lemma unknown_job_is_not_counted :
  let events := [Recv (Json authorize_request) empty_env;
                 Recv (Json (short_submit "0x99")) empty_env] in
  let s := run events (MinerSession_init []) in
  sent s = [Result (VInt 1) (VBool true);
            Error (VInt 2) 21 "Job not found, can't reconstruct submission"]
  /\ shares_rejected s = 0
  /\ shares_rejected s <> 1.
Proof. vm_compute. repeat split. discriminate. Qed.

(** C3, amended.  An authorized session that receives [mining.submit]
    with exactly three parameters whose job id is not in the cache replies
    error [21, "Job not found, can't reconstruct submission", null] (the
    frame is written when the connection is reliable) and leaves both share
    counters as they were. *)
Theorem unknown_job_is_refused (env : Env) (id worker jid nonce : value)
    (s : MinerSession) :
  authorized s = true ->
  find_job jid VNone (job_manager env) = Return None ->
  let out := _dispatch env (request id "mining.submit" (VList [worker; jid; nonce])) s in
  out = _send_error id 21 "Job not found, can't reconstruct submission" s /\
  fst out = Return tt /\
  shares_rejected (snd out) = shares_rejected s /\
  shares_accepted (snd out) = shares_accepted s /\
  (reliable s ->
   sent (snd out)
   = sent s ++ [Error id 21 "Job not found, can't reconstruct submission"]).
Proof.
  intros Ha Hf out.
  assert (E : out = _send_error id 21 "Job not found, can't reconstruct submission" s).
  { unfold out. rewrite dispatch_request. unfold route.
    cbn [is_method String.eqb Ascii.eqb Bool.eqb].
    unfold _stratum_submit, bind, get_session, lift, ret.
    rewrite Ha. cbn [negb py_len List.length Nat.ltb Nat.leb py_getitem nth_error].
    rewrite Hf. reflexivity. }
  split; [exact E|]. rewrite E. unfold _send_error.
  destruct (send_json_cases
              (Error id 21 "Job not found, can't reconstruct submission") s)
    as (H1 & _ & _ & _ & H2 & H3 & _ & H4).
  repeat split; auto. intros Hr. now apply H4.
Qed.

(** C3 amended, on a session that has authorized and an empty cache. *)
Lemma unknown_job_is_refused_witness :
  let s := snd (run_loop [Recv (Json authorize_request) empty_env] (MinerSession_init [])) in
  authorized s = true /\
  find_job (VStr "0x99") VNone (job_manager empty_env) = Return None /\
  shares_rejected (snd (_dispatch empty_env (short_submit "0x99") s)) = 0.
Proof.
  cbv zeta. split; [reflexivity|]. split; [reflexivity|].
  exact (proj1 (proj2 (proj2
    (@unknown_job_is_refused empty_env (VInt 2) (VStr "worker1") (VStr "0x99")
       (VStr "0xabc")
       (snd (run_loop [Recv (Json authorize_request) empty_env] (MinerSession_init [])))
       eq_refl eq_refl)))).
Defined.

(** A three-parameter submit for a cached job never reaches the node: the
    mix digest is [None] and [submit_solution] raises on it. *)
Lemma short_submit_raises (env : Env) (id worker jid nonce : value) (job : Job)
    (s : MinerSession) :
  authorized s = true ->
  find_job jid VNone (job_manager env) = Return (Some job) ->
  _dispatch env (request id "mining.submit" (VList [worker; jid; nonce])) s
  = (Raise AttributeError, s).
Proof.
  intros Ha Hf. rewrite dispatch_request. unfold route.
  cbn [is_method String.eqb Ascii.eqb Bool.eqb].
  unfold _stratum_submit, bind, get_session, lift, ret.
  rewrite Ha. cbn [negb py_len List.length Nat.ltb Nat.leb py_getitem nth_error].
  rewrite Hf. cbn [header_of truthy negb orb andb].
  rewrite andb_false_r.
  unfold submit_solution. destruct nonce; reflexivity.
Qed.

(** C4 (the code departs from it).  An authorized session submits three
    parameters for the cached job [0x1]: the job is found, the header is
    rebuilt, the mix digest is [None]; [submit_solution] raises
    [AttributeError] on [mix_digest.startswith], nothing is forwarded, no
    reply is written, and [run] closes the session without reading the
    line that follows. *)
Theorem incomplete_submit_closes_session :
  let s := snd (run_loop [Recv (Json authorize_request) one_job_env] (MinerSession_init [])) in
  let events := [Recv (Json authorize_request) one_job_env;
                 Recv (Json (short_submit "0x1")) one_job_env;
                 Recv (Json (request (VInt 3) "eth_getWork" (VList []))) one_job_env] in
  find_job (VStr "0x1") VNone one_job_manager
  = Return (Some (mkJob "0x1" "0xaa" "0x5eed" "0x00ff")) /\
  submit_solution node_accepts (VStr "0xabc") (VStr "0xaa") VNone = Raise AttributeError /\
  _dispatch one_job_env (short_submit "0x1") s = (Raise AttributeError, s) /\
  submit_responses events (MinerSession_init []) = [] /\
  _closed (run events (MinerSession_init [])) = true /\
  sent (run events (MinerSession_init [])) = sent s.
Proof. vm_compute. repeat split. Qed.

(* ------------------------------------------------------------------ *)
(** ** Dialect detection *)
(* ------------------------------------------------------------------ *)

(** C7 (the code departs from it).  The dialect is not settled by the
    first dialect-exclusive message: a session whose first message is
    [eth_submitLogin] has the protocol [ethproxy], and a [mining.subscribe]
    received after it changes the protocol to [stratum]; a session whose
    first message is [mining.authorize] keeps the protocol [unknown]. *)
Theorem protocol_is_rewritten :
  protocol (run [Recv (Json login_request) empty_env] (MinerSession_init [])) = ethproxy
  /\ protocol (run [Recv (Json login_request) empty_env;
                    Recv (Json subscribe_request) empty_env] (MinerSession_init []))
     = stratum
  /\ protocol (run [Recv (Json authorize_request) empty_env] (MinerSession_init []))
     = unknown.
Proof. vm_compute. repeat split. Qed.

(** Where the assignments to [protocol] are.  [_ethproxy_login] assigns
    [ethproxy] and [_stratum_subscribe] assigns [stratum] without looking
    at the value held; [_stratum_authorize], every other request, a line
    that is not a JSON object, a work push and [close] assign nothing.
    After a run the field is what the requests handled until the loop
    ended made of it. *)
Lemma protocol_follows_login_and_subscribe :
  (forall env msg s,
     protocol (snd (_dispatch env msg s))
     = next_protocol (method_of msg) (protocol s)) /\
  (forall p,
     next_protocol (VStr "eth_submitLogin") p = ethproxy /\
     next_protocol (VStr "mining.subscribe") p = stratum /\
     next_protocol (VStr "mining.authorize") p = p /\
     next_protocol (VStr "mining.submit") p = p /\
     next_protocol VNone p = p) /\
  (forall job s, protocol (broadcast_to job s) = protocol s) /\
  (forall events s,
     protocol (run events s) = protocol_after (handled events s) (protocol s)).
Proof.
  split; [exact dispatch_protocol|].
  split; [intros p; repeat split|].
  split; [exact broadcast_same_protocol|].
  intros events s. unfold run.
  rewrite (proj1 (close_keeps _)). apply run_loop_protocol.
Qed.

(* ------------------------------------------------------------------ *)
(** ** Work push *)
(* ------------------------------------------------------------------ *)

(** C8, as stated, fails: for a job with an empty boundary the divisor is
    1 and the difficulty sent is [2^256 - 1], not 1.0; for a boundary
    that is not hexadecimal [int] raises [ValueError] and nothing is
    sent. *)
Lemma empty_boundary_gets_top_difficulty :
  sent (snd (send_stratum_job (mkJob "0x1" "0xaa" "0x5eed" "") true (MinerSession_init [])))
  = [difficulty_frame (VFloat (2 ^ 256 - 1) 1);
     notify_frame (mkJob "0x1" "0xaa" "0x5eed" "") true]
  /\ VFloat (2 ^ 256 - 1) 1 <> VFloat 1 1
  /\ send_stratum_job (mkJob "0x1" "0xaa" "0x5eed" "0xzz") true (MinerSession_init [])
     = (Raise ValueError, MinerSession_init []).
Proof. vm_compute. repeat split. discriminate. Qed.

(** A push whose first write fails sends nothing and closes the
    session. *)
Example push_on_broken_pipe :
  let s := snd (send_stratum_job (mkJob "0x1" "0xaa" "0x5eed" "0x00ff") true
                  (MinerSession_init [false])) in
  sent s = [] /\ _closed s = true.
Proof. vm_compute. repeat split. Qed.

(** C8, amended.  For a stratum push of a job whose boundary is empty or
    parses with [int(_, 16)], on a reliable connection:
    [mining.set_difficulty] is written first and [mining.notify] with
    [job_id, seed_hash, header_hash, clean] in that order second, and
    nothing else.  The difficulty is [(2^256 - 1) / b] when the parsed
    boundary [b] is positive and 1.0 when [b] is zero or negative; an
    empty boundary counts as [b = 1]. *)
Theorem stratum_push (job : Job) (clean : bool) (s : MinerSession) (b : Z) :
  reliable s ->
  boundary_int job = Return b ->
  fst (send_stratum_job job clean s) = Return tt /\
  sent (snd (send_stratum_job job clean s))
  = sent s ++ [difficulty_frame (difficulty b); notify_frame job clean] /\
  difficulty b = (if Z.ltb 0 b then VFloat (2 ^ 256 - 1) (Z.to_pos b) else VFloat 1 1) /\
  (boundary job = "" -> b = 1%Z) /\
  (boundary job <> "" -> int16 (boundary job) = Some b).
Proof.
  intros Hr Hb. unfold send_stratum_job, bind, lift, _send_notification.
  rewrite Hb.
  destruct (send_json_cases (difficulty_frame (difficulty b)) s)
    as (H1 & _ & _ & _ & _ & _ & _ & H2).
  destruct (H2 Hr) as (Hr1 & Hs1).
  fold (difficulty_frame (difficulty b)). fold (notify_frame job clean).
  destruct (_send_json (difficulty_frame (difficulty b)) s) as [[[]|e] s1];
    cbn [fst snd] in *; [|discriminate].
  destruct (send_json_cases (notify_frame job clean) s1)
    as (H3 & _ & _ & _ & _ & _ & _ & H4).
  destruct (H4 Hr1) as (_ & Hs2).
  split; [exact H3|]. split.
  - rewrite Hs2, Hs1, <- app_assoc. reflexivity.
  - split; [reflexivity|]. unfold boundary_int in Hb.
    split; intros Hx.
    + rewrite Hx in Hb. cbn in Hb. congruence.
    + apply String.eqb_neq in Hx. rewrite Hx in Hb.
      destruct (int16 (boundary job)); congruence.
Qed.

(** C8 amended, on the job of a node whose boundary is [0x00ff]. *)
Lemma stratum_push_witness :
  reliable (MinerSession_init [true; true]) /\
  boundary_int (mkJob "0x1" "0xaa" "0x5eed" "0x00ff") = Return 255%Z /\
  sent (snd (send_stratum_job (mkJob "0x1" "0xaa" "0x5eed" "0x00ff") true
               (MinerSession_init [true; true])))
  = [difficulty_frame (VFloat (2 ^ 256 - 1) 255);
     notify_frame (mkJob "0x1" "0xaa" "0x5eed" "0x00ff") true].
Proof.
  assert (Hr : reliable (MinerSession_init [true; true]))
    by (split; [reflexivity|repeat constructor]).
  split; [exact Hr|]. split; [reflexivity|].
  exact (proj1 (proj2
    (@stratum_push (mkJob "0x1" "0xaa" "0x5eed" "0x00ff") true
       (MinerSession_init [true; true]) 255%Z Hr eq_refl))).
Defined.

(* ------------------------------------------------------------------ *)
(** ** The result of [submit_solution] *)
(* ------------------------------------------------------------------ *)

(** C9. [submit_solution] never returns ["job-not-found"]: when it
    returns, the result is ["accepted"], ["rejected"] or starts with
    ["error: "], whatever its arguments and whatever the node does.  So no
    session ever writes the reply [21, "Job not found (stale)"] of the
    branch of [_stratum_submit] that tests for that string. *)
Theorem stale_branch_unreachable :
  (forall up nonce hh md,
     submit_solution up nonce hh md <> Return "job-not-found") /\
  (forall up nonce hh md,
     match submit_solution up nonce hh md with
     | Return r => r = "accepted" \/ r = "rejected" \/ startswith r "error: " = true
     | Raise _ => True
     end) /\
  (forall env id params s,
     Forall (fun f => is_stale_reply f = false)
            (skipn (List.length (sent s)) (sent (snd (_stratum_submit env id params s))))) /\
  (forall events wire,
     Forall (fun f => is_stale_reply f = false)
            (sent (run events (MinerSession_init wire)))).
Proof.
  split; [exact submit_solution_not_stale|]. split; [|split].
  - intros up nonce hh md.
    destruct (submit_solution up nonce hh md) as [r|e] eqn:E; [|exact I].
    exact (submit_solution_results _ _ _ _ E).
  - intros env id params s.
    destruct (shape_no_stale (stratum_submit_shape env id params s)) as (fs & E & H).
    now rewrite E, skipn_sent.
  - intros events wire. unfold run. rewrite (proj1 (proj2 (close_keeps _))).
    destruct (run_loop_no_stale events (MinerSession_init wire)) as (fs & E & H).
    now rewrite E.
Qed.

(* ------------------------------------------------------------------ *)
(** ** More on the job manager *)
(* ------------------------------------------------------------------ *)

Lemma prune_keeps_current (s : JobManager) :
  current_job (snd (prune s)) = current_job s
  /\ _counter (snd (prune s)) = _counter s.
Proof.
  unfold prune. destruct (Nat.ltb 20 (List.length (jobs s))); [|auto].
  destruct (old_ids s) as [ids|]; [|auto].
  destruct (fold_left evict ids (jobs s, _by_header s)); cbn; auto.
Qed.

Lemma poll_work_state (r : option (list string)) (s : JobManager) :
  (poll_work r s = (Return None, s))
  \/ exists h sd b rest,
       r = Some (h :: sd :: b :: rest)
       /\ snd (poll_work r s) = snd (prune (snd (new_job h sd b s))).
Proof.
  destruct r as [[|h [|sd [|b rest]]]|]; try (now left).
  unfold poll_work.
  destruct (match current_job s with
            | Some c => String.eqb (header_hash c) h
            | None => false
            end); [now left|right].
  exists h, sd, b, rest. split; [reflexivity|].
  destruct (new_job h sd b s) as [job s1]. cbn [snd].
  destruct (prune s1) as [[u|e] s2]; reflexivity.
Qed.

(** X1. Whatever sequence of answers (each [None] or a list of strings)
    the polls have seen, the next [poll_work] returns: the [int(x, 16)] of
    the pruning sort never meets a key it cannot parse. *)
Theorem poll_work_never_raises :
  forall rs r, exists o, fst (poll_work r (poll_all rs JobManager_init)) = Return o.
Proof.
  intros rs r. destruct (poll_all_tracks rs tracks_init) as (more & T).
  destruct (no_change_dec r (poll_all rs JobManager_init))
    as [H|(h & sd & b & rest & -> & Hd)].
  - exists None. now rewrite poll_work_no_change.
  - destruct (poll_work_new sd b rest T Hd) as (s' & E & _).
    rewrite E. eexists; reflexivity.
Qed.

(** X2. After a poll that saw an answer of at least three items, whatever
    the state of the manager, the current job carries the header of that
    answer.  When the header is the one of the job that was current
    before, that job stays current as it is: a seed or boundary that
    changed under the same header is not taken over. *)
Theorem current_job_follows_header :
  forall s h sd b rest,
    let s' := snd (poll_work (Some (h :: sd :: b :: rest)) s) in
    exists j,
      current_job s' = Some j /\ header_hash j = h /\
      match current_job s with
      | Some c =>
          if String.eqb (header_hash c) h then j = c
          else j = mkJob (hex (_counter s + 1)) h sd b
      | None => j = mkJob (hex (_counter s + 1)) h sd b
      end.
Proof.
  intros s h sd b rest s'.
  assert (Hnew : current_job (snd (prune (snd (new_job h sd b s))))
                 = Some (mkJob (hex (_counter s + 1)) h sd b)).
  { now rewrite (proj1 (prune_keeps_current _)). }
  assert (Hs : forall (t : outcome unit * JobManager) (j : Job),
             snd (match t with
                  | (Return _, s2) => (Return (Some j), s2)
                  | (Raise e, s2) => (Raise e, s2)
                  end) = snd t).
  { intros [[u|e] s2] j; reflexivity. }
  unfold s', poll_work.
  destruct (current_job s) as [c|] eqn:Ec.
  - destruct (String.eqb_spec (header_hash c) h) as [E|N].
    + exists c. cbn [snd]. auto.
    + unfold new_job at 1. rewrite Hs.
      eexists; split; [exact Hnew|]. split; reflexivity.
  - unfold new_job at 1. rewrite Hs.
    eexists; split; [exact Hnew|]. split; reflexivity.
Qed.

Lemma issued_tracks (rs : list (option (list string))) :
  forall created s,
    tracks created s -> tracks (created ++ issued rs s) (poll_all rs s).
Proof.
  induction rs as [|r rs IH]; intros created s T; cbn [issued poll_all fold_left].
  - now rewrite app_nil_r.
  - destruct (no_change_dec r s) as [H|(h & sd & b & rest & -> & Hd)].
    + rewrite (poll_work_no_change r s H). cbn [snd]. now apply IH.
    + destruct (poll_work_new sd b rest T Hd) as (s' & E & _ & T' & _).
      rewrite E. cbn [snd]. specialize (IH _ _ T').
      now rewrite <- app_assoc in IH.
Qed.

(** X3. The jobs that a job manager returns over any sequence of polls
    are numbered 0x1, 0x2, ... in the order they were issued, so no two of
    them share an id; the counter is the number of jobs issued and the
    current job is the last one issued. *)
Theorem issued_ids_are_sequential :
  forall rs,
    let js := issued rs JobManager_init in
    let s := poll_all rs JobManager_init in
    map job_id js = map nth_id (seq 1 (List.length js)) /\
    NoDup (map job_id js) /\
    _counter s = N.of_nat (List.length js) /\
    current_job s = hd_error (rev js).
Proof.
  intros rs js s.
  destruct (issued_tracks rs tracks_init) as (Hc & _ & Hid & Hcur).
  cbn [app] in *. fold js in Hc, Hid, Hcur. fold s in Hc, Hcur.
  repeat split; try assumption.
  rewrite Hid. apply nth_id_NoDup.
Qed.

Lemma nth_id_nonempty (i : nat) : nth_id i <> "".
Proof. unfold nth_id, hex. destruct (N.of_nat i); discriminate. Qed.

Lemma tracks_get (created : list Job) (s : JobManager) (k : string) (j : Job) :
  tracks created s -> PyDict.get k (jobs s) = Some j ->
  job_id j = k /\ k <> "".
Proof.
  intros T H. pose proof (get_in _ _ H) as Hin.
  assert (Hk : In k (PyDict.keys (jobs s))).
  { apply in_map_iff. now exists (k, j). }
  rewrite (tracks_keys T) in Hk. apply in_map_iff in Hk as (i & <- & _).
  destruct T as (_ & Hj & _). rewrite Hj in Hin.
  apply in_map_iff in Hin as (j' & [= E1 E2] & _). subst j'.
  split; [assumption|apply nth_id_nonempty].
Qed.

Lemma tracks_current_cached (created : list Job) (s : JobManager) (c : Job) :
  tracks created s -> current_job s = Some c ->
  PyDict.get (job_id c) (jobs s) = Some c.
Proof.
  intros T Hc. pose proof T as (_ & _ & _ & Hcur). rewrite Hcur in Hc.
  destruct (rev created) as [|x l] eqn:E; [discriminate|]. injection Hc as ->.
  assert (Hcr : created = rev l ++ [c]).
  { rewrite <- (rev_involutive created), E. reflexivity. }
  rewrite Hcr in T. exact (@tracks_get_last _ _ _ T).
Qed.

(** X4. In every state a job manager reaches, each job held in [jobs] is
    filed under its own id and [find_job] by that id returns it, whatever
    the header argument; the current job is always among them. *)
Theorem cached_jobs_are_found_by_id :
  forall rs,
    let s := poll_all rs JobManager_init in
    (forall k hh,
       match PyDict.get k (jobs s) with
       | Some j => job_id j = k /\ find_job (VStr k) hh s = Return (Some j)
       | None => True
       end) /\
    match current_job s with
    | Some c => find_job (VStr (job_id c)) VNone s = Return (Some c)
    | None => jobs s = []
    end.
Proof.
  intros rs s. destruct (poll_all_tracks rs tracks_init) as (more & T).
  cbn [app] in T. fold s in T.
  assert (Hfind : forall k j, PyDict.get k (jobs s) = Some j ->
                              job_id j = k /\ forall hh, find_job (VStr k) hh s = Return (Some j)).
  { intros k j H. destruct (@tracks_get _ _ _ _ T H) as (Hid & Hne). split; [assumption|].
    intros hh. unfold find_job. cbn [truthy].
    apply String.eqb_neq in Hne. rewrite Hne. cbn [negb]. now rewrite H. }
  split.
  - intros k hh. destruct (PyDict.get k (jobs s)) as [j|] eqn:E; [|exact I].
    destruct (Hfind k j E). auto.
  - destruct (current_job s) as [c|] eqn:Ec.
    + apply Hfind. exact (@tracks_current_cached _ _ _ T Ec).
    + destruct T as (_ & Hj & _ & Hcur). rewrite Ec in Hcur.
      destruct (rev more) eqn:E; [|discriminate].
      apply (f_equal (@rev _)) in E. rewrite rev_involutive in E. cbn in E.
      rewrite Hj, E. reflexivity.
Qed.

Lemma get_pop (V : Type) (k k0 : string) (v : V) (d : PyDict.t V) :
  NoDup (PyDict.keys d) ->
  PyDict.get k (PyDict.pop k0 d) = Some v ->
  k <> k0 /\ PyDict.get k d = Some v.
Proof.
  induction d as [|[k' v'] d IH]; cbn; [discriminate|].
  intros Hnd. inversion Hnd as [|? ? Hnotin Hnd']; subst.
  destruct (String.eqb_spec k0 k') as [->|N0]; cbn.
  - intros H. destruct (String.eqb_spec k k') as [->|N]; [|auto].
    destruct Hnotin. apply get_in in H. apply in_map_iff. now exists (k', v).
  - destruct (String.eqb_spec k k') as [->|N]; [intros H; split; congruence|].
    now apply IH.
Qed.

Lemma index_sound_init : index_sound JobManager_init.
Proof. intros k j H. discriminate. Qed.

Lemma index_sound_new_job (s : JobManager) (h sd b : string) :
  PyDict.get (hex (_counter s + 1)) (jobs s) = None ->
  index_sound s -> index_sound (snd (new_job h sd b s)).
Proof.
  intros Hfresh I k j. unfold new_job. cbn [snd jobs _by_header].
  rewrite (@set_fresh _ _ (mkJob (hex (_counter s + 1)) h sd b) _ Hfresh).
  destruct (String.eqb_spec k (lower h)) as [->|N].
  - rewrite get_set_same. intros [= <-]. split; [reflexivity|].
    apply in_or_app. right. now left.
  - rewrite get_set_other by assumption. intros H.
    destruct (I k j H). split; [assumption|]. apply in_or_app. now left.
Qed.

Lemma index_sound_pruned (s1 s' : JobManager) :
  pruned s1 s' -> header_index_ok s1 -> index_sound s1 -> index_sound s'.
Proof.
  intros [->|(j0 & Hj & Hb)] (Hnd & _) I; [assumption|].
  intros k j H. rewrite Hb in H.
  apply (@get_pop _ _ _ _ _ Hnd) in H as (Hneq & H).
  destruct (I k j H) as (Hk & Hin). split; [assumption|].
  rewrite Hj in Hin. destruct Hin as [E|Hin]; [|assumption].
  injection E as _ ->. congruence.
Qed.

Lemma poll_work_invariants (created : list Job) (s : JobManager)
    (r : option (list string)) :
  tracks created s -> header_index_ok s -> index_sound s ->
  exists more,
    tracks (created ++ more) (snd (poll_work r s))
    /\ header_index_ok (snd (poll_work r s))
    /\ index_sound (snd (poll_work r s)).
Proof.
  intros T I S. destruct (no_change_dec r s) as [H|(h & sd & b & rest & -> & Hd)].
  - exists []. rewrite app_nil_r, poll_work_no_change by assumption. auto.
  - pose proof (index_ok_poll (Some (h :: sd :: b :: rest)) T I) as I'.
    destruct (poll_work_new sd b rest T Hd) as (s' & E & _ & T' & P).
    rewrite E in *. cbn [snd] in *. eexists. split; [exact T'|]. split; [exact I'|].
    destruct (tracks_fresh_id T) as (Hhex & Hfresh). rewrite <- Hhex in Hfresh.
    apply (index_sound_pruned P).
    + now apply index_ok_new_job.
    + now apply index_sound_new_job.
Qed.

Lemma poll_all_invariants (rs : list (option (list string))) :
  forall created s,
    tracks created s -> header_index_ok s -> index_sound s ->
    exists more,
      tracks (created ++ more) (poll_all rs s)
      /\ header_index_ok (poll_all rs s)
      /\ index_sound (poll_all rs s).
Proof.
  induction rs as [|r rs IH]; intros created s T I S.
  - exists []. rewrite app_nil_r. auto.
  - destruct (poll_work_invariants r T I S) as (m1 & T1 & I1 & S1).
    destruct (IH _ _ T1 I1 S1) as (m2 & T2 & I2 & S2).
    exists (m1 ++ m2). rewrite app_assoc. auto.
Qed.

(** X5. In every state a job manager reaches, the header index holds no
    stale entry: each entry is filed under the lowercased header of its
    job and that job is still held in [jobs] under its id.  So a lookup by
    header, in any letter case, returns only a job that is cached and has
    that header; and the index is never larger than [jobs]. *)
Theorem header_index_has_no_stale_entry :
  forall rs,
    let s := poll_all rs JobManager_init in
    (forall k,
       match PyDict.get k (_by_header s) with
       | Some j => lower (header_hash j) = k
                   /\ PyDict.get (job_id j) (jobs s) = Some j
       | None => True
       end) /\
    (forall h,
       match find_job VNone (VStr h) s with
       | Return (Some j) => lower (header_hash j) = lower h
                            /\ find_job (VStr (job_id j)) VNone s = Return (Some j)
       | Return None => True
       | Raise _ => False
       end) /\
    List.length (_by_header s) <= List.length (jobs s).
Proof.
  intros rs s.
  destruct (poll_all_invariants rs tracks_init index_ok_init index_sound_init)
    as (more & T & Hok & Hsound).
  cbn [app] in T. fold s in T, Hok, Hsound.
  assert (Hk : forall k j, PyDict.get k (_by_header s) = Some j ->
                           lower (header_hash j) = k
                           /\ PyDict.get (job_id j) (jobs s) = Some j).
  { intros k j H. destruct (Hsound k j H) as (Hl & Hin). split; [assumption|].
    apply get_of_in; [|exact Hin].
    rewrite (tracks_keys T). apply nth_id_NoDup. }
  split; [|split].
  - intros k. destruct (PyDict.get k (_by_header s)) as [j|] eqn:E; [|exact I].
    now apply Hk.
  - intros h. unfold find_job at 1. cbn [truthy].
    destruct (negb (String.eqb h "")); [|exact I].
    destruct (PyDict.get (lower h) (_by_header s)) as [j|] eqn:E; [|exact I].
    destruct (Hk _ _ E) as (Hl & Hg). split; [assumption|].
    destruct (@tracks_get _ _ _ _ T Hg) as (_ & Hne).
    unfold find_job. cbn [truthy]. apply String.eqb_neq in Hne.
    now rewrite Hne, Hg.
  - now apply index_size.
Qed.

Lemma length_set_le (V : Type) (k : string) (v : V) (d : PyDict.t V) :
  List.length (PyDict.set k v d) <= S (List.length d).
Proof.
  induction d as [|[k' v'] d IH]; cbn; [lia|].
  destruct (String.eqb k k'); cbn; lia.
Qed.

(** X6. Insert and look up by header.  When a poll brings a new header
    to a manager that holds fewer than 20 jobs, the job it issues is found
    by that header written in any letter case. *)
Theorem new_header_is_found_in_any_case (s : JobManager) (h sd b : string)
    (rest : list string) (h' : string) :
  List.length (jobs s) < 20 ->
  (forall c, current_job s = Some c -> header_hash c <> h) ->
  lower h' = lower h ->
  h' <> "" ->
  find_job VNone (VStr h') (snd (poll_work (Some (h :: sd :: b :: rest)) s))
  = Return (Some (mkJob (hex (_counter s + 1)) h sd b)).
Proof.
  intros Hlen Hd Hl Hne.
  assert (E : snd (poll_work (Some (h :: sd :: b :: rest)) s) = snd (new_job h sd b s)).
  { destruct (poll_work_state (Some (h :: sd :: b :: rest)) s)
      as [E|(h0 & sd0 & b0 & rest0 & [= <- <- <- <-] & E)].
    - exfalso. unfold poll_work in E.
      destruct (current_job s) as [c|] eqn:Ec.
      + destruct (String.eqb_spec (header_hash c) h) as [Eh|_];
          [now destruct (Hd c eq_refl)|].
        destruct (new_job h sd b s) as [j s1].
        destruct (prune s1) as [[u|e] s2]; discriminate.
      + destruct (new_job h sd b s) as [j s1].
        destruct (prune s1) as [[u|e] s2]; discriminate.
    - rewrite E, prune_small; [reflexivity|].
      unfold new_job. cbn [snd jobs].
      pose proof (length_set_le (hex (_counter s + 1))
                    (mkJob (hex (_counter s + 1)) h sd b) (jobs s)). lia. }
  rewrite E. unfold find_job, new_job. cbn [snd _by_header truthy].
  apply String.eqb_neq in Hne. rewrite Hne, Hl. cbn [negb].
  now rewrite get_set_same.
Qed.

(** X6 on a fresh manager, the header asked for in capitals. *)
Lemma new_header_is_found_in_any_case_witness :
  find_job VNone (VStr "0XAB")
    (snd (poll_work (Some ["0xab"; "0x5eed"; "0xffff"]) JobManager_init))
  = Return (Some (mkJob "0x1" "0xab" "0x5eed" "0xffff")).
Proof.
  apply (@new_header_is_found_in_any_case JobManager_init
           "0xab" "0x5eed" "0xffff" [] "0XAB").
  - cbn. lia.
  - discriminate.
  - reflexivity.
  - discriminate.
Defined.

(* ------------------------------------------------------------------ *)
(** ** More on the solution path *)
(* ------------------------------------------------------------------ *)

Lemma add_0x_prefixed (s : string) : startswith (add_0x s) "0x" = true.
Proof.
  unfold add_0x. destruct (startswith s "0x") eqn:E; [exact E|reflexivity].
Qed.

(** X7. [submit_solution] on three strings returns the verdict of the
    node on the normalised strings and never raises, also when the node
    does; the node is only ever called with arguments that start with
    [0x]; an argument that has the prefix is passed on as it is and
    normalising twice changes nothing.  An argument that is not a string
    raises [AttributeError] before the node is called. *)
Theorem submit_solution_normalises :
  (forall s, startswith (add_0x s) "0x" = true /\ add_0x (add_0x s) = add_0x s) /\
  (forall s, if startswith s "0x" then add_0x s = s else add_0x s = ("0x" ++ s)%string) /\
  (forall up n h m,
     submit_solution up (VStr n) (VStr h) (VStr m)
     = Return (verdict (up (add_0x n) (add_0x h) (add_0x m)))) /\
  (forall up n h m,
     submit_solution up n h m = submit_solution (only_prefixed up) n h m) /\
  (forall up n h m,
     match n, h, m with
     | VStr _, VStr _, VStr _ => True
     | _, _, _ => submit_solution up n h m = Raise AttributeError
     end).
Proof.
  split; [|split; [|split; [|split]]].
  - intros s. split; [apply add_0x_prefixed|].
    unfold add_0x at 1. now rewrite add_0x_prefixed.
  - intros s. unfold add_0x. now destruct (startswith s "0x").
  - intros up n h m. unfold submit_solution, with_0x. fold (add_0x n) (add_0x h) (add_0x m).
    unfold verdict. destruct (up (add_0x n) (add_0x h) (add_0x m)) as [ok|e];
      [destruct (truthy ok)|]; reflexivity.
  - intros up n h m. unfold submit_solution.
    destruct n as [| | | |n| |]; try reflexivity.
    destruct h as [| | | |h| |]; try reflexivity.
    destruct m as [| | | |m| |]; try reflexivity.
    unfold with_0x, only_prefixed. fold (add_0x n) (add_0x h) (add_0x m).
    now rewrite !add_0x_prefixed.
  - intros up n h m. unfold submit_solution.
    destruct n as [| | | |n| |]; try reflexivity.
    destruct h as [| | | |h| |]; try reflexivity.
    destruct m as [| | | |m| |]; reflexivity || exact I.
Qed.

(* ------------------------------------------------------------------ *)
(** ** More on sessions *)
(* ------------------------------------------------------------------ *)

Lemma stays_closed_refl (s : MinerSession) : stays_closed s s.
Proof. intros H. auto. Qed.

Lemma stays_closed_trans (a b c : MinerSession) :
  stays_closed a b -> stays_closed b c -> stays_closed a c.
Proof.
  intros H1 H2 Ha. destruct (H1 Ha) as (Hb & E1). destruct (H2 Hb) as (Hc & E2).
  split; congruence.
Qed.

Lemma send_stays_closed (f : Frame) : preserves stays_closed (_send_json f).
Proof. intros s H. unfold _send_json. rewrite H. auto. Qed.

Lemma stays_authorized_refl (s : MinerSession) : stays_authorized s s.
Proof. intros H. exact H. Qed.

Lemma stays_authorized_trans (a b c : MinerSession) :
  stays_authorized a b -> stays_authorized b c -> stays_authorized a c.
Proof. unfold stays_authorized. auto. Qed.

Lemma send_stays_authorized (f : Frame) : preserves stays_authorized (_send_json f).
Proof.
  intros s H. now rewrite (proj1 (proj2 (send_json_cases f s))).
Qed.

Lemma same_authorized_refl (s : MinerSession) : same_authorized s s.
Proof. reflexivity. Qed.

Lemma same_authorized_trans (a b c : MinerSession) :
  same_authorized a b -> same_authorized b c -> same_authorized a c.
Proof. unfold same_authorized. congruence. Qed.

Lemma send_same_authorized (f : Frame) : preserves same_authorized (_send_json f).
Proof. intros s. apply (send_json_cases f s). Qed.

(** As [preserve_with], with the tactic [leaf] for the assignments. *)
Ltac preserve_by refl trans send leaf :=
  repeat first
    [ apply (@preserves_bind _ trans); [|intros ?]
    | apply (@preserves_ret _ refl)
    | apply (@preserves_lift _ refl)
    | apply (@preserves_get _ refl)
    | apply send
    | match goal with
      | |- preserves _ (modify _) =>
          let s := fresh "s" in
          intros s; unfold modify; cbn [snd]; leaf
      | |- preserves _ (match ?x with _ => _ end) => destruct x
      end ].

Ltac closed_leaf := let H := fresh in intros H; split; [exact H|reflexivity].

Lemma route_stays_closed (env : Env) (m id params : value) :
  preserves stays_closed (route env m id params).
Proof.
  split_route; unfold_handlers; unfold get_session;
    preserve_by stays_closed_refl stays_closed_trans send_stays_closed closed_leaf.
Qed.

Lemma dispatch_stays_closed (env : Env) (msg : value) (s : MinerSession) :
  stays_closed s (snd (_dispatch env msg s)).
Proof.
  destruct (dispatch_route env msg s) as [(_ & e & ->)|(id & params & ->)].
  - apply stays_closed_refl.
  - apply route_stays_closed.
Qed.

Lemma run_loop_closed (events : list Event) :
  forall s, _closed s = true -> run_loop events s = (Return tt, s).
Proof.
  induction events as [|[l env|job] rest IH]; intros s H; cbn [run_loop].
  - reflexivity.
  - now rewrite H.
  - unfold broadcast_to. rewrite H. now apply IH.
Qed.

Lemma run_loop_appends (events : list Event) (s : MinerSession) :
  exists fs, sent (snd (run_loop events s)) = sent s ++ fs.
Proof.
  destruct (run_loop_no_stale events s) as (fs & E & _). now exists fs.
Qed.

(** X8. The [_closed] flag is one-way and a closed session is silent:
    handling a message or receiving a broadcast leaves a closed session
    closed with nothing more written; [run] on a closed session does
    nothing at all; every [run] ends with the session closed, and over a
    run the frames already written are never changed, only added to. *)
Theorem closed_session_is_silent :
  (forall env msg s, stays_closed s (snd (_dispatch env msg s))) /\
  (forall job s, stays_closed s (broadcast_to job s)) /\
  (forall events s, if _closed s then run events s = s else True) /\
  (forall events s,
     _closed (run events s) = true
     /\ exists fs, sent (run events s) = sent s ++ fs).
Proof.
  split; [exact dispatch_stays_closed|]. split; [|split].
  - intros job s H. unfold broadcast_to. rewrite H. auto.
  - intros events s. destruct (_closed s) eqn:E; [|exact I].
    unfold run. rewrite (run_loop_closed events s E). cbn [snd].
    unfold close. now rewrite E.
  - intros events s. unfold run.
    destruct (close_keeps (snd (run_loop events s))) as (_ & Hs & _ & _ & _ & Hc).
    split; [exact Hc|]. rewrite Hs. apply run_loop_appends.
Qed.

Ltac authorized_leaf :=
  first [ reflexivity | let H := fresh in intros H; first [exact H|reflexivity] ].

Lemma route_stays_authorized (env : Env) (m id params : value) :
  preserves stays_authorized (route env m id params).
Proof.
  split_route; unfold_handlers; unfold get_session;
    preserve_by stays_authorized_refl stays_authorized_trans
                send_stays_authorized authorized_leaf.
Qed.

Lemma route_same_authorized (env : Env) (m id params : value) :
  is_method m "eth_submitLogin" = false ->
  is_method m "mining.authorize" = false ->
  preserves same_authorized (route env m id params).
Proof.
  intros H1 H2. split_route; try congruence; unfold_handlers; unfold get_session;
    preserve_by same_authorized_refl same_authorized_trans
                send_same_authorized authorized_leaf.
Qed.

Lemma broadcast_same_authorized (job : Job) (s : MinerSession) :
  authorized (broadcast_to job s) = authorized s.
Proof.
  unfold broadcast_to. destruct (_closed s); [reflexivity|].
  apply (@send_new_work_preserves same_authorized); unfold_handlers;
    preserve_by same_authorized_refl same_authorized_trans
                send_same_authorized authorized_leaf.
Qed.

(** X9. Authorization.  Nothing takes the authorization of a session
    away; only [eth_submitLogin] and [mining.authorize] can give it
    (every other message and every broadcast leave the flag as it is);
    and a [mining.submit] on a session that is not authorized is answered
    with error 24 whatever its parameters, without a job lookup and
    without the node being asked. *)
Theorem authorization_gate :
  (forall env msg s, stays_authorized s (snd (_dispatch env msg s))) /\
  (forall env msg s,
     if orb (is_method (method_of msg) "eth_submitLogin")
            (is_method (method_of msg) "mining.authorize")
     then True
     else authorized (snd (_dispatch env msg s)) = authorized s) /\
  (forall job s, authorized (broadcast_to job s) = authorized s) /\
  (forall env id params s,
     if authorized s then True
     else _dispatch env (request id "mining.submit" params) s
          = _send_error id 24 "Not authorized" s).
Proof.
  split; [|split; [|split]].
  - intros env msg s.
    destruct (dispatch_route env msg s) as [(_ & e & ->)|(id & params & ->)].
    + apply stays_authorized_refl.
    + apply route_stays_authorized.
  - intros env msg s.
    destruct (orb (is_method (method_of msg) "eth_submitLogin")
                  (is_method (method_of msg) "mining.authorize")) eqn:E; [exact I|].
    apply orb_false_elim in E as (E1 & E2).
    destruct (dispatch_route env msg s) as [(_ & e & ->)|(id & params & ->)].
    + reflexivity.
    + now apply route_same_authorized.
  - exact broadcast_same_authorized.
  - intros env id params s. destruct (authorized s) eqn:E; [exact I|].
    rewrite dispatch_request. unfold route.
    cbn [is_method String.eqb Ascii.eqb Bool.eqb].
    unfold _stratum_submit, bind, get_session. now rewrite E.
Qed.

Lemma shape_counters (id : value) (s : MinerSession) (r : outcome unit)
    (s' : MinerSession) :
  submit_shape id s r s' ->
  (shares_accepted s' = shares_accepted s /\ shares_rejected s' = shares_rejected s)
  \/ (shares_accepted s' = S (shares_accepted s) /\ shares_rejected s' = shares_rejected s)
  \/ (shares_accepted s' = shares_accepted s /\ shares_rejected s' = S (shares_rejected s)).
Proof.
  intros [(e & _ & ->)|[(f & Hf & E)|[E|(code & m & Hm & E)]]];
    [left; auto|..];
    apply (f_equal snd) in E; cbn [snd] in E; subst s'.
  - left. destruct (send_json_cases f s) as (_ & _ & _ & _ & A & R & _). auto.
  - right; left.
    destruct (send_json_cases (Result id (VBool true)) (incr_accepted s))
      as (_ & _ & _ & _ & A & R & _). auto.
  - right; right.
    destruct (send_json_cases (Error id code m) (incr_rejected s))
      as (_ & _ & _ & _ & A & R & _). auto.
Qed.

(** X10. One message moves the share counters by at most one share: it
    leaves both as they are, or adds one to exactly one of them, and only
    an [eth_submitWork] or [mining.submit] can add; a broadcast never
    does.  This holds whatever happens to the writes. *)
Theorem counters_move_by_one_share :
  (forall env msg s,
     let s' := snd (_dispatch env msg s) in
     (shares_accepted s' = shares_accepted s /\ shares_rejected s' = shares_rejected s)
     \/ (is_submit msg = true /\
         ((shares_accepted s' = S (shares_accepted s)
           /\ shares_rejected s' = shares_rejected s)
          \/ (shares_accepted s' = shares_accepted s
              /\ shares_rejected s' = S (shares_rejected s))))) /\
  (forall job s,
     shares_accepted (broadcast_to job s) = shares_accepted s
     /\ shares_rejected (broadcast_to job s) = shares_rejected s).
Proof.
  split.
  - intros env msg s s'. unfold s'.
    destruct (dispatch_route env msg s) as [(_ & e & ->)|(id & params & ->)];
      [left; auto|].
    destruct (is_submit msg) eqn:Es.
    + assert (Hs : submit_shape id s (fst (route env (method_of msg) id params s))
                                (snd (route env (method_of msg) id params s))).
      { unfold is_submit in Es. apply orb_prop in Es as [H|H];
          apply is_method_eq in H; rewrite H; unfold route;
          cbn [is_method String.eqb Ascii.eqb Bool.eqb];
          [apply ethproxy_submitwork_shape|apply stratum_submit_shape]. }
      destruct (shape_counters Hs) as [H|[H|H]]; auto.
    + destruct (is_submit_route msg Es) as (H1 & H2).
      destruct (@route_quiet env (method_of msg) id params H1 H2 s) as (A & R & _).
      left; auto.
  - intros job s. destruct (broadcast_quiet job s) as (A & R & _). auto.
Qed.

(** *** Replies on a reliable connection *)

Lemma send_reliable (f : Frame) (s : MinerSession) :
  reliable s -> _send_json f s = (Return tt, pushed f s).
Proof.
  intros (Hc & Hl). unfold _send_json, pushed. rewrite Hc.
  destruct (link s) as [|[|] l]; [reflexivity|reflexivity|].
  inversion Hl; discriminate.
Qed.

Lemma reliable_pushed (f : Frame) (s : MinerSession) :
  reliable s -> reliable (pushed f s).
Proof.
  intros (Hc & Hl). split; [reflexivity|]. cbn.
  destruct (link s); [constructor|]. now inversion Hl.
Qed.

Lemma reliable_set_protocol (p : Protocol) (s : MinerSession) :
  reliable s -> reliable (set_protocol p s).
Proof. intros H; exact H. Qed.

Lemma reliable_set_worker_name (w : value) (s : MinerSession) :
  reliable s -> reliable (set_worker_name w s).
Proof. intros H; exact H. Qed.

Lemma reliable_set_authorized (b : bool) (s : MinerSession) :
  reliable s -> reliable (set_authorized b s).
Proof. intros H; exact H. Qed.

Lemma reliable_incr_accepted (s : MinerSession) :
  reliable s -> reliable (incr_accepted s).
Proof. intros H; exact H. Qed.

Lemma reliable_incr_rejected (s : MinerSession) :
  reliable s -> reliable (incr_rejected s).
Proof. intros H; exact H. Qed.

Create HintDb reliable.
#[local] Hint Resolve reliable_pushed reliable_set_protocol
  reliable_set_worker_name reliable_set_authorized
  reliable_incr_accepted reliable_incr_rejected : reliable.

(** Run a handler on a reliable connection: every write succeeds. *)
Ltac run_reliable :=
  repeat first
    [ rewrite send_reliable by auto 10 with reliable
    | progress cbv beta iota
    | destruct_head ].

Ltac sent_frames :=
  cbn [sent pushed set_writer set_protocol set_worker_name set_authorized
       incr_accepted incr_rejected];
  rewrite <- ?app_assoc; cbn [app];
  first [ reflexivity | symmetry; apply app_nil_r ].

Ltac answered_done :=
  cbn [fst snd]; split; [auto 10 with reliable|];
  eexists; split; [sent_frames|];
  first [ eexists; reflexivity
        | split; [reflexivity|repeat constructor] ].

Lemma route_answered (env : Env) (m id params : value) (s : MinerSession) :
  reliable s ->
  answered id s (fst (route env m id params s)) (snd (route env m id params s)).
Proof.
  intros Hr. unfold route.
  repeat match goal with
         | |- context [if is_method ?a ?b then _ else _] =>
             destruct (is_method a b)
         end;
    unfold_handlers; unfold bind, lift, ret, modify, get_session, first_or_unknown;
    run_reliable; answered_done.
Qed.

Lemma dispatch_dict (env : Env) (d : list (string * value)) (s : MinerSession) :
  _dispatch env (VDict d) s
  = route env (method_of (VDict d)) (field d "id" VNone)
          (field d "params" (VList [])) s.
Proof.
  unfold _dispatch, route, method_of, field, bind, lift, msg_get.
  destruct (PyDict.get "method" d), (PyDict.get "id" d), (PyDict.get "params" d);
    reflexivity.
Qed.

(** X11. One response per request.  On a connection whose writes succeed,
    handling a decoded line writes either nothing, and then only because
    the handler raised, or exactly one response (result or error) that
    carries the [id] of the request, written first, followed by nothing
    but notifications; earlier frames are untouched and the connection
    stays usable. *)
Theorem every_request_gets_one_reply (env : Env) (msg : value) (s : MinerSession) :
  reliable s ->
  answered (id_of msg) s (fst (_dispatch env msg s)) (snd (_dispatch env msg s)).
Proof.
  intros Hr. destruct msg as [| | | | |l|d];
    try (split; [exact Hr|]; exists []; split;
         [symmetry; apply app_nil_r|eexists; reflexivity]).
  rewrite dispatch_dict. now apply route_answered.
Qed.

(** X11 on the authorization of a stratum miner while job [0x1] is
    current: the reply, then the difficulty and the job. *)
Lemma every_request_gets_one_reply_witness :
  reliable (MinerSession_init []) /\
  answered (VInt 1) (MinerSession_init [])
    (fst (_dispatch one_job_env authorize_request (MinerSession_init [])))
    (snd (_dispatch one_job_env authorize_request (MinerSession_init []))).
Proof.
  assert (Hr : reliable (MinerSession_init [])) by (split; [reflexivity|constructor]).
  split; [exact Hr|].
  exact (every_request_gets_one_reply one_job_env authorize_request Hr).
Defined.

Lemma submit_solution_strings (up : string -> string -> string -> rpc_reply)
    (n h m : string) :
  submit_solution up (VStr n) (VStr h) (VStr m)
  = Return (verdict (up (add_0x n) (add_0x h) (add_0x m))).
Proof.
  unfold submit_solution, with_0x. fold (add_0x n) (add_0x h) (add_0x m).
  unfold verdict. destruct (up (add_0x n) (add_0x h) (add_0x m)) as [ok|e];
    [destruct (truthy ok)|]; reflexivity.
Qed.

Lemma settle_accept_or_reject (id : value) (code : Z) (result : string)
    (s : MinerSession) :
  reliable s ->
  settled id code result s
    (snd ((if String.eqb result "accepted"
           then bind (modify incr_accepted) (fun _ => _send_result id (VBool true))
           else bind (modify incr_rejected)
                  (fun _ => _send_error id code ("Rejected: " ++ result))) s)).
Proof.
  intros Hr. unfold settled.
  destruct (String.eqb result "accepted"); rewrite bind_modify;
    unfold _send_result, _send_error;
    rewrite send_reliable by auto with reliable; cbn; auto.
Qed.

(** X12. The EthProxy solution path.  On a connection whose writes
    succeed, an [eth_submitWork] whose first three parameters are strings
    is forwarded to the node with the [0x] prefix added where missing,
    whether or not the session has logged in; when the node accepts, the
    reply is [true] and [shares_accepted] goes up by one; otherwise the
    reply is error -1 ["Rejected: " + result] and [shares_rejected] goes up
    by one.  Parameters after the third are ignored. *)
Theorem ethproxy_submit_path (env : Env) (id : value) (n h m : string)
    (extra : list value) (s : MinerSession) :
  reliable s ->
  settled id (-1) (verdict (submit_work env (add_0x n) (add_0x h) (add_0x m))) s
    (snd (_dispatch env
            (request id "eth_submitWork" (VList (VStr n :: VStr h :: VStr m :: extra))) s)).
Proof.
  intros Hr. rewrite dispatch_request. unfold route.
  cbn [is_method String.eqb Ascii.eqb Bool.eqb].
  unfold _ethproxy_submitwork. unfold bind at 1 2 3 4 5 6. unfold lift.
  cbn [py_len List.length Nat.ltb Nat.leb py_getitem nth_error py_sliceable].
  rewrite submit_solution_strings.
  now apply settle_accept_or_reject.
Qed.

(** X12 on a fresh session that never logged in, the node accepting. *)
Lemma ethproxy_submit_path_witness :
  reliable (MinerSession_init []) /\
  shares_accepted
    (snd (_dispatch one_job_env
            (request (VInt 7) "eth_submitWork"
               (VList [VStr "abc"; VStr "0xaa"; VStr "d1d1"])) (MinerSession_init [])))
  = 1.
Proof.
  assert (Hr : reliable (MinerSession_init [])) by (split; [reflexivity|constructor]).
  split; [exact Hr|].
  exact (proj1 (proj2
    (@ethproxy_submit_path one_job_env (VInt 7) "abc" "0xaa" "d1d1" []
       (MinerSession_init []) Hr))).
Defined.

(** X13. The Stratum solution path, on an authorized session whose writes
    succeed, all parameters strings.  A submit with five or more
    parameters is forwarded as [(nonce, params[3], params[4])] when the job
    is cached or both of these are non-empty, so also for an unknown job
    id.  A submit with four parameters against a cached job is forwarded
    with the header of that job and [params[3]] as the mix digest.  The
    node's verdict is answered and counted: [true] and one accepted share,
    or error 20 ["Rejected: " + result] and one rejected share. *)
Theorem stratum_submit_paths (env : Env) (id worker : value) (jid n : string)
    (s : MinerSession) (found : option Job) :
  authorized s = true ->
  reliable s ->
  find_job (VStr jid) VNone (job_manager env) = Return found ->
  (forall h m extra,
     found <> None \/ (h <> "" /\ m <> "") ->
     settled id 20 (verdict (submit_work env (add_0x n) (add_0x h) (add_0x m))) s
       (snd (_dispatch env
               (request id "mining.submit"
                  (VList (worker :: VStr jid :: VStr n :: VStr h :: VStr m :: extra))) s)))
  /\
  (forall m,
     match found with
     | Some job =>
         settled id 20
           (verdict (submit_work env (add_0x n) (add_0x (header_hash job)) (add_0x m))) s
           (snd (_dispatch env
                   (request id "mining.submit"
                      (VList [worker; VStr jid; VStr n; VStr m])) s))
     | None =>
         _dispatch env
           (request id "mining.submit" (VList [worker; VStr jid; VStr n; VStr m])) s
         = _send_error id 21 "Job not found, can't reconstruct submission" s
     end).
Proof.
  intros Ha Hr Hf. split.
  - intros h m extra Hok. rewrite dispatch_request. unfold route.
    cbn [is_method String.eqb Ascii.eqb Bool.eqb].
    unfold _stratum_submit. unfold bind at 1 2 3 4 5 6 7. unfold get_session, lift.
    rewrite Ha.
    cbn [negb py_len List.length Nat.ltb Nat.leb py_getitem nth_error].
    rewrite Hf. unfold bind at 1 2 3. unfold lift, ret.
    cbn [py_getitem nth_error].
    assert (Hc : andb (orb (negb (truthy (VStr h))) (negb (truthy (VStr m))))
                      (match found with None => true | Some _ => false end) = false).
    { destruct found as [j|]; [apply andb_false_r|].
      destruct Hok as [H|(Hh & Hm)]; [congruence|].
      cbn [truthy]. apply String.eqb_neq in Hh, Hm. now rewrite Hh, Hm. }
    rewrite Hc. unfold bind at 1. unfold lift. rewrite submit_solution_strings.
    pose proof (@settle_accept_or_reject id 20
                  (verdict (submit_work env (add_0x n) (add_0x h) (add_0x m))) s Hr) as H.
    unfold settled in *.
    destruct (String.eqb (verdict (submit_work env (add_0x n) (add_0x h) (add_0x m)))
                         "accepted") eqn:E; [exact H|].
    destruct (String.eqb (verdict (submit_work env (add_0x n) (add_0x h) (add_0x m)))
                         "job-not-found") eqn:E2; [|exact H].
    apply String.eqb_eq in E2. exfalso.
    unfold verdict in E2.
    destruct (submit_work env (add_0x n) (add_0x h) (add_0x m)) as [ok|e];
      [destruct (truthy ok)|]; discriminate.
  - intros m. rewrite dispatch_request. unfold route.
    cbn [is_method String.eqb Ascii.eqb Bool.eqb].
    unfold _stratum_submit, bind, get_session, lift, ret.
    rewrite Ha.
    cbn [negb py_len List.length Nat.ltb Nat.leb py_getitem nth_error].
    rewrite Hf.
    destruct found as [job|].
    + cbn [header_of]. rewrite andb_false_r.
      rewrite submit_solution_strings.
      pose proof (@settle_accept_or_reject id 20
                    (verdict (submit_work env (add_0x n) (add_0x (header_hash job))
                                (add_0x m))) s Hr) as H.
      unfold settled in *.
      destruct (String.eqb (verdict (submit_work env (add_0x n)
                                       (add_0x (header_hash job)) (add_0x m)))
                           "accepted") eqn:E; [exact H|].
      destruct (String.eqb (verdict (submit_work env (add_0x n)
                                       (add_0x (header_hash job)) (add_0x m)))
                           "job-not-found") eqn:E2; [|exact H].
      apply String.eqb_eq in E2. exfalso.
      unfold verdict in E2.
      destruct (submit_work env (add_0x n) (add_0x (header_hash job)) (add_0x m))
        as [ok|e]; [destruct (truthy ok)|]; discriminate.
    + reflexivity.
Qed.

(** X13 on a full submit for a job id that is not cached. *)
Lemma stratum_submit_paths_witness :
  let s := snd (run_loop [Recv (Json authorize_request) empty_env] (MinerSession_init [])) in
  authorized s = true /\ reliable s /\
  shares_accepted
    (snd (_dispatch empty_env
            (request (VInt 5) "mining.submit"
               (VList [VStr "worker1"; VStr "0x99"; VStr "0xabc";
                       VStr "0xaa"; VStr "0xd1d1"])) s))
  = 1.
Proof.
  cbv zeta.
  assert (Hr : reliable (snd (run_loop [Recv (Json authorize_request) empty_env]
                                (MinerSession_init []))))
    by (split; [reflexivity|constructor]).
  split; [reflexivity|]. split; [exact Hr|].
  destruct (@stratum_submit_paths empty_env (VInt 5) (VStr "worker1") "0x99" "0xabc"
              (snd (run_loop [Recv (Json authorize_request) empty_env]
                      (MinerSession_init [])))
              None eq_refl Hr eq_refl) as (H & _).
  assert (Hok : @None Job <> None \/ ("0xaa" <> "" /\ "0xd1d1" <> ""))
    by (right; split; discriminate).
  exact (proj1 (proj2 (H "0xaa" "0xd1d1" [] Hok))).
Defined.

Ltac eval_request :=
  rewrite dispatch_request; unfold route;
  cbn [is_method String.eqb Ascii.eqb Bool.eqb];
  unfold_handlers; unfold bind, lift, ret, modify, get_session.

(** X14. Work push by dialect.  A broadcast reaches every open session,
    authorized or not, and leaves it open.  A session whose protocol is
    [ethproxy] gets one [mining.notify] with [header, seed, boundary],
    whatever the boundary is.  Any other session, for a job whose boundary
    is made of ASCII characters, gets [mining.set_difficulty] and then
    [mining.notify]; when that boundary does not parse, the stratum push
    raises inside the broadcast, which swallows it, and nothing is
    written.  [eth_getWork] answers with the same triple as the EthProxy
    push, or with error -1 when there is no current job. *)
Theorem work_push_by_dialect (job : Job) (s : MinerSession) :
  reliable s ->
  reliable (broadcast_to job s) /\
  (protocol s = ethproxy ->
   sent (broadcast_to job s) = sent s ++ [ethproxy_frame job]) /\
  (protocol s <> ethproxy -> isascii (boundary job) = true ->
   sent (broadcast_to job s) = sent s ++ stratum_frames job) /\
  (forall env id params,
     sent (snd (_dispatch env (request id "eth_getWork" params) s))
     = sent s ++ match current_job (job_manager env) with
                 | Some j =>
                     [Result id (VList [VStr (header_hash j); VStr (seed_hash j);
                                        VStr (boundary j)])]
                 | None => [Error id (-1) "No work available yet"]
                 end).
Proof.
  intros Hr. pose proof Hr as (Hc & _).
  assert (H : reliable (broadcast_to job s)
              /\ sent (broadcast_to job s)
                 = sent s ++ match protocol s with
                             | ethproxy => [ethproxy_frame job]
                             | _ => stratum_frames job
                             end).
  { unfold broadcast_to, send_new_work, stratum_frames. rewrite Hc.
    destruct (protocol s); unfold_handlers; unfold bind, lift;
      try destruct (boundary_int job) as [b|e];
      run_reliable; cbn [snd]; (split; [auto 10 with reliable|]);
      solve [sent_frames]. }
  destruct H as (H1 & H2). split; [exact H1|].
  split; [intros Hp; rewrite H2, Hp; reflexivity|].
  split; [intros Hp _; rewrite H2; destruct (protocol s); congruence|].
  intros env id params. eval_request.
  destruct (current_job (job_manager env)); run_reliable; cbn [snd]; sent_frames.
Qed.

(** X14 on a fresh session, not authorized, protocol still unknown. *)
Lemma work_push_by_dialect_witness :
  reliable (MinerSession_init []) /\
  sent (broadcast_to (mkJob "0x1" "0xaa" "0x5eed" "0x00ff") (MinerSession_init []))
  = [difficulty_frame (VFloat (2 ^ 256 - 1) 255);
     notify_frame (mkJob "0x1" "0xaa" "0x5eed" "0x00ff") true].
Proof.
  assert (Hr : reliable (MinerSession_init [])) by (split; [reflexivity|constructor]).
  assert (Hp : protocol (MinerSession_init []) <> ethproxy) by discriminate.
  split; [exact Hr|].
  exact (proj1 (proj2 (proj2
    (@work_push_by_dialect (mkJob "0x1" "0xaa" "0x5eed" "0x00ff")
       (MinerSession_init []) Hr))) Hp eq_refl).
Defined.

(** X15. The three handshakes, on a connection whose writes succeed, for
    parameters whose first item can be read.  [mining.subscribe] sets the
    protocol to stratum without authorizing the session;
    [mining.authorize] records the worker name and authorizes, leaving
    the protocol as it is.  Both reply (the subscription tuple, [true])
    and then push the current job, if there is one: with a boundary made
    of ASCII characters, the reply is followed by [mining.set_difficulty]
    and [mining.notify] when the boundary parses and by nothing when it
    does not.  [eth_submitLogin] records the worker name, authorizes,
    sets the protocol to EthProxy and replies [true]; it pushes
    nothing. *)
Theorem handshakes (env : Env) (id params w : value) (s : MinerSession) :
  reliable s ->
  first_or_unknown params = Return w ->
  (let s' := snd (_dispatch env (request id "mining.subscribe" params) s) in
   (current_boundary_isascii (job_manager env) = true ->
    sent s' = sent s ++ Result id subscription :: current_work_frames (job_manager env))
   /\ protocol s' = stratum
   /\ authorized s' = authorized s
   /\ worker_name s' = worker_name s) /\
  (let s' := snd (_dispatch env (request id "mining.authorize" params) s) in
   (current_boundary_isascii (job_manager env) = true ->
    sent s' = sent s ++ Result id (VBool true) :: current_work_frames (job_manager env))
   /\ protocol s' = protocol s
   /\ authorized s' = true
   /\ worker_name s' = w) /\
  (let s' := snd (_dispatch env (request id "eth_submitLogin" params) s) in
   sent s' = sent s ++ [Result id (VBool true)]
   /\ protocol s' = ethproxy
   /\ authorized s' = true
   /\ worker_name s' = w).
Proof.
  intros Hr Hw. unfold current_work_frames, stratum_frames, subscription.
  split; [|split]; cbv zeta; eval_request; rewrite Hw;
    try destruct (current_job (job_manager env)) as [job|];
    try destruct (boundary_int job) as [b|e];
    run_reliable; cbn [snd];
    (split; [try intros _; solve [sent_frames]|]); repeat split.
Qed.

(** X15 on the first message of a stratum miner while job [0x1] is
    current. *)
Lemma handshakes_witness :
  reliable (MinerSession_init []) /\
  first_or_unknown (VList [VStr "miner/1.0"]) = Return (VStr "miner/1.0") /\
  sent (snd (_dispatch one_job_env subscribe_request (MinerSession_init [])))
  = [Result (VInt 2) subscription;
     difficulty_frame (VFloat (2 ^ 256 - 1) 255);
     notify_frame (mkJob "0x1" "0xaa" "0x5eed" "0x00ff") true].
Proof.
  assert (Hr : reliable (MinerSession_init [])) by (split; [reflexivity|constructor]).
  split; [exact Hr|]. split; [reflexivity|].
  exact (proj1 (proj1
    (@handshakes one_job_env (VInt 2) (VList [VStr "miner/1.0"]) (VStr "miner/1.0")
       (MinerSession_init []) Hr eq_refl)) eq_refl).
Defined.

Lemma run_on_raise (env : Env) (msg : value) (rest : list Event)
    (s s1 : MinerSession) (e : exn) :
  _closed s = false ->
  _dispatch env msg s = (Raise e, s1) ->
  run (Recv (Json msg) env :: rest) s = snd (close s1)
  /\ handled (Recv (Json msg) env :: rest) s = [Recv (Json msg) env].
Proof.
  intros Hc E. unfold run. cbn [run_loop handled]. rewrite Hc.
  unfold bind. rewrite E. auto.
Qed.

(** X16. What ends a session.  On an open session, a line that is valid
    JSON but not an object, and an [eth_submitWork], [eth_submitHashrate]
    or (when authorized) [mining.submit] whose [params] is [null], a
    boolean or a number, make the handler raise: [run] closes the session
    there, nothing is written for that line, no counter moves, and the
    lines after it are not handled.  A blank line or a line that is not
    JSON is skipped instead. *)
Theorem malformed_request_ends_session (env : Env) (rest : list Event)
    (s : MinerSession) :
  _closed s = false ->
  (forall msg,
     if is_object msg then True
     else run (Recv (Json msg) env :: rest) s = snd (close s)
          /\ handled (Recv (Json msg) env :: rest) s = [Recv (Json msg) env]) /\
  (forall id params method,
     if andb (unsized params)
             (orb (String.eqb method "eth_submitWork")
                  (orb (String.eqb method "eth_submitHashrate")
                       (andb (String.eqb method "mining.submit") (authorized s))))
     then run (Recv (Json (request id method params)) env :: rest) s = snd (close s)
          /\ handled (Recv (Json (request id method params)) env :: rest) s
             = [Recv (Json (request id method params)) env]
     else True) /\
  run (Recv Blank env :: rest) s = run rest s /\
  run (Recv BadJson env :: rest) s = run rest s.
Proof.
  intros Hc. split; [|split; [|split]].
  - intros msg. destruct msg; cbn [is_object]; try exact I;
      eapply run_on_raise; try exact Hc; reflexivity.
  - intros id params method.
    destruct (unsized params) eqn:Eu; [|exact I]. cbn [andb].
    destruct (String.eqb_spec method "eth_submitWork") as [->|N1].
    { eapply run_on_raise; [exact Hc|]. destruct params; try discriminate; reflexivity. }
    destruct (String.eqb_spec method "eth_submitHashrate") as [->|N2].
    { eapply run_on_raise; [exact Hc|]. destruct params; try discriminate; reflexivity. }
    destruct (String.eqb_spec method "mining.submit") as [->|N3]; [|exact I].
    destruct (authorized s) eqn:Ea; [|exact I]. cbn [orb andb].
    eapply run_on_raise; [exact Hc|].
    rewrite dispatch_request. unfold route.
    cbn [is_method String.eqb Ascii.eqb Bool.eqb].
    unfold _stratum_submit, bind, get_session, lift. rewrite Ea.
    destruct params; try discriminate; reflexivity.
  - unfold run. cbn [run_loop]. now rewrite Hc.
  - unfold run. cbn [run_loop]. now rewrite Hc.
Qed.

(** X16 on a line that holds a JSON array. *)
Lemma malformed_request_ends_session_witness :
  _closed (MinerSession_init []) = false /\
  run [Recv (Json (VList [])) empty_env; Recv (Json login_request) empty_env]
      (MinerSession_init [])
  = snd (close (MinerSession_init [])).
Proof.
  split; [reflexivity|].
  exact (proj1 (proj1
    (@malformed_request_ends_session empty_env [Recv (Json login_request) empty_env]
       (MinerSession_init []) eq_refl) (VList []))).
Defined.

(* ------------------------------------------------------------------ *)
(** ** The node RPC client *)
(* ------------------------------------------------------------------ *)

Lemma call_cases (net : Request -> http_reply) (method : string)
    (params : option (list value)) (rpc : NodeRPC.t) :
  NodeRPC._id (snd (NodeRPC.call net method params rpc)) = (NodeRPC._id rpc + 1)%N /\
  NodeRPC.url (snd (NodeRPC.call net method params rpc)) = NodeRPC.url rpc /\
  fst (NodeRPC.call net method params rpc)
  = match net (mkRequest (NodeRPC._id rpc + 1) method
                 (match params with Some l => l | None => [] end)) with
    | HttpRaise detail => CallRaise (TransportError detail)
    | HttpJson (VDict data) =>
        if truthy (field data "error" VNone)
        then CallRaise (RuntimeError method (field data "error" VNone))
        else CallReturn (field data "result" VNone)
    | HttpJson _ => CallRaise BodyNotObject
    end.
Proof.
  unfold NodeRPC.call, field.
  destruct (net _) as [detail|[| | | | | |data]]; cbn; auto.
  destruct (PyDict.get "error" data) as [e|]; [destruct (truthy e)|];
    destruct (PyDict.get "result" data); cbn; auto.
Qed.

(** X17. Solutions through the RPC client.  [submit_solution] on three
    strings posts one [eth_submitWork] request that carries the next
    request id and the three strings with their [0x] prefix, and never
    raises.  It returns ["accepted"] only when the node's answer is a JSON
    object whose [error] member is absent or falsy and whose [result] is
    truthy; a truthy [error] member gives ["error: ..."] even when a
    [result] is present, as do a failed exchange and a body that is not an
    object; anything else is ["rejected"]. *)
Theorem submit_solution_via_rpc (str_exn : call_exn -> string)
    (net : Request -> http_reply) (rpc : NodeRPC.t) (n h m : string) :
  submit_solution (node_via str_exn net rpc) (VStr n) (VStr h) (VStr m)
  = Return (result_of_exchange str_exn
              (net (mkRequest (NodeRPC._id rpc + 1) "eth_submitWork"
                      [VStr (add_0x n); VStr (add_0x h); VStr (add_0x m)]))).
Proof.
  rewrite submit_solution_strings. f_equal.
  unfold verdict, node_via, NodeRPC.submit_work, result_of_exchange.
  rewrite (proj2 (proj2 (call_cases net "eth_submitWork" _ rpc))).
  destruct (net _) as [detail|[| | | | | |data]]; try reflexivity.
  destruct (truthy (field data "error" VNone)); reflexivity.
Qed.

Lemma startup_cases (net : Request -> http_reply) (rpc : NodeRPC.t) :
  fst (startup net rpc)
  = match fst (NodeRPC.block_number net rpc) with
    | Done _ =>
        match fst (NodeRPC.mining_active net (snd (NodeRPC.block_number net rpc))) with
        | CallReturn _ => None
        | CallRaise _ => Some 1
        end
    | _ => Some 1
    end.
Proof.
  unfold startup.
  destruct (NodeRPC.block_number net rpc) as [[z|e|e] rpc1]; cbn [fst snd]; try reflexivity.
  destruct (NodeRPC.mining_active net rpc1) as [[v|e] rpc2]; cbn [fst]; [|reflexivity].
  destruct (NodeRPC.get_work net rpc2); reflexivity.
Qed.

Lemma call_ext (net1 net2 : Request -> http_reply) (method : string)
    (params : option (list value)) (rpc : NodeRPC.t) :
  net1 (mkRequest (NodeRPC._id rpc + 1) method
          (match params with Some l => l | None => [] end))
  = net2 (mkRequest (NodeRPC._id rpc + 1) method
            (match params with Some l => l | None => [] end)) ->
  NodeRPC.call net1 method params rpc = NodeRPC.call net2 method params rpc.
Proof. intros E. unfold NodeRPC.call. now rewrite E. Qed.

(** X18. The start-up check.  Whether [main] goes on to start the proxy
    or exits with code 1 does not depend on what the node does with
    [eth_getWork]: two nodes that answer every other request alike give
    the same outcome.  When the check passes, [eth_blockNumber] returned a
    result that decoded and three request ids were used; when it does
    not, the exit code is 1. *)
Theorem startup_ignores_get_work (net1 net2 : Request -> http_reply)
    (rpc : NodeRPC.t) :
  (forall req, req_method req <> "eth_getWork" -> net1 req = net2 req) ->
  fst (startup net1 rpc) = fst (startup net2 rpc) /\
  match fst (startup net1 rpc) with
  | None =>
      NodeRPC._id (snd (startup net1 rpc)) = (NodeRPC._id rpc + 3)%N
      /\ (exists z, fst (NodeRPC.block_number net1 rpc) = Done z)
  | Some code => code = 1
  end.
Proof.
  intros H.
  assert (Hb : NodeRPC.block_number net1 rpc = NodeRPC.block_number net2 rpc).
  { unfold NodeRPC.block_number.
    rewrite (@call_ext net1 net2 "eth_blockNumber" None rpc); [reflexivity|].
    apply H. discriminate. }
  assert (Hm : forall r, NodeRPC.mining_active net1 r = NodeRPC.mining_active net2 r).
  { intros r. unfold NodeRPC.mining_active. apply call_ext. apply H. discriminate. }
  split.
  - rewrite !startup_cases, Hb, Hm. reflexivity.
  - unfold startup.
    destruct (NodeRPC.block_number net1 rpc) as [[z|e|e] rpc1] eqn:Eb;
      cbn [fst snd]; try reflexivity.
    assert (Hid1 : NodeRPC._id rpc1 = (NodeRPC._id rpc + 1)%N).
    { unfold NodeRPC.block_number in Eb.
      pose proof (proj1 (call_cases net1 "eth_blockNumber" None rpc)) as Hc.
      destruct (NodeRPC.call net1 "eth_blockNumber" None rpc) as [[r|e] r1];
        cbn [snd] in Hc; injection Eb as _ <-; exact Hc. }
    unfold NodeRPC.mining_active.
    pose proof (proj1 (call_cases net1 "eth_mining" None rpc1)) as Hid2.
    destruct (NodeRPC.call net1 "eth_mining" None rpc1) as [[v|e] rpc2];
      cbn [fst snd] in *; [|reflexivity].
    unfold NodeRPC.get_work.
    pose proof (proj1 (call_cases net1 "eth_getWork" None rpc2)) as Hid3.
    destruct (NodeRPC.call net1 "eth_getWork" None rpc2) as [[w|e] rpc3];
      cbn [fst snd] in *; (split; [lia|eexists; reflexivity]).
Qed.

(** X18 on a node that mines but times out on [eth_getWork], against one
    that answers it. *)
Lemma startup_ignores_get_work_witness :
  fst (startup node_without_work (NodeRPC.init "http://127.0.0.1:8545")) = None /\
  fst (startup (fun req =>
                  if String.eqb (req_method req) "eth_getWork"
                  then HttpJson (VDict [("result", VList [])])
                  else node_without_work req)
         (NodeRPC.init "http://127.0.0.1:8545")) = None.
Proof.
  split; [reflexivity|].
  assert (H : forall req, req_method req <> "eth_getWork" ->
                node_without_work req
                = (fun req =>
                     if String.eqb (req_method req) "eth_getWork"
                     then HttpJson (VDict [("result", VList [])])
                     else node_without_work req) req).
  { intros req Hne. cbv beta.
    destruct (String.eqb_spec (req_method req) "eth_getWork"); [contradiction|reflexivity]. }
  rewrite <- (proj1 (@startup_ignores_get_work _ _ (NodeRPC.init "http://127.0.0.1:8545") H)).
  reflexivity.
Defined.

(** X19. [block_number] reads back what [hex] writes: when the node
    answers [eth_blockNumber] with an object whose [error] member is absent
    or falsy and whose [result] is the string [hex n], the call returns
    [n]. *)
Theorem block_number_reads_hex (net : Request -> http_reply) (rpc : NodeRPC.t)
    (data : list (string * value)) (n : N) :
  net (mkRequest (NodeRPC._id rpc + 1) "eth_blockNumber" []) = HttpJson (VDict data) ->
  truthy (field data "error" VNone) = false ->
  field data "result" VNone = VStr (hex n) ->
  fst (NodeRPC.block_number net rpc) = Done (Z.of_N n).
Proof.
  intros Hnet He Hr. unfold NodeRPC.block_number.
  pose proof (proj2 (proj2 (call_cases net "eth_blockNumber" None rpc))) as Hc.
  cbv iota in Hc. rewrite Hnet, He, Hr in Hc.
  destruct (NodeRPC.call net "eth_blockNumber" None rpc) as [[r|e] rpc1];
    cbn [fst] in *; [|discriminate].
  injection Hc as ->. now rewrite int16_hex.
Qed.

(** X19 on block 436. *)
Lemma block_number_reads_hex_witness :
  fst (NodeRPC.block_number node_without_work (NodeRPC.init "http://127.0.0.1:8545"))
  = Done 436%Z.
Proof.
  exact (@block_number_reads_hex node_without_work
           (NodeRPC.init "http://127.0.0.1:8545")
           [("result", VStr "0x1b4")] 436%N eq_refl eq_refl eq_refl).
Defined.

(* ------------------------------------------------------------------ *)
(** ** The stratum server *)
(* ------------------------------------------------------------------ *)

Lemma broadcast_handles (job : Job) (reg : Registry) :
  map fst (_broadcast job reg) = map fst reg.
Proof. unfold _broadcast. rewrite map_map. reflexivity. Qed.

Lemma poll_turn_reachable (created : list Job) (r : option (list string))
    (st : PollState) :
  tracks created (manager st) ->
  snd (poll_turn r st) = false
  /\ consecutive_errors (fst (poll_turn r st)) = 0
  /\ manager (fst (poll_turn r st)) = snd (poll_work r (manager st))
  /\ sessions (fst (poll_turn r st))
     = match fst (poll_work r (manager st)) with
       | Return (Some job) => _broadcast job (sessions st)
       | _ => sessions st
       end.
Proof.
  intros T. unfold poll_turn.
  destruct (no_change_dec r (manager st)) as [H|(h & sd & b & rest & -> & Hd)].
  - rewrite poll_work_no_change by assumption. cbn. auto.
  - destruct (poll_work_new sd b rest T Hd) as (s' & E & _).
    rewrite E. cbn. auto.
Qed.

Lemma poll_turns_manager (rs : list (option (list string))) :
  forall st, manager (poll_turns rs st) = poll_all rs (manager st).
Proof.
  induction rs as [|r rs IH]; intros st; [reflexivity|].
  cbn [poll_turns poll_all fold_left]. fold (poll_turns rs (fst (poll_turn r st))).
  fold (poll_all rs (snd (poll_work r (manager st)))).
  rewrite IH. f_equal. unfold poll_turn.
  destruct (poll_work r (manager st)) as [[[j|]|e] jm]; reflexivity.
Qed.

Lemma poll_turn_handles (r : option (list string)) (st : PollState) :
  map fst (sessions (fst (poll_turn r st))) = map fst (sessions st).
Proof.
  unfold poll_turn.
  destruct (poll_work r (manager st)) as [[[j|]|e] jm]; cbn [fst sessions];
    [apply broadcast_handles|reflexivity|reflexivity].
Qed.

Lemma poll_turns_handles (rs : list (option (list string))) :
  forall st, map fst (sessions (poll_turns rs st)) = map fst (sessions st).
Proof.
  induction rs as [|r rs IH]; intros st; [reflexivity|].
  cbn [poll_turns fold_left]. fold (poll_turns rs (fst (poll_turn r st))).
  now rewrite IH, poll_turn_handles.
Qed.

(** X20. The poll loop on a proxy that starts fresh.  Whatever answers
    [get_work] gives (each [None] or a list of strings), no turn of the
    loop ends in the exception branch: the error counter stays 0 and
    nothing is logged as a poll error.  A turn broadcasts exactly when
    [poll_work] returned a job, to every registered session, and the
    registry keeps the same sessions in the same order. *)
Theorem poll_loop_stays_healthy :
  forall rs reg r,
    let st := poll_turns rs (mkPollState JobManager_init reg 0) in
    snd (poll_turn r st) = false /\
    consecutive_errors (fst (poll_turn r st)) = 0 /\
    manager (fst (poll_turn r st)) = poll_all (rs ++ [r]) JobManager_init /\
    sessions (fst (poll_turn r st))
    = match fst (poll_work r (manager st)) with
      | Return (Some job) => _broadcast job (sessions st)
      | _ => sessions st
      end /\
    map fst (sessions (fst (poll_turn r st))) = map fst reg.
Proof.
  intros rs reg r st.
  assert (Hm : manager st = poll_all rs JobManager_init).
  { unfold st. now rewrite poll_turns_manager. }
  destruct (poll_all_tracks rs tracks_init) as (more & T). cbn [app] in T.
  rewrite <- Hm in T.
  destruct (poll_turn_reachable r st T) as (H1 & H2 & H3 & H4).
  repeat split; try assumption.
  - rewrite H3, Hm. unfold poll_all. now rewrite fold_left_app.
  - rewrite poll_turn_handles. unfold st. now rewrite poll_turns_handles.
Qed.

(** X21. Log dampening of the poll loop.  Among the first [k] consecutive
    poll errors, the ones that are logged are the first three and then
    every thirtieth: [min k 3 + k / 30] in all. *)
Theorem poll_errors_logged (k : nat) :
  List.length (filter logs_poll_error (seq 1 k)) = Nat.min k 3 + k / 30.
Proof.
  induction k as [|k IH]; [reflexivity|].
  rewrite seq_S, filter_app, length_app, IH. cbn [filter Nat.add].
  unfold logs_poll_error.
  destruct (Nat.leb_spec (S k) 3) as [Hle|Hgt].
  - cbn [orb List.length].
    rewrite (Nat.div_small k 30), (Nat.div_small (S k) 30) by lia. lia.
  - cbn [orb].
    pose proof (Nat.div_mod_eq k 30) as Hk.
    pose proof (Nat.mod_upper_bound k 30 ltac:(lia)) as Hb.
    pose proof (Nat.div_mod_eq (S k) 30) as Hk'.
    pose proof (Nat.mod_upper_bound (S k) 30 ltac:(lia)) as Hb'.
    destruct (Nat.eqb_spec (S k mod 30) 0) as [E|N]; cbn [List.length]; lia.
Qed.

Lemma remove_session_absent (h : nat) (reg : Registry) :
  ~ In h (map fst reg) -> remove_session h reg = reg.
Proof.
  induction reg as [|[h' s] reg IH]; cbn; [reflexivity|].
  intros H. destruct (Nat.eqb_spec h h') as [->|N]; [tauto|].
  rewrite IH; tauto.
Qed.

Lemma remove_session_filter (h : nat) (reg : Registry) :
  NoDup (map fst reg) ->
  remove_session h reg = filter (fun e => negb (Nat.eqb h (fst e))) reg.
Proof.
  induction reg as [|[h' s] reg IH]; cbn; [reflexivity|].
  intros Hnd. inversion Hnd as [|? ? Hnotin Hnd']; subst.
  destruct (Nat.eqb_spec h h') as [->|N]; cbn.
  - rewrite <- (IH Hnd'). symmetry. now apply remove_session_absent.
  - now rewrite IH.
Qed.

(** X22. The session registry.  While every registered session is
    registered once, [_on_disconnect] removes exactly the session that
    ended and keeps the others in their order; disconnecting a session
    that is not registered, or a second time, changes nothing; and a
    session that connects and then disconnects leaves the registry as it
    was. *)
Theorem registry_disconnect (h : nat) (wire : list bool) (reg : Registry) :
  NoDup (map fst reg) ->
  _on_disconnect h reg = filter (fun e => negb (Nat.eqb h (fst e))) reg /\
  ~ In h (map fst (_on_disconnect h reg)) /\
  _on_disconnect h (_on_disconnect h reg) = _on_disconnect h reg /\
  (if existsb (fun e => Nat.eqb h (fst e)) reg then True
   else _on_disconnect h reg = reg
        /\ _on_disconnect h (_on_connect h wire reg) = reg).
Proof.
  intros Hnd.
  assert (E : _on_disconnect h reg = filter (fun e => negb (Nat.eqb h (fst e))) reg).
  { unfold _on_disconnect.
    destruct (existsb (fun e => Nat.eqb h (fst e)) reg) eqn:Ex.
    - now apply remove_session_filter.
    - symmetry. apply forallb_filter_id. apply forallb_forall. intros e He.
      destruct (Nat.eqb h (fst e)) eqn:Eh; [|reflexivity].
      assert (existsb (fun e => Nat.eqb h (fst e)) reg = true); [|congruence].
      apply existsb_exists. now exists e. }
  assert (Hout : ~ In h (map fst (_on_disconnect h reg))).
  { rewrite E. intros Hin. apply in_map_iff in Hin as (e & <- & He).
    apply filter_In in He as (_ & He). now rewrite Nat.eqb_refl in He. }
  split; [exact E|]. split; [exact Hout|]. split.
  - unfold _on_disconnect at 1.
    destruct (existsb (fun e => Nat.eqb h (fst e)) (_on_disconnect h reg)) eqn:Ex;
      [|reflexivity].
    now apply remove_session_absent.
  - destruct (existsb (fun e => Nat.eqb h (fst e)) reg) eqn:Ex; [exact I|].
    assert (Hnot : ~ In h (map fst reg)).
    { intros Hin. apply in_map_iff in Hin as (e & <- & He).
      assert (existsb (fun e0 => Nat.eqb (fst e) (fst e0)) reg = true); [|congruence].
      apply existsb_exists. exists e. now rewrite Nat.eqb_refl. }
    split; [unfold _on_disconnect; now rewrite Ex|].
    unfold _on_disconnect, _on_connect.
    rewrite existsb_app. cbn [existsb fst]. rewrite Nat.eqb_refl, orb_true_r.
    clear - Hnot. induction reg as [|[h' s] reg IH]; cbn.
    + now rewrite Nat.eqb_refl.
    + destruct (Nat.eqb_spec h h') as [->|N]; [cbn in Hnot; tauto|].
      rewrite IH; [reflexivity|cbn in Hnot; tauto].
Qed.

(** X22 on a registry of two sessions. *)
Lemma registry_disconnect_witness :
  NoDup (map fst [(1, MinerSession_init []); (2, MinerSession_init [])]) /\
  _on_disconnect 1 [(1, MinerSession_init []); (2, MinerSession_init [])]
  = [(2, MinerSession_init [])].
Proof.
  assert (Hnd : NoDup (map fst [(1, MinerSession_init []); (2, MinerSession_init [])])).
  { repeat constructor; cbn; intuition discriminate. }
  split; [exact Hnd|].
  exact (proj1 (@registry_disconnect 1 [] _ Hnd)).
Defined.
